(** * Neon proxy core: block store, mempool transaction cache, mempool
    service entry point and JSON-RPC dispatcher.

    A shallow embedding of

      - [proxy/indexer/solana_blocks_db.py]   (module [BlocksDB]),
      - [proxy/mempool/mempool_neon_tx_dict.py] (module [TxDict]),
      - [proxy/mempool/mempool_service.py]    (module [Service]),
      - [proxy/plugin/solana_rest_api.py]     (module [RestApi]),

    together with the Python primitives those files rely on (module [Py]):
    text operations, [hex], [int(_, 16)], and binary64 arithmetic for
    [math.ceil(n * 0.4)]. *)

From Stdlib Require Import ZArith Lia List Ascii String Bool Sorted.
From Stdlib Require Import Floats.SpecFloat.
From stdpp Require Import gmap strings list fin_maps.

Local Open Scope Z_scope.

(* ===================================================================== *)
(** * Python primitives *)
(* ===================================================================== *)

Module Py.

(** Built-in exceptions raised by the modelled code. *)
Inductive exn : Type :=
| ValueError
| TypeError
| OverflowError
| IndexError
| DatabaseError.

(** A computation either returns or raises. *)
Inductive result (A : Type) : Type :=
| Ok (a : A)
| Raise (e : exn).
Arguments Ok {A} a.
Arguments Raise {A} e.

Definition bind {A B} (r : result A) (k : A -> result B) : result B :=
  match r with
  | Ok a => k a
  | Raise e => Raise e
  end.

(** Python text, restricted to ASCII code points. *)
Definition pystr : Type := list ascii.

Definition lit (s : string) : pystr := list_ascii_of_string s.

(** [s.rjust(width, fill)] *)
Definition rjust (s : pystr) (width : Z) (fill : ascii) : pystr :=
  replicate (Z.to_nat (width - Z.of_nat (length s))) fill ++ s.

(** [s.lstrip(c)] for a one-character strip set. *)
Fixpoint lstrip (c : ascii) (s : pystr) : pystr :=
  match s with
  | [] => []
  | a :: s' => if Ascii.eqb a c then lstrip c s' else s
  end.

(** [c * n] for a one-character text [c]. *)
Definition times (c : ascii) (n : nat) : pystr := replicate n c.

Definition code (c : ascii) : Z := Z.of_N (N_of_ascii c).

Definition hex_digit (d : Z) : ascii :=
  nth (Z.to_nat d) (lit "0123456789abcdef") "0"%char.

(** Base-16 digits of a non-negative integer, most significant first.
    Each round emits one digit, so [fuel] rounds handle any [n < 16^fuel]. *)
Fixpoint to_base16 (fuel : nat) (n : Z) : list Z :=
  match fuel with
  | O => []
  | S f => (if n <? 16 then [] else to_base16 f (n / 16)) ++ [n mod 16]
  end.

Definition digits16 (n : Z) : list Z :=
  to_base16 (S (Z.to_nat (Z.log2 n))) n.

(** [hex(n)]: sign, the ["0x"] prefix, lower-case digits. *)
Definition hex (n : Z) : pystr :=
  (if n <? 0 then lit "-" else []) ++ lit "0x" ++ map hex_digit (digits16 (Z.abs n)).

(** The digit table of CPython ([_PyLong_DigitValue]): letters of either
    case stand for 10..35. *)
Definition digit_value (c : ascii) : option Z :=
  let n := code c in
  if (48 <=? n) && (n <=? 57) then Some (n - 48)
  else if (97 <=? n) && (n <=? 122) then Some (n - 87)
  else if (65 <=? n) && (n <=? 90) then Some (n - 55)
  else None.

Definition is_digit16 (c : ascii) : bool :=
  match digit_value c with
  | Some v => v <? 16
  | None => false
  end.

(** ASCII white space as the integer parser sees it ([Py_ISSPACE]). *)
Definition is_space (c : ascii) : bool :=
  let n := code c in
  ((9 <=? n) && (n <=? 13)) || (n =? 32).

Fixpoint skip_spaces (s : pystr) : pystr :=
  match s with
  | [] => []
  | a :: s' => if is_space a then skip_spaces s' else s
  end.

(** The digit scanner of [int]: a maximal run of base-16 digits and single
    underscores.  [None] is a syntax error (doubled or trailing underscore);
    otherwise the value read so far and the unread rest. *)
Fixpoint scan_digits (s : pystr) (prev_underscore : bool) (acc : Z)
  : option (Z * pystr) :=
  match s with
  | [] => if prev_underscore then None else Some (acc, [])
  | c :: s' =>
      if Ascii.eqb c "_" then
        if prev_underscore then None else scan_digits s' true acc
      else if is_digit16 c then
        scan_digits s' false (16 * acc + default 0 (digit_value c))
      else if prev_underscore then None else Some (acc, s)
  end.

(** An optional sign in front of the digits. *)
Definition strip_sign (s : pystr) : bool * pystr :=
  match s with
  | c :: r =>
      if Ascii.eqb c "+" then (false, r)
      else if Ascii.eqb c "-" then (true, r)
      else (false, s)
  | [] => (false, s)
  end.

(** An optional [0x]/[0X] prefix, which one underscore may follow. *)
Definition strip_prefix16 (s : pystr) : pystr :=
  match s with
  | c0 :: c1 :: r =>
      if Ascii.eqb c0 "0" && (Ascii.eqb c1 "x" || Ascii.eqb c1 "X") then
        match r with
        | u :: r' => if Ascii.eqb u "_" then r' else r
        | [] => r
        end
      else s
  | _ => s
  end.

(** [int(s, 16)]: optional surrounding white space, an optional sign, an
    optional prefix, then at least one digit. *)
Definition int16 (s : pystr) : result Z :=
  let '(negative, s2) := strip_sign (skip_spaces s) in
  let s3 := strip_prefix16 s2 in
  match s3 with
  | [] => Raise ValueError
  | c :: _ =>
      if Ascii.eqb c "_" then Raise ValueError
      else
        match scan_digits s3 false 0 with
        | None => Raise ValueError
        | Some (v, rest) =>
            if (length rest =? length s3)%nat then Raise ValueError
            else
              match skip_spaces rest with
              | [] => Ok (if negative then - v else v)
              | _ :: _ => Raise ValueError
              end
        end
  end.

(** ** binary64 arithmetic

    Python floats are IEEE 754 binary64 values; [spec_float] at precision 53
    and exponent bound 1024 is that format, with round-to-nearest-even. *)

Definition prec : Z := 53.
Definition emax : Z := 1024.

(** [float(n)]: the nearest binary64 value; too large an integer raises. *)
Definition float_of_int (n : Z) : result spec_float :=
  match binary_normalize prec emax n 0 false with
  | S754_infinity _ => Raise OverflowError
  | f => Ok f
  end.

(** The literal [0.4]: 0x1.999999999999ap-2. *)
Definition float_0_4 : spec_float := S754_finite false 7205759403792794 (-54).

(** [n * x] for an integer [n] and a float [x]. *)
Definition int_mul_float (n : Z) (x : spec_float) : result spec_float :=
  bind (float_of_int n) (fun f => Ok (SFmul prec emax f x)).

(** [math.ceil(x)] *)
Definition ceil (x : spec_float) : result Z :=
  match x with
  | S754_zero _ => Ok 0
  | S754_finite s m e =>
      let v := if s then Z.neg m else Z.pos m in
      Ok (if 0 <=? e then v * 2 ^ e else - ((- v) / 2 ^ (- e)))
  | S754_infinity _ => Raise OverflowError
  | S754_nan => Raise ValueError
  end.

(** ** Notions used to state facts about the primitives *)

(** A base-16 digit, and the value of a digit string read after [acc]. *)
Definition digit_ok (d : Z) : Prop := 0 <= d < 16.

Definition value16 (ds : list Z) (acc : Z) : Z :=
  fold_left (fun a d => 16 * a + d) ds acc.

(** A non-negative result: zero, or a positive finite value with bounded
    mantissa and exponent. *)
Definition nonneg_within (M E : Z) (x : spec_float) : Prop :=
  x = S754_zero false \/
  exists m e, x = S754_finite false m e /\ Z.pos m <= M /\ e <= E.

(** [mrs] holds [M] shifted right by [k] bits: the quotient, and the place
    of the remainder against half a unit in the round and sticky bits. *)
Definition shifted (M k : Z) (mrs : shr_record) : Prop :=
  exists rem,
    M = shr_m mrs * 2 ^ k + rem /\ 0 <= rem < 2 ^ k /\
    match shr_r mrs, shr_s mrs with
    | false, false => rem = 0
    | false, true => 0 < 2 * rem < 2 ^ k
    | true, false => 2 * rem = 2 ^ k
    | true, true => 2 ^ k < 2 * rem
    end.

End Py.

(* ===================================================================== *)
(** * The block store: proxy/indexer/solana_blocks_db.py *)
(* ===================================================================== *)

Module BlocksDB.
Import Py.

Notation "'let*' x ':=' e 'in' k" := (bind e (fun x => k))
  (at level 10, x name, e at level 100, k at level 200, only parsing).

(** A row of table [solana_blocks], in the order of [column_list]. *)
Record block_row : Type := {
  block_slot : Z;
  block_hash : option pystr;
  block_time : option Z;
  parent_block_slot : option Z;
  is_finalized : bool;
  is_active : bool
}.

Definition table : Type := list block_row.

(** [SolBlockInfo]: the constructor's omitted arguments stay unset. *)
Record SolBlockInfo : Type := {
  bi_block_slot : Z;
  bi_block_hash : option pystr;
  bi_block_time : option Z;
  bi_parent_block_slot : option Z;
  bi_is_finalized : bool;
  bi_parent_block_hash : option pystr
}.

Definition _one_block_sec : spec_float := float_0_4.

Definition _generate_fake_block_hash (slot : Z) : pystr :=
  if slot <? 0 then lit "0x" ++ times "0" 64
  else
    let hex_num := drop 2 (hex slot) in
    let num_len := Z.of_nat (length hex_num) in
    let hex_num :=
      lit "00" ++
      rjust hex_num (Z.shiftl (Z.shiftr num_len 1 + num_len mod 2) 1) "0" in
    lit "0x" ++ rjust hex_num 64 "f".

(** [block_hash or ...]: an unset or empty hash is replaced. *)
Definition _check_block_hash (slot : Z) (hash : option pystr) : pystr :=
  match hash with
  | Some (c :: h) => c :: h
  | _ => _generate_fake_block_hash slot
  end.

(** [math.ceil(n * self._one_block_sec)] *)
Definition ceil_slots (n : Z) : result Z :=
  let* x := int_mul_float n _one_block_sec in ceil x.

(** A row of the nearest-block query:
    [(b_block_slot, b_block_time, n_block_slot, n_block_time)]. *)
Definition nearest_row : Type := (option Z * option Z * option Z * option Z)%type.

(** First branch of the query: the rows with the greatest slot [<= slot]
    ([ORDER BY block_slot DESC LIMIT 1] returns one of them). *)
Definition rows_before (t : table) (slot : Z) : list nearest_row :=
  map (fun r => (Some (block_slot r), block_time r, None, None))
    (List.filter
       (fun r => (block_slot r <=? slot) &&
                 forallb (fun r' => negb (block_slot r' <=? slot) ||
                                    (block_slot r' <=? block_slot r)) t)
       t).

(** Second branch: the rows with the least slot [>= slot]. *)
Definition rows_after (t : table) (slot : Z) : list nearest_row :=
  map (fun r => (None, None, Some (block_slot r), block_time r))
    (List.filter
       (fun r => (slot <=? block_slot r) &&
                 forallb (fun r' => negb (slot <=? block_slot r') ||
                                    (block_slot r <=? block_slot r')) t)
       t).

(** The rows the union query can deliver.  SQL fixes no order on them. *)
Definition nearest_rows (t : table) (slot : Z) : list nearest_row :=
  rows_before t slot ++ rows_after t slot.

(** [cursor.fetchone()] hands out one row of the result, or [None] when the
    result is empty. *)
Definition fetchone_of (rows : list nearest_row) (v : option nearest_row) : Prop :=
  match v with
  | None => rows = []
  | Some r => In r rows
  end.

Section Store.

(** [self._config.genesis_timestamp] *)
Variable genesis_timestamp : Z.

(** The row order of the database cursor. *)
Variable fetchone : list nearest_row -> option nearest_row.

(** [BaseDB._insert_batch] lives outside this file. *)
Variable _insert_batch : table -> list block_row -> table.

Definition _generate_fake_block_time (t : table) (slot : Z) : result Z :=
  match fetchone (nearest_rows t slot) with
  | None =>
      let* c := ceil_slots slot in Ok (c + genesis_timestamp)
  | Some (b_slot, b_time, n_slot, n_time) =>
      match b_slot with
      | Some nearest_block_slot =>
          let* c := ceil_slots (slot - nearest_block_slot) in
          match b_time with
          | Some nearest_block_time => Ok (nearest_block_time + c)
          | None => Raise TypeError
          end
      | None =>
          match n_slot with
          | None => Raise TypeError
          | Some nearest_block_slot =>
              let* c := ceil_slots (nearest_block_slot - slot) in
              match n_time with
              | Some nearest_block_time => Ok (nearest_block_time - c)
              | None => Raise TypeError
              end
          end
      end
  end.

(** [block_time or ...]: an unset or zero time is replaced. *)
Definition _check_block_time (t : table) (slot : Z) (time : option Z) : result Z :=
  match time with
  | Some 0 | None => _generate_fake_block_time t slot
  | Some v => Ok v
  end.

Definition _get_fake_block_slot (hash_number : pystr) : result (option Z) :=
  let hash_number := lstrip "f" (drop 2 hash_number) in
  if (12 <? Z.of_nat (length hash_number)) ||
     negb (bool_decide (take 2 hash_number = lit "00"))
  then Ok None
  else
    let hex_number := lstrip "0" hash_number in
    match hex_number with
    | [] => Ok (Some 0)
    | _ :: _ => let* v := int16 hex_number in Ok (Some v)
    end.

(** A fetched row of the block queries: the six columns and the joined
    [parent_block_hash]. *)
Record block_value : Type := {
  v_block_slot : option Z;
  v_block_hash : option pystr;
  v_block_time : option Z;
  v_parent_block_slot : option Z;
  v_is_finalized : bool;
  v_is_active : bool;
  v_parent_block_hash : option pystr
}.

Definition _block_from_value (t : table) (slot : option Z)
    (value_list : option block_value) : result SolBlockInfo :=
  match value_list with
  | None =>
      match slot with
      | None =>
          Ok {| bi_block_slot := 0; bi_block_hash := None; bi_block_time := None;
                bi_parent_block_slot := None; bi_is_finalized := false;
                bi_parent_block_hash := None |}
      | Some s =>
          let hash := _generate_fake_block_hash s in
          let* time := _generate_fake_block_time t s in
          Ok {| bi_block_slot := s; bi_block_hash := Some hash;
                bi_block_time := Some time;
                bi_parent_block_slot := None; bi_is_finalized := false;
                bi_parent_block_hash := Some (_generate_fake_block_hash (s - 1)) |}
      end
  | Some v =>
      match (match slot with Some s => Some s | None => v_block_slot v end) with
      | None => Raise TypeError
      | Some s =>
          let hash := _check_block_hash s (v_block_hash v) in
          let* time := _check_block_time t s (v_block_time v) in
          Ok {| bi_block_slot := s; bi_block_hash := Some hash;
                bi_block_time := Some time;
                bi_parent_block_slot := None;
                bi_is_finalized := v_is_finalized v;
                bi_parent_block_hash :=
                  Some (_check_block_hash (s - 1) (v_parent_block_hash v)) |}
      end
  end.

(** [UPDATE ... SET ... WHERE p] and [DELETE ... WHERE p]. *)
Definition sql_update (p : block_row -> bool) (f : block_row -> block_row)
    (t : table) : table :=
  map (fun r => if p r then f r else r) t.

Definition sql_delete (p : block_row -> bool) (t : table) : table :=
  List.filter (fun r => negb (p r)) t.

(** [block_slot IN (...)] *)
Definition slot_in (slots : list Z) (r : block_row) : bool :=
  existsb (Z.eqb (block_slot r)) slots.

Definition set_block_list (t : table) (iter_block : list SolBlockInfo) : table :=
  let value_list_list :=
    map (fun block =>
           {| block_slot := bi_block_slot block;
              block_hash := bi_block_hash block;
              block_time := bi_block_time block;
              parent_block_slot := bi_parent_block_slot block;
              is_finalized := bi_is_finalized block;
              is_active := bi_is_finalized block |})
        iter_block in
  _insert_batch t value_list_list.

(** An empty slot list renders as [IN ()], which the database rejects. *)
Definition finalize_block_list (t : table) (base_block_slot : Z)
    (block_slot_list : list Z) : result table :=
  match last block_slot_list with
  | None => Raise DatabaseError
  | Some last_slot =>
      let t1 :=
        sql_update (slot_in block_slot_list)
          (fun r => {| block_slot := block_slot r; block_hash := block_hash r;
                       block_time := block_time r;
                       parent_block_slot := parent_block_slot r;
                       is_finalized := true; is_active := true |}) t in
      Ok (sql_delete
            (fun r => (base_block_slot <? block_slot r) &&
                      (block_slot r <? last_slot) &&
                      negb (is_active r)) t1)
  end.

Definition activate_block_list (t : table) (base_block_slot : Z)
    (block_slot_list : list Z) : result table :=
  let t1 :=
    sql_update (fun r => base_block_slot <? block_slot r)
      (fun r => {| block_slot := block_slot r; block_hash := block_hash r;
                   block_time := block_time r;
                   parent_block_slot := parent_block_slot r;
                   is_finalized := is_finalized r; is_active := false |}) t in
  match block_slot_list with
  | [] => Raise DatabaseError
  | _ :: _ =>
      Ok (sql_update (slot_in block_slot_list)
            (fun r => {| block_slot := block_slot r; block_hash := block_hash r;
                         block_time := block_time r;
                         parent_block_slot := parent_block_slot r;
                         is_finalized := is_finalized r; is_active := true |}) t1)
  end.

(** ** Sequences of mutations *)

(** The mutations of the block store. *)
Inductive mutation : Type :=
| SetBlockList (iter_block : list SolBlockInfo)
| FinalizeBlockList (base : Z) (slots : list Z)
| ActivateBlockList (base : Z) (slots : list Z).

(** The invariant [is_finalized => is_active]. *)
Definition finalized_active (t : table) : Prop :=
  forall r, In r t -> is_finalized r = true -> is_active r = true.

(** [activate_block_list] keeps the invariant exactly when every finalized
    row above the base is among the activated slots. *)
Definition keeps_finalized (t : table) (m : mutation) : Prop :=
  match m with
  | ActivateBlockList base slots =>
      forall r, In r t -> is_finalized r = true -> base < block_slot r ->
                In (block_slot r) slots
  | _ => True
  end.

Definition apply_mutation (t : table) (m : mutation) : result table :=
  match m with
  | SetBlockList iter_block => Ok (set_block_list t iter_block)
  | FinalizeBlockList base slots => finalize_block_list t base slots
  | ActivateBlockList base slots => activate_block_list t base slots
  end.

(** A sequence of mutations, each returning normally and each keeping the
    finalized rows active. *)
Inductive mutates : table -> list mutation -> table -> Prop :=
| mutates_nil t : mutates t [] t
| mutates_cons t m t1 ms t2 :
    keeps_finalized t m ->
    apply_mutation t m = Ok t1 ->
    mutates t1 ms t2 ->
    mutates t (m :: ms) t2.

End Store.

(** ** Notions used to state facts about the store *)

(** The synthetic pattern: a run of ['f'], the sentinel ["00"], and a
    remainder such that at most 12 characters follow the run. *)
Definition synthetic_pattern (h : pystr) : Prop :=
  exists (k : nat) (rest : pystr),
    drop 2 h = replicate k "f"%char ++ lit "00" ++ rest /\
    (length (lit "00" ++ rest) <= 12)%nat.

Definition zero_hash : pystr := lit "0x" ++ replicate 64 "0"%char.

(** The nearest stored neighbours of a slot. *)
Definition lower_neighbour (t : table) (s : Z) (r : block_row) : Prop :=
  In r t /\ block_slot r <= s /\
  forall r', In r' t -> block_slot r' <= s -> block_slot r' <= block_slot r.

Definition upper_neighbour (t : table) (s : Z) (r : block_row) : Prop :=
  In r t /\ s <= block_slot r /\
  forall r', In r' t -> s <= block_slot r' -> block_slot r <= block_slot r'.

(** [ceil(d * 0.4)] in exact arithmetic: the least integer at or above
    [2 * d / 5]. *)
Definition ceil_two_fifths (d : Z) : Z := (2 * d + 4) / 5.

(** Greatest element of a slot list, for the statement about [max(S)]. *)
Definition max_slot (slots : list Z) : option Z :=
  match slots with
  | [] => None
  | x :: rest => Some (fold_left Z.max rest x)
  end.

(** Sample rows and blocks. *)
Definition stored (slot time : Z) : block_row :=
  {| block_slot := slot; block_hash := None; block_time := Some time;
     parent_block_slot := None; is_finalized := true; is_active := true |}.

Definition orphan (slot : Z) : block_row :=
  {| block_slot := slot; block_hash := None; block_time := None;
     parent_block_slot := None; is_finalized := false; is_active := false |}.

Definition append_batch (t : table) (rows : list block_row) : table := t ++ rows.

Definition new_block (slot : Z) (finalized : bool) : SolBlockInfo :=
  {| bi_block_slot := slot; bi_block_hash := None; bi_block_time := None;
     bi_parent_block_slot := None; bi_is_finalized := finalized;
     bi_parent_block_hash := None |}.

End BlocksDB.

(* ===================================================================== *)
(** * The mempool transaction cache: proxy/mempool/mempool_neon_tx_dict.py *)
(* ===================================================================== *)

Module TxDict.

Section Cache.

(** [NeonTx] is opaque to the cache. *)
Context {NeonTx : Type}.

(** [EthereumError(str(exc))], kept as its message. *)
Definition EthereumError : Type := string.

Record _Item : Type := {
  last_time : Z;
  neon_sig : string;
  neon_tx : NeonTx;
  error : option EthereumError
}.

Record MPTxDict : Type := {
  _neon_tx_dict : gmap string _Item;
  _neon_tx_queue : list _Item
}.

Definition _life_time : Z := 15.

(** [MPTxDict()] *)
Definition init : MPTxDict :=
  {| _neon_tx_dict := ∅; _neon_tx_queue := [] |}.

(** [add]; [now] is the reading [_get_time()] returned, [exc] the text of the
    exception when there is one. *)
Definition add (now : Z) (sig : string) (tx : NeonTx) (exc : option string)
    (d : MPTxDict) : MPTxDict :=
  let item := {| last_time := now; neon_sig := sig; neon_tx := tx; error := exc |} in
  {| _neon_tx_queue := _neon_tx_queue d ++ [item];
     _neon_tx_dict := <[sig := item]> (_neon_tx_dict d) |}.

(** What [get] returns: the transaction, or the error recorded with it. *)
Inductive found : Type :=
| FoundTx (tx : NeonTx)
| FoundError (e : EthereumError).

Definition get (sig : string) (d : MPTxDict) : option found :=
  match _neon_tx_dict d !! sig with
  | None => None
  | Some item =>
      match error item with
      | Some e => Some (FoundError e)
      | None => Some (FoundTx (neon_tx item))
      end
  end.

(** The [while] loop of [clear]. *)
Fixpoint clear_loop (limit : Z) (queue : list _Item) (dict : gmap string _Item)
  : list _Item * gmap string _Item :=
  match queue with
  | [] => ([], dict)
  | item :: rest =>
      if last_time item <? limit
      then clear_loop limit rest (delete (neon_sig item) dict)
      else (queue, dict)
  end.

Definition clear (now : Z) (d : MPTxDict) : MPTxDict :=
  match _neon_tx_queue d with
  | [] => d
  | _ :: _ =>
      let limit := Z.max (now - _life_time) 0 in
      let '(queue, dict) := clear_loop limit (_neon_tx_queue d) (_neon_tx_dict d) in
      {| _neon_tx_dict := dict; _neon_tx_queue := queue |}
  end.

(** A call of the cache, with the clock reading it saw. *)
Inductive op : Type :=
| Add (now : Z) (sig : string) (tx : NeonTx) (exc : option string)
| Clear (now : Z).

Definition step (d : MPTxDict) (o : op) : MPTxDict :=
  match o with
  | Add now sig tx exc => add now sig tx exc d
  | Clear now => clear now d
  end.

Definition run (ops : list op) (d : MPTxDict) : MPTxDict :=
  fold_left step ops d.

Definition op_time (o : op) : Z :=
  match o with
  | Add now _ _ _ => now
  | Clear now => now
  end.

(** The items a [get] can reach, and the items awaiting expiry. *)
Definition in_dict (d : MPTxDict) (i : _Item) : Prop :=
  ∃ k, _neon_tx_dict d !! k = Some i.

Definition in_queue (d : MPTxDict) (i : _Item) : Prop :=
  In i (_neon_tx_queue d).

(** The answer [get] gives for an item. *)
Definition answer (i : _Item) : found :=
  match error i with
  | Some e => FoundError e
  | None => FoundTx (neon_tx i)
  end.


(** Clock readings that never go back, starting at [from]. *)
Fixpoint ordered_from (from : Z) (ops : list op) : Prop :=
  match ops with
  | [] => True
  | o :: ops' => from <= op_time o /\ ordered_from (op_time o) ops'
  end.

(** A run in which no [add] repeats a signature that is still queued. *)
Fixpoint fresh_adds (ops : list op) (d : MPTxDict) : Prop :=
  match ops with
  | [] => True
  | o :: ops' =>
      match o with
      | Add _ sig _ _ => ¬ In sig (map neon_sig (_neon_tx_queue d))
      | Clear _ => True
      end ∧ fresh_adds ops' (step d o)
  end.

(** ** Invariants of the cache *)

(** Every item the map reaches is queued, under its own signature. *)
Definition map_within_queue (d : MPTxDict) : Prop :=
  forall k i, _neon_tx_dict d !! k = Some i ->
              In i (_neon_tx_queue d) /\ neon_sig i = k.

(** Queued signatures are distinct and the map reaches every queued item. *)
Definition queue_within_map (d : MPTxDict) : Prop :=
  NoDup (map neon_sig (_neon_tx_queue d)) /\
  forall i, In i (_neon_tx_queue d) -> _neon_tx_dict d !! neon_sig i = Some i.


(** Items are queued in the order of their clock readings, all of them at
    most [b]. *)
Definition sorted_until (b : Z) (d : MPTxDict) : Prop :=
  StronglySorted (fun i j => last_time i <= last_time j) (_neon_tx_queue d) /\
  Forall (fun i => last_time i <= b) (_neon_tx_queue d).

End Cache.

Arguments _Item : clear implicits.
Arguments MPTxDict : clear implicits.
Arguments op : clear implicits.
Arguments found : clear implicits.

End TxDict.

(* ===================================================================== *)
(** * The mempool service entry point: proxy/mempool/mempool_service.py *)
(* ===================================================================== *)

Module Service.

Inductive MPRequestType : Type :=
| SendTransaction | GetLastTxNonce | GetTxByHash | GetGasPrice | OtherType.

Inductive MaintenanceCommand : Type :=
| SuspendMemPool | ResumeMemPool | ReplicateRequests | ReplicateTxsBunch
| OtherCommand.

(** The class of a received object, as the [issubclass] tests see it. *)
Inductive request_class : Type :=
| IsMPRequest
| IsMaintenanceRequest
| IsOther.

(** A received object.  An attribute the object does not have is [None]:
    reading it raises [AttributeError]. *)
Record request : Type := {
  class_of : request_class;
  req_id : option string;
  type_ : option MPRequestType;
  command : option MaintenanceCommand;
  class_name : string
}.

(** Modelled from the spec: the declarations of [MPRequest]
    ([mempool_api]) and [MaintenanceRequest] ([neon_py.maintenance_api]) are
    not part of the sources.  A service request carries a [req_id] and its
    variant [type]; a maintenance request carries a [req_id] and its
    [command]. *)
Definition MPRequest (id : string) (ty : MPRequestType) : request :=
  {| class_of := IsMPRequest; req_id := Some id; type_ := Some ty;
     command := None; class_name := "MPRequest" |}.

Definition MaintenanceRequest (id : string) (c : MaintenanceCommand) : request :=
  {| class_of := IsMaintenanceRequest; req_id := Some id; type_ := None;
     command := Some c; class_name := "MaintenanceRequest" |}.

(** What was raised: an [Exception], or a [BaseException] outside that class
    (a cancelled task, an interrupt). *)
Record raised : Type := {
  is_Exception : bool;
  err_text : string;
  err_traceback : string
}.

Definition AttributeError (text : string) : raised :=
  {| is_Exception := true; err_text := text; err_traceback := "" |}.

Section OnDataReceived.

(** Values the mempool hands back, besides [Result] and [None]. *)
Context {V : Type}.

Inductive value : Type :=
| Result (status : string)
| NoneValue
| Other (v : V).

Inductive outcome : Type :=
| Return (v : value)
| Raise (e : raised).

(** One call of [self.error]; [log_req_id] is the logging context. *)
Record log_entry : Type := {
  log_req_id : option string;
  log_text : string
}.

(** [self._mempool] and [self._replicator] *)
Variable schedule_mp_tx_request : request -> outcome.
Variable get_pending_tx_nonce : request -> outcome.
Variable get_pending_tx_by_hash : request -> outcome.
Variable get_gas_price : outcome.
Variable suspend_processing : outcome.
Variable resume_processing : outcome.
Variable replicate : request -> outcome.
Variable on_mp_tx_bunch : request -> outcome.

(** Texts of the values interpolated into log lines. *)
Variable str_type : MPRequestType -> string.
Variable str_command : MaintenanceCommand -> string.

Definition no_attribute (rq : request) (name : string) : raised :=
  AttributeError
    ("'" ++ class_name rq ++ "' object has no attribute '" ++ name ++ "'").

Definition process_mp_request (rq : request) : list log_entry * outcome :=
  match type_ rq with
  | None => ([], Raise (no_attribute rq "type"))
  | Some SendTransaction => ([], schedule_mp_tx_request rq)
  | Some GetLastTxNonce => ([], get_pending_tx_nonce rq)
  | Some GetTxByHash => ([], get_pending_tx_by_hash rq)
  | Some GetGasPrice => ([], get_gas_price)
  | Some ty =>
      ([{| log_req_id := None;
           log_text := "Failed to process mp_request, unknown type: " ++ str_type ty |}],
       Return NoneValue)
  end.

Definition process_maintenance_request (rq : request) : list log_entry * outcome :=
  match command rq with
  | None => ([], Raise (no_attribute rq "command"))
  | Some SuspendMemPool => ([], suspend_processing)
  | Some ResumeMemPool => ([], resume_processing)
  | Some ReplicateRequests => ([], replicate rq)
  | Some ReplicateTxsBunch => ([], on_mp_tx_bunch rq)
  | Some c =>
      ([{| log_req_id := None;
           log_text := "Failed to process maintenance mp_reqeust, unknown command: "
                       ++ str_command c |}],
       Return NoneValue)
  end.

(** [_on_exception]: one error line. *)
Definition _on_exception (ctx : option string) (text : string) (err : raised)
  : list log_entry :=
  [{| log_req_id := ctx;
      log_text := text ++ ". Error: " ++ err_text err ++ ". Traceback: "
                  ++ err_traceback err |}].

(** The [except Exception] clause. *)
Definition on_exception_clause (rq : request) (err : raised)
  : list log_entry * outcome :=
  match req_id rq with
  | None => ([], Raise (no_attribute rq "req_id"))
  | Some id =>
      match command rq with
      | None => ([], Raise (no_attribute rq "command"))
      | Some c =>
          (_on_exception (Some id)
             ("Failed to process maintenance request: " ++ str_command c) err,
           Return (Result "Request failed"))
      end
  end.

Definition on_data_received (rq : request) : list log_entry * outcome :=
  let '(log, out) :=
    match class_of rq with
    | IsMPRequest => process_mp_request rq
    | IsMaintenanceRequest => process_maintenance_request rq
    | IsOther =>
        ([{| log_req_id := None;
             log_text := "Failed to process mp_request, unknown type: "
                         ++ class_name rq |}],
         Return (Result "Unexpected problem"))
    end in
  match out with
  | Return v => (log, Return v)
  | Raise err =>
      if is_Exception err then
        let '(log', out') := on_exception_clause rq err in (log ++ log', out')
      else (log, Raise err)
  end.

End OnDataReceived.

Arguments value : clear implicits.
Arguments outcome : clear implicits.

(** Sample outcomes of the mempool: a raised [Exception], and [None]. *)
Definition failing (text : string) : outcome unit :=
  Raise {| is_Exception := true; err_text := text; err_traceback := "" |}.

Definition idle : outcome unit := Return NoneValue.

(** A cancelled task: raised outside [Exception]. *)
Definition cancelled : outcome unit :=
  Raise {| is_Exception := false; err_text := "CancelledError";
           err_traceback := "" |}.

End Service.

(* ===================================================================== *)
(** * The JSON-RPC front: proxy/plugin/solana_rest_api.py *)
(* ===================================================================== *)

Module RestApi.
Import Py.

(** JSON values, as [json.loads] builds them; objects keep insertion order. *)
#[warnings="-register-all"]
Inductive json : Type :=
| JNull
| JBool (b : bool)
| JInt (n : Z)
| JStr (s : pystr)
| JList (l : list json)
| JObj (fields : list (pystr * json)).

Definition dict : Type := list (pystr * json).

(** [d.get(key)] *)
Fixpoint dict_get (key : pystr) (d : dict) : option json :=
  match d with
  | [] => None
  | (k, v) :: d' => if bool_decide (k = key) then Some v else dict_get key d'
  end.

(** [d[key] = v] *)
Fixpoint dict_set (key : pystr) (v : json) (d : dict) : dict :=
  match d with
  | [] => [(key, v)]
  | (k, v') :: d' =>
      if bool_decide (k = key) then (k, v) :: d' else (k, v') :: dict_set key v d'
  end.

(** What a handler raises, as the [except] clauses of [process_request]
    tell it apart. *)
Inductive raised : Type :=
| SolanaTrxError (result : json)
| EthereumError (error : json)
| Exception (name : pystr) (text : pystr)
| NotAnException (name : pystr).

Inductive outcome (A : Type) : Type :=
| Return (a : A)
| Throw (e : raised).
Arguments Return {A} a.
Arguments Throw {A} e.

Definition obind {A B} (r : outcome A) (k : A -> outcome B) : outcome B :=
  match r with
  | Return a => k a
  | Throw e => Throw e
  end.

Notation "'do*' x ':=' e 'in' k" := (obind e (fun x => k))
  (at level 10, x name, e at level 100, k at level 200, only parsing).

(** Records handed out by [IndexerDB]. *)
Record block_info : Type := {
  signatures : list pystr;
  blockhash : pystr;
  previousBlockhash : pystr;
  blockTime : Z
}.

Record eth_trx_sig : Type := {
  idx : Z;
  eth : pystr
}.

(** An attribute of the model object: a bound method, or plain data. *)
Inductive attr : Type :=
| Method (f : list json -> outcome json)
| Data (type_name : pystr).

Definition option_json (o : option dict) : json :=
  match o with
  | Some d => JObj d
  | None => JNull
  end.

(** [type(v).__name__] of a decoded JSON value. *)
Definition type_name (v : json) : pystr :=
  match v with
  | JNull => lit "NoneType"
  | JBool _ => lit "bool"
  | JInt _ => lit "int"
  | JStr _ => lit "str"
  | JList _ => lit "list"
  | JObj _ => lit "dict"
  end.

(** Truth value of a JSON value in an [if]. *)
Definition truthy (v : json) : bool :=
  match v with
  | JNull => false
  | JBool b => b
  | JInt n => negb (n =? 0)
  | JStr s => negb (bool_decide (s = []))
  | JList l => negb (bool_decide (length l = 0%nat))
  | JObj d => negb (bool_decide (length d = 0%nat))
  end.

Section Model.

(** [self.db] *)
Variable db_get_last_block_height : outcome Z.
Variable db_get_block_info : Z -> outcome (option block_info).
Variable db_get_eth_trx_sig_by_signature : pystr -> outcome (option eth_trx_sig).
Variable db_get_slot_by_hash : pystr -> outcome (option Z).
Variable db_get_slot_by_number : Z -> outcome (option Z).

(** Sibling methods that reach out to the ledger and to RLP decoding. *)
Variable eth_getTransactionReceipt : pystr -> outcome (option dict).
Variable eth_getTransactionByHash : pystr -> outcome (option dict).

(** [base58.b58decode(s).hex()] and [s.lower()] *)
Variable b58decode_hex : pystr -> outcome pystr.
Variable lower : pystr -> pystr.

(** Message texts composed by the interpreter. *)
Variable exn_name : exn -> pystr.
Variable exn_text : exn -> pystr.
Variable str_of_json : json -> pystr.

(** [getBlockBySlot] called with a slot that is not a JSON integer: the
    value goes to the index as it is, and what comes of it is left open. *)
Variable getBlockBySlot_other : json -> json -> outcome json.

(** The attributes of the model object that are not modelled below. *)
Variable other_attr : pystr -> option attr.

Definition of_result {A} (r : result A) : outcome A :=
  match r with
  | Ok a => Return a
  | Raise e => Throw (Exception (exn_name e) (exn_text e))
  end.

Definition process_block_tag (tag : json) : outcome Z :=
  match tag with
  | JStr s =>
      if bool_decide (s = lit "latest") then db_get_last_block_height
      else if bool_decide (s = lit "earliest") || bool_decide (s = lit "pending")
      then Throw (Exception (lit "Exception") (lit "Invalid tag " ++ s))
      else of_result (int16 s)
  | JInt n => Return n
  | JBool b => Return (if b then 1 else 0)
  | _ =>
      Throw (Exception (lit "Exception")
               (lit "Failed to parse block tag: " ++ str_of_json tag))
  end.

(** One round of the loop over [block_info['signatures']]; the state is
    [(transactions, gasUsed, trx_index)]. *)
Definition getBlockBySlot_round (full : bool) (st : list json * Z * Z)
    (signature : pystr) : outcome (list json * Z * Z) :=
  let '(transactions, gasUsed, trx_index) := st in
  do* eth_trx := db_get_eth_trx_sig_by_signature signature in
  match eth_trx with
  | None => Return st
  | Some eth_trx =>
      if idx eth_trx =? 0 then
        do* trx_receipt := eth_getTransactionReceipt (eth eth_trx) in
        do* gasUsed :=
          match trx_receipt with
          | None => Return gasUsed
          | Some receipt =>
              match dict_get (lit "gasUsed") receipt with
              | None => Throw (Exception (lit "KeyError") (lit "'gasUsed'"))
              | Some (JStr g) =>
                  do* used := of_result (int16 g) in Return (gasUsed + used)
              | Some _ => of_result (Raise TypeError)
              end
          end in
        if full then
          do* trx := eth_getTransactionByHash (eth eth_trx) in
          match trx with
          | None => Return (transactions, gasUsed, trx_index)
          | Some trx =>
              let trx := dict_set (lit "transactionIndex") (JStr (hex trx_index)) trx in
              Return (transactions ++ [JObj trx], gasUsed, trx_index + 1)
          end
        else Return (transactions ++ [JStr (eth eth_trx)], gasUsed, trx_index)
      else Return st
  end.

Fixpoint getBlockBySlot_loop (full : bool) (st : list json * Z * Z)
    (sigs : list pystr) : outcome (list json * Z * Z) :=
  match sigs with
  | [] => Return st
  | signature :: rest =>
      do* st' := getBlockBySlot_round full st signature in
      getBlockBySlot_loop full st' rest
  end.

Definition getBlockBySlot (slot : Z) (full : bool) : outcome (option dict) :=
  do* block := db_get_block_info slot in
  match block with
  | None => Return None
  | Some block_info =>
      do* st := getBlockBySlot_loop full ([], 0, 0) (signatures block_info) in
      let '(transactions, gasUsed, _) := st in
      do* hash := b58decode_hex (blockhash block_info) in
      do* parentHash := b58decode_hex (previousBlockhash block_info) in
      Return (Some
        [ (lit "gasUsed", JStr (hex gasUsed));
          (lit "hash", JStr (lit "0x" ++ hash));
          (lit "number", JStr (hex slot));
          (lit "parentHash", JStr (lit "0x" ++ parentHash));
          (lit "timestamp", JStr (hex (blockTime block_info)));
          (lit "transactions", JList transactions);
          (lit "logsBloom", JStr (lit "0x" ++ times "0" 512));
          (lit "gasLimit", JStr (lit "0x6691b7")) ])
  end.

Definition eth_getBlockByHash (block_hash : pystr) (full : bool)
  : outcome (option dict) :=
  let block_hash := lower block_hash in
  do* slot := db_get_slot_by_hash block_hash in
  match slot with
  | None => Return None
  | Some slot => getBlockBySlot slot full
  end.

Definition eth_getBlockByNumber (tag : json) (full : bool)
  : outcome (option dict) :=
  do* block_number := process_block_tag tag in
  do* slot := db_get_slot_by_number block_number in
  match slot with
  | None => Return None
  | Some slot => getBlockBySlot slot full
  end.

Definition arity_error : raised :=
  Exception (lit "TypeError") (lit "wrong number of positional arguments").

(** [getattr(self.model, name)]: the methods modelled above, then every
    other attribute of the object.  A call with too few or too many
    arguments is a [TypeError]; the methods themselves check no argument
    type, so a truth value given as block tag comes back as it is (it is an
    [int] to [isinstance]), and a hash that is not text has no [lower]. *)
Definition model_getattr (name : pystr) : option attr :=
  if bool_decide (name = lit "process_block_tag") then
    Some (Method (fun args =>
      match args with
      | [tag] =>
          do* n := process_block_tag tag in
          Return (match tag with JBool b => JBool b | _ => JInt n end)
      | _ => Throw arity_error
      end))
  else if bool_decide (name = lit "getBlockBySlot") then
    Some (Method (fun args =>
      match args with
      | [JInt slot; full] =>
          do* r := getBlockBySlot slot (truthy full) in Return (option_json r)
      | [slot; full] => getBlockBySlot_other slot full
      | _ => Throw arity_error
      end))
  else if bool_decide (name = lit "eth_getBlockByHash") then
    Some (Method (fun args =>
      match args with
      | [JStr h; full] =>
          do* r := eth_getBlockByHash h (truthy full) in Return (option_json r)
      | [h; full] =>
          Throw (Exception (lit "AttributeError")
                   (lit "'" ++ type_name h ++ lit "' object has no attribute 'lower'"))
      | _ => Throw arity_error
      end))
  else if bool_decide (name = lit "eth_getBlockByNumber") then
    Some (Method (fun args =>
      match args with
      | [tag; full] =>
          do* r := eth_getBlockByNumber tag (truthy full) in Return (option_json r)
      | _ => Throw arity_error
      end))
  else other_attr name.

End Model.

(** The positional arguments that the starred [params] unpacks to. *)
Definition unpack (params : json) : outcome (list json) :=
  match params with
  | JList l => Return l
  | JObj d => Return (map (fun kv => JStr (fst kv)) d)
  | JStr s => Return (map (fun c => JStr [c]) s)
  | _ => Throw (Exception (lit "TypeError")
                  (lit "argument after * must be an iterable"))
  end.

Definition attribute_error (name : pystr) : raised :=
  Exception (lit "AttributeError")
    (lit "'EthereumModel' object has no attribute '" ++ name ++ lit "'").

Definition error_envelope (code : Z) (message : pystr) : json :=
  JObj [ (lit "code", JInt code); (lit "message", JStr message) ].

Section Dispatcher.

(** [getattr(self.model, _)] *)
Variable getattr : pystr -> option attr.

(** The body of the [try] block. *)
Definition dispatch (request : dict) : outcome json :=
  match dict_get (lit "method") request with
  | None => Throw (Exception (lit "KeyError") (lit "'method'"))
  | Some (JStr name) =>
      match getattr name with
      | None => Throw (attribute_error name)
      | Some method =>
          let params := default (JList []) (dict_get (lit "params") request) in
          do* args := unpack params in
          match method with
          | Method f => f args
          | Data type_name =>
              Throw (Exception (lit "TypeError")
                       (lit "'" ++ type_name ++ lit "' object is not callable"))
          end
      end
  | Some _ =>
      Throw (Exception (lit "TypeError")
               (lit "getattr(): attribute name must be string"))
  end.

Definition process_request (request : json) : outcome dict :=
  match request with
  | JObj request =>
      let response :=
        [ (lit "jsonrpc", JStr (lit "2.0"));
          (lit "id", default JNull (dict_get (lit "id") request)) ] in
      match dispatch request with
      | Return v => Return (dict_set (lit "result") v response)
      | Throw (SolanaTrxError result) =>
          Return (dict_set (lit "error") result response)
      | Throw (EthereumError error) =>
          Return (dict_set (lit "error") error response)
      | Throw (Exception _ text) =>
          Return (dict_set (lit "error") (error_envelope (-32000) text) response)
      | Throw (NotAnException name) => Throw (NotAnException name)
      end
  | _ =>
      Throw (Exception (lit "AttributeError") (lit "object has no attribute 'get'"))
  end.

End Dispatcher.

(** ** Notions used to state facts about the front *)

(** [n] zero bytes, written as hexadecimal text. *)
Definition zero_bytes_hex (n : nat) : pystr := lit "0x" ++ times "0" (2 * n).

(** The fields of a block object. *)
Definition block_shape (ret : dict) : Prop :=
  dict_get (lit "gasLimit") ret = Some (JStr (lit "0x6691b7")) /\
  dict_get (lit "logsBloom") ret = Some (JStr (zero_bytes_hex 256)) /\
  (exists s, dict_get (lit "hash") ret = Some (JStr s)) /\
  (exists s, dict_get (lit "number") ret = Some (JStr s)) /\
  (exists s, dict_get (lit "parentHash") ret = Some (JStr s)) /\
  (exists s, dict_get (lit "timestamp") ret = Some (JStr s)) /\
  (exists l, dict_get (lit "transactions") ret = Some (JList l)) /\
  (exists s, dict_get (lit "gasUsed") ret = Some (JStr s)).

(** The response that wraps what the looked-up method did. *)
Definition respond (request : dict) (r : outcome json) : outcome dict :=
  let head :=
    [ (lit "jsonrpc", JStr (lit "2.0"));
      (lit "id", default JNull (dict_get (lit "id") request)) ] in
  match r with
  | Return v => Return (head ++ [(lit "result", v)])
  | Throw (SolanaTrxError result) => Return (head ++ [(lit "error", result)])
  | Throw (EthereumError error) => Return (head ++ [(lit "error", error)])
  | Throw (Exception _ text) =>
      Return (head ++ [(lit "error", error_envelope (-32000) text)])
  | Throw (NotAnException name) => Throw (NotAnException name)
  end.

(** A one-block ledger for the examples. *)
Definition sample_block : block_info :=
  {| signatures := [lit "sig1"; lit "sig2"];
     blockhash := lit "abc"; previousBlockhash := lit "abb"; blockTime := 1600 |}.

Definition sample_block_info (slot : Z) : outcome (option block_info) :=
  Return (if slot =? 7 then Some sample_block else None).

Definition sample_trx_sig (signature : pystr) : outcome (option eth_trx_sig) :=
  Return (if bool_decide (signature = lit "sig1")
          then Some {| idx := 0; eth := lit "0xe1" |} else None).

Definition sample_receipt (h : pystr) : outcome (option dict) :=
  Return (Some [(lit "gasUsed", JStr (lit "0x5208"))]).

Definition sample_trx (h : pystr) : outcome (option dict) :=
  Return (Some [(lit "hash", JStr h)]).

Definition sample_by_slot : Z -> bool -> outcome (option dict) :=
  getBlockBySlot sample_block_info sample_trx_sig sample_receipt sample_trx
    (fun s => Return s) (fun _ => lit "Error") (fun _ => lit "error").

Definition sample_ret : dict :=
  [ (lit "gasUsed", JStr (lit "0x5208"));
    (lit "hash", JStr (lit "0xabc"));
    (lit "number", JStr (lit "0x7"));
    (lit "parentHash", JStr (lit "0xabb"));
    (lit "timestamp", JStr (lit "0x640"));
    (lit "transactions", JList [JStr (lit "0xe1")]);
    (lit "logsBloom", JStr (lit "0x" ++ times "0" 512));
    (lit "gasLimit", JStr (lit "0x6691b7")) ].

(** The model object of the examples: the modelled methods, and no other
    attribute. *)
Definition sample_getattr : pystr -> option attr :=
  model_getattr (Return 100) sample_block_info sample_trx_sig
    (fun _ => Return (Some 7)) (fun _ => Return (Some 7))
    sample_receipt sample_trx (fun s => Return s) (fun s => s)
    (fun _ => lit "ValueError") (fun _ => lit "invalid literal")
    (fun _ => []) (fun _ _ => Return JNull) (fun _ => None).

Definition helper_request : dict :=
  [ (lit "id", JInt 1);
    (lit "method", JStr (lit "process_block_tag"));
    (lit "params", JList [JStr (lit "0x10")]) ].

Definition unknown_request : dict :=
  [ (lit "id", JInt 2); (lit "method", JStr (lit "eth_mining")) ].

End RestApi.

(* ===================================================================== *)
(** * The block store: the block queries *)
(* ===================================================================== *)

Module BlockQueries.
Import Py BlocksDB.

(** Text made of base-16 digits of either case. *)
Definition hex_text (s : pystr) : Prop := Forall (fun c => is_digit16 c = true) s.

(** [cursor.fetchone()] on a result set: one of its rows, or [None] when
    there is none. *)
Definition delivers {A : Type} (rows : list A) (v : option A) : Prop :=
  match v with
  | None => rows = []
  | Some r => In r rows
  end.

(** The active rows stored at a slot. *)
Definition active_at (t : table) (slot : Z) : list block_row :=
  List.filter (fun r => (block_slot r =? slot) && is_active r) t.

(** A result row built from a block row [a] and the hash joined to it. *)
Definition joined (a : block_row) (parent_hash : option pystr) : block_value :=
  {| v_block_slot := Some (block_slot a); v_block_hash := block_hash a;
     v_block_time := block_time a; v_parent_block_slot := parent_block_slot a;
     v_is_finalized := is_finalized a; v_is_active := is_active a;
     v_parent_block_hash := parent_hash |}.

(** A result row of the second branch when no block row joins: its block
    columns are NULL.  The two flags are kept by their truth value, which is
    false for NULL. *)
Definition parent_only (parent_hash : option pystr) : block_value :=
  {| v_block_slot := None; v_block_hash := None; v_block_time := None;
     v_parent_block_slot := None; v_is_finalized := false; v_is_active := false;
     v_parent_block_hash := parent_hash |}.

(** The rows the union query of [get_block_by_slot] can deliver: the active
    rows at [slot] left-joined with the active rows at [slot - 1], and the
    active rows at [slot - 1] left-joined with the active rows at [slot]. *)
Definition block_rows (t : table) (slot : Z) : list block_value :=
  let rows_a := active_at t slot in
  let rows_b := active_at t (slot - 1) in
  flat_map (fun a =>
              match rows_b with
              | [] => [joined a None]
              | _ :: _ => map (fun b => joined a (block_hash b)) rows_b
              end) rows_a ++
  flat_map (fun b =>
              match rows_a with
              | [] => [parent_only (block_hash b)]
              | _ :: _ => map (fun a => joined a (block_hash b)) rows_a
              end) rows_b.

(** A hash is that of an active row stored at the slot. *)
Definition stored_hash (t : table) (slot : Z) (h : pystr) : Prop :=
  exists r, In r t /\ block_slot r = slot /\ is_active r = true /\
            block_hash r = Some h.

(** [SolBlockInfo(block_slot=slot)] *)
Definition stub (slot : Z) : SolBlockInfo :=
  {| bi_block_slot := slot; bi_block_hash := None; bi_block_time := None;
     bi_parent_block_slot := None; bi_is_finalized := false;
     bi_parent_block_hash := None |}.

(** Modelled from the spec: [SolBlockInfo.set_block_hash] is declared
    outside the sources; the requested hash replaces the block's hash. *)
Definition set_block_hash (block : SolBlockInfo) (hash : pystr) : SolBlockInfo :=
  {| bi_block_slot := bi_block_slot block; bi_block_hash := Some hash;
     bi_block_time := bi_block_time block;
     bi_parent_block_slot := bi_parent_block_slot block;
     bi_is_finalized := bi_is_finalized block;
     bi_parent_block_hash := bi_parent_block_hash block |}.

Section Queries.

Variable genesis_timestamp : Z.

(** The row order of the cursor, on the nearest-block query and on the block
    queries. *)
Variable fetchone : list nearest_row -> option nearest_row.
Variable fetch_block : list block_value -> option block_value.

(** The row the query by stored hash delivers; its text names a table
    attribute set outside this class. *)
Variable fetch_by_hash : pystr -> option block_value.

Definition get_block_by_slot (t : table) (slot latest_block_slot : Z)
  : result SolBlockInfo :=
  if latest_block_slot <? slot then Ok (stub slot)
  else
    _block_from_value genesis_timestamp fetchone t (Some slot)
      (fetch_block (block_rows t slot)).

Definition get_block_by_hash (t : table) (hash : pystr) (latest_block_slot : Z)
  : result SolBlockInfo :=
  bind (_get_fake_block_slot hash) (fun fake_block_slot =>
    match fake_block_slot with
    | Some slot =>
        bind (get_block_by_slot t slot latest_block_slot) (fun block =>
          Ok (set_block_hash block hash))
    | None =>
        _block_from_value genesis_timestamp fetchone t None (fetch_by_hash hash)
    end).

End Queries.

(** Sample rows: an active block with a stored hash. *)
Definition hashed (slot : Z) (hash : string) (time : Z) : block_row :=
  {| block_slot := slot; block_hash := Some (lit hash); block_time := Some time;
     parent_block_slot := Some (slot - 1); is_finalized := true;
     is_active := true |}.

(** Two stored blocks, and the block that [get_block_by_slot] builds for the
    later one. *)
Definition sample_table : table :=
  [hashed 11 "0xbb" 1000; hashed 12 "0xcc" 1001].

Definition sample_block_12 : SolBlockInfo :=
  {| bi_block_slot := 12; bi_block_hash := Some (lit "0xcc");
     bi_block_time := Some 1001; bi_parent_block_slot := None;
     bi_is_finalized := true; bi_parent_block_hash := Some (lit "0xbb") |}.

(** An active block stored without a block time. *)
Definition untimed (slot : Z) : block_row :=
  {| block_slot := slot; block_hash := Some (lit "0xab"); block_time := None;
     parent_block_slot := None; is_finalized := false; is_active := true |}.

End BlockQueries.

(* ===================================================================== *)
(** * The JSON-RPC front: more methods and the request handler *)
(* ===================================================================== *)

Module RestFront.
Import Py RestApi.

Section Methods.

Variable db_get_last_block_height : outcome Z.
Variable db_get_eth_trx_sig_by_signature : pystr -> outcome (option eth_trx_sig).

(** The attributes of the model object that are not modelled. *)
Variable rest_attr : pystr -> option attr.

Definition eth_blockNumber : outcome json :=
  do* height := db_get_last_block_height in
  Return (JStr (hex height)).

Definition eth_getCode (param param1 : json) : outcome json :=
  Return (JStr (lit "0x01")).

Definition eth_sendTransaction (trx : json) : outcome json :=
  Throw (Exception (lit "Exception")
           (lit "eth_sendTransaction is not supported. please use eth_sendRawTransaction")).

(** Further attributes of the model object, to go under [model_getattr]. *)
Definition more_attr (name : pystr) : option attr :=
  if bool_decide (name = lit "eth_blockNumber") then
    Some (Method (fun args =>
      match args with
      | [] => eth_blockNumber
      | _ :: _ => Throw arity_error
      end))
  else if bool_decide (name = lit "eth_getCode") then
    Some (Method (fun args =>
      match args with
      | [param; param1] => eth_getCode param param1
      | _ => Throw arity_error
      end))
  else if bool_decide (name = lit "eth_sendTransaction") then
    Some (Method (fun args =>
      match args with
      | [trx] => eth_sendTransaction trx
      | _ => Throw arity_error
      end))
  else rest_attr name.

(** The Ethereum transactions [getBlockBySlot] lists for the signatures of a
    block: those the index maps to a transaction with [idx] 0. *)
Definition selected (sigs : list pystr) : list pystr :=
  flat_map (fun signature =>
              match db_get_eth_trx_sig_by_signature signature with
              | Return (Some eth_trx) =>
                  if idx eth_trx =? 0 then [eth eth_trx] else []
              | _ => []
              end) sigs.

End Methods.

(** Transaction objects numbered by [transactionIndex] in list order. *)
Definition indexed (transactions : list json) : Prop :=
  forall (k : nat) (x : json),
    nth_error transactions k = Some x ->
    exists obj, x = JObj obj /\
                dict_get (lit "transactionIndex") obj = Some (JStr (hex (Z.of_nat k))).

(** What [handle_request] queues to the client. *)
Inductive queued : Type :=
| Preflight
| Body (response : json).

Section Handler.

(** [getattr(self.model, _)] *)
Variable getattr : pystr -> option attr.

(** [request.get('method', '---')] on the HTTP request object itself, which
    the log line reads when the body did not parse. *)
Variable parser_get_method : outcome json.

(** [str(err)] for what [json.loads] raised. *)
Variable str_of_raised : raised -> pystr.

(** The [for] loop over a batch. *)
Fixpoint process_batch (requests : list json) : outcome (list json) :=
  match requests with
  | [] => Return []
  | r :: rest =>
      do* response := process_request getattr r in
      do* responses := process_batch rest in
      Return (JObj response :: responses)
  end.

(** The [try] block of [handle_request]; [loaded] is what
    [json.loads(request.body)] returned or raised. *)
Definition answer_body (loaded : outcome json) : outcome json :=
  do* request := loaded in
  match request with
  | JList [] => Throw (Exception (lit "Exception") (lit "Empty batch request"))
  | JList requests => do* responses := process_batch requests in
                      Return (JList responses)
  | _ => do* response := process_request getattr request in
         Return (JObj response)
  end.

Definition raised_text (e : raised) : pystr :=
  match e with
  | Exception _ text => text
  | _ => str_of_raised e
  end.

Definition handle_request (is_options : bool) (loaded : outcome json)
  : outcome queued :=
  if is_options then Return Preflight
  else
    do* response :=
      match answer_body loaded with
      | Return response => Return response
      | Throw (NotAnException name) => Throw (NotAnException name)
      | Throw err =>
          Return (JObj [ (lit "jsonrpc", JStr (lit "2.0"));
                         (lit "error", error_envelope (-32000) (raised_text err)) ])
      end in
    (* the log line reads [request.get('method', '---')] *)
    do* logged :=
      match loaded with
      | Return (JObj _) => Return JNull
      | Return (JList _) =>
          Throw (Exception (lit "AttributeError")
                   (lit "'list' object has no attribute 'get'"))
      | Return _ =>
          Throw (Exception (lit "AttributeError")
                   (lit "object has no attribute 'get'"))
      | Throw _ => parser_get_method
      end in
    Return (Body response).

End Handler.

(** A model object with the modelled methods and one data attribute,
    [proxy_id], an [int]. *)
Definition sample_object : pystr -> option attr :=
  model_getattr (Return 100) sample_block_info sample_trx_sig
    (fun _ => Return (Some 7)) (fun _ => Return (Some 7))
    sample_receipt sample_trx (fun s => Return s) (fun s => s)
    (fun _ => lit "ValueError") (fun _ => lit "invalid literal")
    (fun _ => []) (fun _ _ => Return JNull)
    (more_attr (Return 100)
       (fun name => if bool_decide (name = lit "proxy_id")
                    then Some (Data (lit "int")) else None)).

(** The sample block of [RestApi], asked for with [full] set. *)
Definition sample_full_ret : dict :=
  [ (lit "gasUsed", JStr (lit "0x5208"));
    (lit "hash", JStr (lit "0xabc"));
    (lit "number", JStr (lit "0x7"));
    (lit "parentHash", JStr (lit "0xabb"));
    (lit "timestamp", JStr (lit "0x640"));
    (lit "transactions",
     JList [JObj [ (lit "hash", JStr (lit "0xe1"));
                   (lit "transactionIndex", JStr (lit "0x0")) ]]);
    (lit "logsBloom", JStr (lit "0x" ++ times "0" 512));
    (lit "gasLimit", JStr (lit "0x6691b7")) ].

End RestFront.

(* ===================================================================== *)
(** * Facts about the Python primitives *)
(* ===================================================================== *)

Module PyFacts.
Import Py.

(** Case split on a base-16 digit. *)
Lemma digit_cases (d : Z) :
  0 <= d < 16 ->
  d = 0 \/ d = 1 \/ d = 2 \/ d = 3 \/ d = 4 \/ d = 5 \/ d = 6 \/ d = 7 \/
  d = 8 \/ d = 9 \/ d = 10 \/ d = 11 \/ d = 12 \/ d = 13 \/ d = 14 \/ d = 15.
Proof. lia. Qed.

Ltac each_digit d H :=
  let C := fresh "C" in
  pose proof (digit_cases d H) as C;
  repeat (destruct C as [C | C]; [subst d | ]); [.. | subst d].

Lemma digit_value_hex_digit d :
  0 <= d < 16 -> digit_value (hex_digit d) = Some d.
Proof. intros H. each_digit d H; reflexivity. Qed.

Lemma is_digit16_hex_digit d :
  0 <= d < 16 -> is_digit16 (hex_digit d) = true.
Proof. intros H. each_digit d H; reflexivity. Qed.

Lemma hex_digit_not_underscore d :
  0 <= d < 16 -> Ascii.eqb (hex_digit d) "_" = false.
Proof. intros H. each_digit d H; reflexivity. Qed.

Lemma hex_digit_not_space d :
  0 <= d < 16 -> is_space (hex_digit d) = false.
Proof. intros H. each_digit d H; reflexivity. Qed.

Lemma hex_digit_not_sign d :
  0 <= d < 16 ->
  Ascii.eqb (hex_digit d) "+" = false /\ Ascii.eqb (hex_digit d) "-" = false.
Proof. intros H. each_digit d H; split; reflexivity. Qed.

Lemma hex_digit_zero d :
  0 <= d < 16 -> d <> 0 -> Ascii.eqb (hex_digit d) "0" = false.
Proof. intros H Hd. each_digit d H; try reflexivity. lia. Qed.

(** ** Base-16 digits *)

Lemma pow16_succ (f : nat) : 16 ^ Z.of_nat (S f) = 16 * 16 ^ Z.of_nat f.
Proof. rewrite Nat2Z.inj_succ, Z.pow_succ_r by lia. reflexivity. Qed.

Lemma to_base16_S (f : nat) (n : Z) :
  to_base16 (S f) n = (if n <? 16 then [] else to_base16 f (n / 16)) ++ [n mod 16].
Proof. reflexivity. Qed.

Lemma to_base16_fuel (f1 : nat) :
  forall (f2 : nat) (n : Z),
    0 <= n < 16 ^ Z.of_nat (S f1) -> n < 16 ^ Z.of_nat (S f2) ->
    to_base16 (S f1) n = to_base16 (S f2) n.
Proof.
  induction f1 as [| f1 IH]; intros f2 n H1 H2.
  - change (16 ^ Z.of_nat 1) with 16 in H1.
    simpl. destruct (Z.ltb_spec n 16); [reflexivity | lia].
  - rewrite (to_base16_S (S f1)), (to_base16_S f2).
    destruct (Z.ltb_spec n 16) as [Hlt | Hge]; [reflexivity |].
    destruct f2 as [| f2].
    + change (16 ^ Z.of_nat 1) with 16 in H2. lia.
    + f_equal. rewrite pow16_succ in H1, H2.
      apply IH.
      * split; [apply Z.div_pos; lia | apply Z.div_lt_upper_bound; lia].
      * apply Z.div_lt_upper_bound; lia.
Qed.

Lemma log2_fuel (n : Z) : 0 <= n -> n < 16 ^ Z.of_nat (S (Z.to_nat (Z.log2 n))).
Proof.
  intros Hn.
  destruct (Z.eq_dec n 0) as [-> | Hnz]; [reflexivity |].
  assert (Hl : 0 <= Z.log2 n) by apply Z.log2_nonneg.
  rewrite Nat2Z.inj_succ, Z2Nat.id by lia.
  pose proof (Z.log2_spec n ltac:(lia)) as [_ Hup].
  eapply Z.lt_le_trans; [exact Hup |].
  apply Z.pow_le_mono_l. lia.
Qed.

(** Any sufficient fuel yields the digits of [digits16]. *)
Lemma digits16_fuel (f : nat) (n : Z) :
  0 <= n < 16 ^ Z.of_nat (S f) -> digits16 n = to_base16 (S f) n.
Proof.
  intros H. unfold digits16.
  apply to_base16_fuel; [split; [lia | apply log2_fuel; lia] | lia].
Qed.

Lemma to_base16_length (f : nat) : forall n, (length (to_base16 f n) <= f)%nat.
Proof.
  induction f as [| f IH]; intros n; rewrite ?to_base16_S; [simpl; lia |].
  rewrite length_app. simpl.
  destruct (n <? 16); [simpl; lia |]. specialize (IH (n / 16)). lia.
Qed.

Lemma to_base16_nonempty (f : nat) (n : Z) : to_base16 (S f) n <> [].
Proof. rewrite to_base16_S. intros H. apply app_eq_nil in H. destruct H; discriminate. Qed.

Lemma to_base16_digits (f : nat) : forall n, Forall digit_ok (to_base16 f n).
Proof.
  induction f as [| f IH]; intros n; rewrite ?to_base16_S; [constructor |].
  apply Forall_app; split.
  - destruct (n <? 16); [constructor | apply IH].
  - constructor; [| constructor]. unfold digit_ok. apply Z.mod_pos_bound. lia.
Qed.

Lemma value16_snoc (l : list Z) (d acc : Z) :
  value16 (l ++ [d]) acc = 16 * value16 l acc + d.
Proof. unfold value16. rewrite fold_left_app. reflexivity. Qed.

Lemma to_base16_value (f : nat) :
  forall n, 0 <= n < 16 ^ Z.of_nat (S f) -> value16 (to_base16 (S f) n) 0 = n.
Proof.
  induction f as [| f IH]; intros n H.
  - change (16 ^ Z.of_nat 1) with 16 in H. simpl.
    destruct (Z.ltb_spec n 16); [| lia]. simpl. rewrite Z.mod_small; lia.
  - rewrite to_base16_S. rewrite value16_snoc.
    destruct (Z.ltb_spec n 16) as [Hlt | Hge].
    + simpl. rewrite Z.mod_small; lia.
    + rewrite IH.
      * pose proof (Z.div_mod n 16). lia.
      * rewrite pow16_succ in H.
        split; [apply Z.div_pos; lia | apply Z.div_lt_upper_bound; lia].
Qed.

(** The leading digit of a positive number is not zero. *)
Lemma to_base16_head (f : nat) :
  forall n, 0 < n < 16 ^ Z.of_nat (S f) -> hd 0 (to_base16 (S f) n) <> 0.
Proof.
  induction f as [| f IH]; intros n H.
  - change (16 ^ Z.of_nat 1) with 16 in H. simpl.
    destruct (Z.ltb_spec n 16); [| lia]. simpl. rewrite Z.mod_small; lia.
  - rewrite to_base16_S. destruct (Z.ltb_spec n 16) as [Hlt | Hge].
    + simpl. rewrite Z.mod_small; lia.
    + rewrite pow16_succ in H.
      assert (Hq : 0 < n / 16 < 16 ^ Z.of_nat (S f)).
      { split; [apply Z.div_str_pos; lia | apply Z.div_lt_upper_bound; lia]. }
      specialize (IH _ Hq).
      pose proof (to_base16_nonempty f (n / 16)) as Hne.
      destruct (to_base16 (S f) (n / 16)); [congruence | exact IH].
Qed.

(** A number of at least [16^f] has more than [f] digits. *)
Lemma to_base16_long (f : nat) :
  forall (g : nat) (n : Z),
    16 ^ Z.of_nat f <= n < 16 ^ Z.of_nat (S g) ->
    (f < length (to_base16 (S g) n))%nat.
Proof.
  induction f as [| f IH]; intros g n H.
  - rewrite to_base16_S. rewrite length_app. simpl. lia.
  - rewrite to_base16_S. rewrite length_app. simpl.
    rewrite pow16_succ in H.
    assert (0 < 16 ^ Z.of_nat f) by (apply Z.pow_pos_nonneg; lia).
    destruct (Z.ltb_spec n 16) as [Hlt | Hge]; [lia |].
    destruct g as [| g]; [change (16 ^ Z.of_nat 1) with 16 in H; lia |].
    assert (Hq : 16 ^ Z.of_nat f <= n / 16 < 16 ^ Z.of_nat (S g)).
    { rewrite (pow16_succ (S g)) in H.
      split; [apply Z.div_le_lower_bound; lia | apply Z.div_lt_upper_bound; lia]. }
    specialize (IH g _ Hq). lia.
Qed.

(** ** Text operations *)

Lemma lstrip_stop (c a : ascii) (s : pystr) :
  Ascii.eqb a c = false -> lstrip c (a :: s) = a :: s.
Proof. intros H. simpl. rewrite H. reflexivity. Qed.

Lemma lstrip_run (c : ascii) (k : nat) (s : pystr) :
  lstrip c (replicate k c ++ s) = lstrip c s.
Proof.
  induction k as [| k IH]; [reflexivity |].
  simpl. rewrite Ascii.eqb_refl. exact IH.
Qed.

(** Stripping removes a run of the strip character and nothing else. *)
Lemma lstrip_split (c : ascii) (s : pystr) :
  exists k, s = replicate k c ++ lstrip c s.
Proof.
  induction s as [| a s [k IH]]; [exists 0%nat; reflexivity |].
  simpl. destruct (Ascii.eqb_spec a c) as [-> | Hne].
  - exists (S k). simpl. f_equal. exact IH.
  - exists 0%nat. reflexivity.
Qed.

Lemma rjust_eq (s : pystr) (width : Z) (fill : ascii) :
  Z.of_nat (length s) <= width ->
  rjust s width fill = replicate (Z.to_nat width - length s) fill ++ s.
Proof. intros H. unfold rjust. f_equal. f_equal. lia. Qed.

(** ** Reading back what [hex] wrote *)

Lemma scan_digits_hex (ds : list Z) :
  forall acc, Forall digit_ok ds ->
    scan_digits (map hex_digit ds) false acc = Some (value16 ds acc, []).
Proof.
  induction ds as [| d ds IH]; intros acc H; [reflexivity |].
  inversion H as [| ? ? Hd Hds]; subst.
  cbn [map scan_digits].
  rewrite hex_digit_not_underscore, is_digit16_hex_digit, digit_value_hex_digit
    by exact Hd.
  cbn [default]. rewrite IH by exact Hds. reflexivity.
Qed.

Lemma strip_sign_hex (d : Z) (s : pystr) :
  digit_ok d -> strip_sign (hex_digit d :: s) = (false, hex_digit d :: s).
Proof.
  intros Hd. destruct (hex_digit_not_sign d Hd) as [Hplus Hminus].
  unfold strip_sign. rewrite Hplus, Hminus. reflexivity.
Qed.

Lemma strip_prefix16_hex (d : Z) (s : pystr) :
  digit_ok d -> d <> 0 -> strip_prefix16 (hex_digit d :: s) = hex_digit d :: s.
Proof.
  intros Hd Hnz. unfold strip_prefix16.
  destruct s; [reflexivity |].
  rewrite (hex_digit_zero d Hd Hnz). reflexivity.
Qed.

Lemma int16_hex (ds : list Z) :
  Forall digit_ok ds -> hd 0 ds <> 0 -> ds <> [] ->
  int16 (map hex_digit ds) = Ok (value16 ds 0).
Proof.
  intros H Hhd Hne. destruct ds as [| d ds]; [congruence |].
  inversion H as [| ? ? Hd Hds]; subst. simpl in Hhd.
  pose proof (scan_digits_hex (d :: ds) 0 H) as Hscan.
  unfold int16. cbn [map skip_spaces] in *.
  rewrite (hex_digit_not_space d Hd), (strip_sign_hex d _ Hd).
  rewrite (strip_prefix16_hex d _ Hd Hhd).
  rewrite (hex_digit_not_underscore d Hd), Hscan.
  reflexivity.
Qed.

End PyFacts.

(* ===================================================================== *)
(** * Synthetic block hashes *)
(* ===================================================================== *)

Module HashFacts.
Import Py PyFacts BlocksDB.

Lemma hex_digits (s : Z) :
  0 <= s -> drop 2 (hex s) = map hex_digit (digits16 s).
Proof.
  intros Hs. unfold hex.
  destruct (Z.ltb_spec s 0); [lia |].
  rewrite Z.abs_eq by lia. reflexivity.
Qed.

(** Shape of the synthetic hash of a non-negative slot. *)
Lemma fake_hash_shape (s : Z) :
  0 <= s ->
  let ds := map hex_digit (digits16 s) in
  let L := Z.of_nat (length ds) in
  let W := 2 * (L / 2 + L mod 2) in
  _generate_fake_block_hash s =
    lit "0x" ++ replicate (Z.to_nat (64 - (2 + W))) "f"%char ++
    lit "00" ++ replicate (Z.to_nat (W - L)) "0"%char ++ ds.
Proof.
  intros Hs ds L W. unfold _generate_fake_block_hash.
  destruct (Z.ltb_spec s 0); [lia |].
  rewrite hex_digits by exact Hs. fold ds. fold L.
  rewrite Z.shiftr_div_pow2, Z.shiftl_mul_pow2 by lia.
  change (2 ^ 1) with 2.
  replace ((L / 2 + L mod 2) * 2) with W by (unfold W; lia).
  unfold rjust at 2. fold L.
  unfold rjust. rewrite !length_app, length_replicate. fold L.
  change (length (lit "00")) with 2%nat.
  assert (HW : L <= W) by (unfold W; Z.div_mod_to_equations; lia).
  replace (64 - Z.of_nat (2 + (Z.to_nat (W - L) + length ds)))
    with (64 - (2 + W)) by (unfold L in *; lia).
  reflexivity.
Qed.

(** Decoding a run of ['f'], the sentinel, zero padding and digits. *)
Lemma decode_shape (k j : nat) (ds : list Z) (v : Z) :
  Forall digit_ok ds -> ds <> [] ->
  (2 + j + length ds <= 12)%nat ->
  (ds = [0] /\ v = 0 \/ hd 0 ds <> 0 /\ v = value16 ds 0) ->
  _get_fake_block_slot
    (lit "0x" ++ replicate k "f"%char ++ lit "00" ++ replicate j "0"%char ++
     map hex_digit ds) = Ok (Some v).
Proof.
  intros Hds Hne Hlen Hv. unfold _get_fake_block_slot.
  change (drop 2 (lit "0x" ++ ?x)) with x.
  rewrite lstrip_run.
  change (lit "00" ++ ?x) with ("0"%char :: "0"%char :: x).
  rewrite lstrip_stop by reflexivity.
  cbn [take length].
  rewrite length_app, length_replicate, length_map.
  destruct (Z.ltb_spec 12 (Z.of_nat (S (S (j + length ds))))) as [Hbad | _]; [lia |].
  rewrite bool_decide_eq_true_2 by reflexivity.
  cbn [orb negb lstrip Ascii.eqb Bool.eqb].
  rewrite lstrip_run.
  destruct Hv as [[-> ->] | [Hhd ->]]; [reflexivity |].
  destruct ds as [| d ds']; [congruence |].
  inversion Hds as [| ? ? Hd Hds']; subst. simpl in Hhd.
  cbn [map]. rewrite lstrip_stop by (apply hex_digit_zero; assumption).
  change (hex_digit d :: map hex_digit ds') with (map hex_digit (d :: ds')).
  rewrite int16_hex; [reflexivity | assumption | assumption | discriminate].
Qed.

(** Slots below [2^40] survive the round trip. *)
Lemma roundtrip_below_2_40 (s : Z) :
  0 <= s < 2 ^ 40 ->
  _get_fake_block_slot (_generate_fake_block_hash s) = Ok (Some s).
Proof.
  intros Hs.
  assert (Hfuel : 0 <= s < 16 ^ Z.of_nat 10) by (change (16 ^ Z.of_nat 10) with (2 ^ 40); lia).
  pose proof (digits16_fuel 9 s Hfuel) as Hdig.
  rewrite fake_hash_shape by lia. cbv zeta.
  rewrite Hdig, length_map.
  pose proof (to_base16_length 10 s) as Hlen.
  pose proof (to_base16_nonempty 9 s) as Hne.
  set (ds := to_base16 10 s) in *.
  assert (Hpos : (0 < length ds)%nat) by (destruct ds; [congruence | simpl; lia]).
  set (L := Z.of_nat (length ds)).
  apply decode_shape.
  - apply to_base16_digits.
  - exact Hne.
  - unfold L. Z.div_mod_to_equations. lia.
  - destruct (Z.eq_dec s 0) as [-> | Hnz].
    + left. split; reflexivity.
    + right. split.
      * apply to_base16_head. lia.
      * symmetry. apply to_base16_value. lia.
Qed.

(** What does not match the pattern is not decoded. *)
Lemma not_synthetic_none (h : pystr) :
  ~ synthetic_pattern h -> _get_fake_block_slot h = Ok None.
Proof.
  intros Hno. unfold _get_fake_block_slot.
  set (r := lstrip "f" (drop 2 h)).
  destruct (Z.ltb_spec 12 (Z.of_nat (length r))) as [Hlong | Hshort]; [reflexivity |].
  destruct (bool_decide_reflect (take 2 r = lit "00")) as [Hpre | Hpre]; [| reflexivity].
  exfalso. apply Hno.
  destruct (lstrip_split "f" (drop 2 h)) as [k Hk]. fold r in Hk.
  exists k, (drop 2 r). split.
  - rewrite <- Hpre, take_drop. exact Hk.
  - rewrite <- Hpre, take_drop. lia.
Qed.

End HashFacts.

(* ===================================================================== *)
(** * binary64: integers times [0.4], rounded up *)
(* ===================================================================== *)

Module FloatFacts.
Import Py.

Lemma digits2_pos_bound (p : positive) :
  forall K, 0 <= K -> Z.pos p < 2 ^ K -> Z.pos (digits2_pos p) <= K.
Proof.
  induction p as [p IH | p IH |]; intros K HK Hp; cbn [digits2_pos].
  - assert (K <> 0) by (intros ->; simpl in Hp; lia).
    replace K with (Z.succ (K - 1)) in Hp by lia.
    rewrite Z.pow_succ_r in Hp by lia.
    specialize (IH (K - 1) ltac:(lia) ltac:(lia)). lia.
  - assert (K <> 0) by (intros ->; simpl in Hp; lia).
    replace K with (Z.succ (K - 1)) in Hp by lia.
    rewrite Z.pow_succ_r in Hp by lia.
    specialize (IH (K - 1) ltac:(lia) ltac:(lia)). lia.
  - assert (K <> 0) by (intros ->; simpl in Hp; lia). lia.
Qed.

Lemma Zdigits2_bound (m K : Z) :
  0 <= K -> 0 <= m < 2 ^ K -> 0 <= Zdigits2 m <= K.
Proof.
  intros HK Hm. destruct m as [| p | p]; cbn [Zdigits2]; [lia | | lia].
  split; [lia | apply digits2_pos_bound; lia].
Qed.

Lemma shr_1_bound (mrs : shr_record) :
  0 <= shr_m mrs -> 0 <= shr_m (shr_1 mrs) <= shr_m mrs.
Proof.
  destruct mrs as [m r s]. cbn [shr_m]. intros Hm.
  destruct m as [| [p | p |] | p]; cbn [shr_1 shr_m]; lia.
Qed.

Lemma iter_shr_1_bound (n : positive) :
  forall mrs, 0 <= shr_m mrs ->
    0 <= shr_m (SpecFloat.iter_pos shr_1 n mrs) <= shr_m mrs.
Proof.
  induction n as [n IH | n IH |]; intros mrs Hm; cbn [SpecFloat.iter_pos].
  - pose proof (shr_1_bound mrs Hm) as H1.
    pose proof (IH (shr_1 mrs) ltac:(lia)) as H2.
    pose proof (IH (SpecFloat.iter_pos shr_1 n (shr_1 mrs)) ltac:(lia)) as H3. lia.
  - pose proof (IH mrs Hm) as H2.
    pose proof (IH (SpecFloat.iter_pos shr_1 n mrs) ltac:(lia)) as H3. lia.
  - apply shr_1_bound. exact Hm.
Qed.

Lemma shr_record_of_loc_m (m : Z) (l : location) :
  shr_m (shr_record_of_loc m l) = m.
Proof. destruct l as [| []]; reflexivity. Qed.

(** One alignment step never enlarges the mantissa, and moves the exponent
    to [fexp] at most. *)
Lemma shr_fexp_bound (m e : Z) (l : location) (K : Z) :
  0 <= K -> 0 <= m < 2 ^ K ->
  let '(mrs, e1) := shr_fexp prec emax m e l in
  0 <= shr_m mrs <= m /\ e1 <= Z.max e (Z.max (K + e - 53) (-1074)).
Proof.
  intros HK Hm. unfold shr_fexp, shr.
  pose proof (Zdigits2_bound m K HK Hm) as Hd.
  assert (Hf : fexp prec emax (Zdigits2 m + e) <= Z.max (K + e - 53) (-1074)).
  { unfold fexp, emin, prec, emax. lia. }
  destruct (fexp prec emax (Zdigits2 m + e) - e) as [| n | n] eqn:Hn.
  - rewrite shr_record_of_loc_m. lia.
  - pose proof (iter_shr_1_bound n (shr_record_of_loc m l)) as Hi.
    rewrite shr_record_of_loc_m in Hi. specialize (Hi ltac:(lia)). lia.
  - rewrite shr_record_of_loc_m. lia.
Qed.

Lemma round_nearest_even_bound (m : Z) (l : location) :
  m <= round_nearest_even m l <= m + 1.
Proof.
  destruct l as [| []]; cbn [round_nearest_even]; try lia.
  destruct (Z.even m); lia.
Qed.

(** Rounding a positive mantissa below [2^K] at exponent [ex] gives a
    non-negative finite value: the exponent stays far below [emax]. *)
Lemma binary_round_aux_nonneg (p : positive) (ex : Z) (l : location) (K : Z) :
  0 <= K -> Z.pos p < 2 ^ K ->
  Z.max ex (-1074) + 2 * K <= 971 ->
  nonneg_within (2 ^ K) (Z.max ex (-1074) + 2 * K)
    (binary_round_aux prec emax false (Z.pos p) ex l).
Proof.
  intros HK Hp Hex. unfold binary_round_aux.
  pose proof (shr_fexp_bound (Z.pos p) ex l K HK ltac:(lia)) as H1.
  destruct (shr_fexp prec emax (Z.pos p) ex l) as [mrs1 e1].
  destruct H1 as [Hm1 He1].
  pose proof (round_nearest_even_bound (shr_m mrs1) (loc_of_shr_record mrs1)) as Hr.
  set (m1 := round_nearest_even (shr_m mrs1) (loc_of_shr_record mrs1)) in *.
  assert (Hpow : 2 ^ (K + 1) = 2 * 2 ^ K).
  { rewrite Z.pow_add_r by lia. lia. }
  pose proof (shr_fexp_bound m1 e1 loc_Exact (K + 1) ltac:(lia) ltac:(lia)) as H2.
  destruct (shr_fexp prec emax m1 e1 loc_Exact) as [mrs2 e2].
  destruct H2 as [Hm2 He2].
  destruct (shr_m mrs2) as [| m | m] eqn:Hm; [left; reflexivity | | lia].
  right. unfold prec, emax.
  destruct (Z.leb_spec e2 (1024 - 53)) as [Hle | Hgt]; [| lia].
  exists m, e2. split; [reflexivity | lia].
Qed.

Lemma iter_xO_value (n p : positive) :
  Z.pos (Pos.iter xO p n) = Z.pos p * 2 ^ Z.pos n.
Proof.
  induction n as [| n IH] using Pos.peano_ind.
  - simpl. lia.
  - rewrite Pos.iter_succ, Pos2Z.inj_xO, IH, Pos2Z.inj_succ, Z.pow_succ_r by lia.
    lia.
Qed.

(** [float(d)] of a positive [d < 2^64]. *)
Lemma float_of_pos_nonneg (p : positive) :
  Z.pos p < 2 ^ 64 ->
  nonneg_within (2 ^ 117) 234 (binary_normalize prec emax (Z.pos p) 0 false).
Proof.
  intros Hp. cbn [binary_normalize]. unfold binary_round, shl_align.
  pose proof (digits2_pos_bound p 64 ltac:(lia) Hp) as Hd.
  assert (Hf : -52 <= fexp prec emax (Z.pos (digits2_pos p) + 0) <= 11).
  { unfold fexp, emin, prec, emax. lia. }
  destruct (fexp prec emax (Z.pos (digits2_pos p) + 0) - 0) as [| n | n] eqn:Hn.
  - apply (binary_round_aux_nonneg p 0 loc_Exact 117); lia.
  - apply (binary_round_aux_nonneg p 0 loc_Exact 117); lia.
  - assert (Hshift : Z.pos (Pos.iter xO p n) < 2 ^ 117).
    { rewrite iter_xO_value.
      assert (2 ^ Z.pos n <= 2 ^ 52) by (apply Z.pow_le_mono_r; lia).
      assert (0 < 2 ^ Z.pos n) by (apply Z.pow_pos_nonneg; lia).
      change (2 ^ 117) with (2 ^ 64 * 2 ^ 53). nia. }
    pose proof (binary_round_aux_nonneg (Pos.iter xO p n)
                  (fexp prec emax (Z.pos (digits2_pos p) + 0)) loc_Exact 117
                  ltac:(lia) Hshift ltac:(lia)) as H.
    destruct H as [H | (m & e & H & Hm & He)]; [left; exact H |].
    right. exists m, e. split; [exact H | lia].
Qed.

(** [math.ceil] of a non-negative finite value is a non-negative integer. *)
Lemma ceil_nonneg (M E : Z) (x : spec_float) :
  nonneg_within M E x -> exists c, ceil x = Ok c /\ 0 <= c.
Proof.
  intros [-> | (m & e & -> & _ & _)]; [exists 0; split; [reflexivity | lia] |].
  cbn [ceil]. eexists. split; [reflexivity |].
  destruct (Z.leb_spec 0 e) as [He | He].
  - assert (0 < 2 ^ e) by (apply Z.pow_pos_nonneg; lia). nia.
  - assert (0 < 2 ^ (- e)) by (apply Z.pow_pos_nonneg; lia).
    assert (- Z.pos m / 2 ^ (- e) < 0) by (apply Z.div_lt_upper_bound; lia).
    lia.
Qed.

(** [math.ceil(d * 0.4)] is defined and non-negative for [0 <= d < 2^64]. *)
Lemma ceil_mul_nonneg (d : Z) :
  0 <= d < 2 ^ 64 ->
  exists c, bind (int_mul_float d float_0_4) ceil = Ok c /\ 0 <= c.
Proof.
  intros Hd. unfold int_mul_float, float_of_int.
  destruct d as [| p | p]; [exists 0; split; [reflexivity | lia] | | lia].
  destruct (float_of_pos_nonneg p ltac:(lia)) as [-> | (m & e & -> & Hm & He)].
  - exists 0. split; [reflexivity | lia].
  - cbn [bind]. unfold float_0_4. cbn [SFmul xorb].
    apply (ceil_nonneg (2 ^ 171) 971).
    assert (Hprod : Z.pos (m * 7205759403792794) < 2 ^ 171).
    { rewrite Pos2Z.inj_mul. change (2 ^ 171) with (2 ^ 117 * 2 ^ 54). nia. }
    pose proof (binary_round_aux_nonneg (m * 7205759403792794) (e + -54)
                  loc_Exact 171 ltac:(lia) Hprod ltac:(lia)) as H.
    destruct H as [H | (m' & e' & H & Hm' & He')]; [left; exact H |].
    right. exists m', e'. split; [exact H | lia].
Qed.

(** ** Rounding to nearest, step by step *)

(** One more bit shifted out. *)
Lemma shr_1_shifted (M k : Z) (mrs : shr_record) :
  0 <= k -> 0 <= shr_m mrs -> shifted M k mrs -> shifted M (k + 1) (shr_1 mrs).
Proof.
  intros Hk Hm (rem & HM & Hrem & Hloc).
  assert (Hp : 2 ^ (k + 1) = 2 * 2 ^ k) by (rewrite <- Z.add_1_r || idtac; rewrite Z.add_1_r, Z.pow_succ_r by lia; lia).
  assert (Hpos : 0 < 2 ^ k) by (apply Z.pow_pos_nonneg; lia).
  destruct mrs as [m r s]. cbn [shr_m shr_r shr_s] in *.
  destruct m as [| [p | p |] | p]; cbn [shr_1]; try lia.
  - exists rem. rewrite Hp. destruct r, s; cbn [orb shr_m shr_r shr_s]; lia.
  - exists (rem + 2 ^ k). rewrite Hp.
    rewrite Pos2Z.inj_xI in HM. destruct r, s; cbn [orb shr_m shr_r shr_s]; lia.
  - exists rem. rewrite Hp.
    rewrite Pos2Z.inj_xO in HM. destruct r, s; cbn [orb shr_m shr_r shr_s]; lia.
  - exists (rem + 2 ^ k). rewrite Hp. destruct r, s; cbn [orb shr_m shr_r shr_s]; lia.
Qed.

Lemma iter_shr_1_shifted (M : Z) (n : positive) :
  forall k mrs,
    0 <= k -> 0 <= shr_m mrs -> shifted M k mrs ->
    shifted M (k + Z.pos n) (SpecFloat.iter_pos shr_1 n mrs).
Proof.
  induction n as [n IH | n IH |]; intros k mrs Hk Hm H; cbn [SpecFloat.iter_pos].
  - pose proof (shr_1_shifted M k mrs Hk Hm H) as H1.
    assert (B1 : 0 <= shr_m (shr_1 mrs)) by (apply shr_1_bound; exact Hm).
    assert (K1 : 0 <= k + 1) by lia.
    pose proof (IH (k + 1) (shr_1 mrs) K1 B1 H1) as H2.
    assert (B2 : 0 <= shr_m (SpecFloat.iter_pos shr_1 n (shr_1 mrs)))
      by (apply iter_shr_1_bound; exact B1).
    assert (K2 : 0 <= k + 1 + Z.pos n) by lia.
    pose proof (IH (k + 1 + Z.pos n) _ K2 B2 H2) as H3.
    replace (k + Z.pos n~1) with (k + 1 + Z.pos n + Z.pos n) by lia. exact H3.
  - pose proof (IH k mrs Hk Hm H) as H2.
    assert (B2 : 0 <= shr_m (SpecFloat.iter_pos shr_1 n mrs))
      by (apply iter_shr_1_bound; exact Hm).
    assert (K2 : 0 <= k + Z.pos n) by lia.
    pose proof (IH (k + Z.pos n) _ K2 B2 H2) as H3.
    replace (k + Z.pos n~0) with (k + Z.pos n + Z.pos n) by lia. exact H3.
  - apply shr_1_shifted; assumption.
Qed.

(** The digit count of a mantissa is the position of its leading bit. *)
Lemma digits2_pos_spec (p : positive) :
  2 ^ (Z.pos (digits2_pos p) - 1) <= Z.pos p < 2 ^ Z.pos (digits2_pos p).
Proof.
  induction p as [p IH | p IH |]; cbn [digits2_pos].
  - rewrite Pos2Z.inj_succ.
    replace (Z.succ (Z.pos (digits2_pos p)) - 1) with (Z.succ (Z.pos (digits2_pos p) - 1)) by lia.
    rewrite !Z.pow_succ_r by lia. lia.
  - rewrite Pos2Z.inj_succ.
    replace (Z.succ (Z.pos (digits2_pos p)) - 1) with (Z.succ (Z.pos (digits2_pos p) - 1)) by lia.
    rewrite !Z.pow_succ_r by lia. lia.
  - simpl. lia.
Qed.

Lemma digits2_pos_unique (p : positive) (k : Z) :
  2 ^ (k - 1) <= Z.pos p < 2 ^ k -> Z.pos (digits2_pos p) = k.
Proof.
  intros Hk. pose proof (digits2_pos_spec p) as Hd.
  set (D := Z.pos (digits2_pos p)) in *.
  assert (0 < k).
  { destruct (Z.lt_ge_cases 0 k) as [H | H]; [exact H |].
    destruct (Z.eq_dec k 0) as [-> | Hne]; [simpl in Hk; lia |].
    rewrite (Z.pow_neg_r 2 k) in Hk by lia. lia. }
  destruct (Z.lt_trichotomy D k) as [Hlt | [Heq | Hgt]]; [| exact Heq |].
  - assert (2 ^ D <= 2 ^ (k - 1)) by (apply Z.pow_le_mono_r; lia). lia.
  - assert (2 ^ k <= 2 ^ (D - 1)) by (apply Z.pow_le_mono_r; lia). lia.
Qed.

Lemma shifted_exact (M : Z) : shifted M 0 (shr_record_of_loc M loc_Exact).
Proof. exists 0. cbn. lia. Qed.

(** Rounding to nearest even moves the quotient by at most one, and by
    nothing when the remainder is below half a unit. *)
Lemma round_nearest_even_shifted (M k : Z) (mrs : shr_record) :
  shifted M k mrs ->
  exists rem,
    M = shr_m mrs * 2 ^ k + rem /\ 0 <= rem < 2 ^ k /\
    ((round_nearest_even (shr_m mrs) (loc_of_shr_record mrs) = shr_m mrs /\
      2 * rem <= 2 ^ k) \/
     (round_nearest_even (shr_m mrs) (loc_of_shr_record mrs) = shr_m mrs + 1 /\
      2 ^ k <= 2 * rem)) /\
    (2 * rem < 2 ^ k ->
     round_nearest_even (shr_m mrs) (loc_of_shr_record mrs) = shr_m mrs).
Proof.
  intros (rem & HM & Hrem & Hloc). exists rem.
  split; [exact HM |]. split; [exact Hrem |].
  destruct mrs as [m r s]. cbn [shr_m shr_r shr_s] in *.
  destruct r, s; cbn [loc_of_shr_record round_nearest_even].
  - split; [right; lia | lia].
  - destruct (Z.even m); (split; [| lia]); [left | right]; lia.
  - split; [left; lia | lia].
  - split; [left; lia | lia].
Qed.

Lemma pow2_split (a b : Z) : 0 <= a -> 0 <= b -> 2 ^ (a + b) = 2 ^ a * 2 ^ b.
Proof. intros. apply Z.pow_add_r; assumption. Qed.

(** Rounding a mantissa of [53 + sh] bits to 53 bits. *)
Lemma binary_round_aux_spec (p : positive) (E sh : Z) :
  0 < sh -> Z.pos (digits2_pos p) = 53 + sh ->
  -1074 <= E + sh -> E + sh + 1 <= 971 ->
  exists (m2 : positive) (e2 m1 rem mr : Z),
    binary_round_aux prec emax false (Z.pos p) E loc_Exact = S754_finite false m2 e2 /\
    Z.pos p = m1 * 2 ^ sh + rem /\ 0 <= rem < 2 ^ sh /\
    ((mr = m1 /\ 2 * rem <= 2 ^ sh) \/ (mr = m1 + 1 /\ 2 ^ sh <= 2 * rem)) /\
    (2 * rem < 2 ^ sh -> mr = m1) /\
    E + sh <= e2 <= E + sh + 1 /\
    Z.pos m2 * 2 ^ (e2 - (E + sh)) = mr.
Proof.
  intros Hsh Hd Hlo Hhi.
  pose proof (digits2_pos_spec p) as Hp. rewrite Hd in Hp.
  assert (Hpsh : 0 < 2 ^ sh) by (apply Z.pow_pos_nonneg; lia).
  replace (53 + sh - 1) with (52 + sh) in Hp by lia.
  rewrite !pow2_split in Hp by lia.
  unfold binary_round_aux, shr_fexp. cbn [Zdigits2]. rewrite Hd.
  replace (fexp prec emax (53 + sh + E) - E) with sh
    by (unfold fexp, emin, prec, emax; lia).
  destruct sh as [| shp | shp]; [lia | | lia].
  cbn [shr].
  assert (Hrec : 0 <= shr_m (shr_record_of_loc (Z.pos p) loc_Exact))
    by (rewrite shr_record_of_loc_m; lia).
  pose proof (iter_shr_1_shifted (Z.pos p) shp 0 _ (Z.le_refl 0) Hrec
                (shifted_exact (Z.pos p))) as Hs.
  rewrite Z.add_0_l in Hs.
  set (mrs1 := SpecFloat.iter_pos shr_1 shp (shr_record_of_loc (Z.pos p) loc_Exact)) in *.
  destruct (round_nearest_even_shifted _ _ _ Hs) as (rem & HM & Hrem & Hcase & Hlow).
  set (m1 := shr_m mrs1) in *.
  set (mr := round_nearest_even m1 (loc_of_shr_record mrs1)) in *.
  assert (Hm1 : 2 ^ 52 <= m1 < 2 ^ 53).
  { split.
    - assert (Hx : 2 ^ 52 * 2 ^ Z.pos shp < (m1 + 1) * 2 ^ Z.pos shp) by lia.
      apply Z.mul_lt_mono_pos_r in Hx; lia.
    - assert (Hx : m1 * 2 ^ Z.pos shp < 2 ^ 53 * 2 ^ Z.pos shp) by lia.
      apply Z.mul_lt_mono_pos_r in Hx; lia. }
  assert (Hmr : 2 ^ 52 <= mr <= 2 ^ 53) by lia.
  destruct (Z.eq_dec mr (2 ^ 53)) as [Heq | Hne].
  - rewrite Heq.
    replace (fexp prec emax (Zdigits2 (2 ^ 53) + (E + Z.pos shp)) - (E + Z.pos shp))
      with 1 by (change (Zdigits2 (2 ^ 53)) with 54;
                 unfold fexp, emin, prec, emax; lia).
    cbn [shr SpecFloat.iter_pos shr_record_of_loc].
    change (shr_m (shr_1 {| shr_m := 2 ^ 53; shr_r := false; shr_s := false |}))
      with (Z.pos (2 ^ 52)).
    cbv iota.
    destruct (Z.leb_spec (E + Z.pos shp + 1) (emax - prec)) as [_ | Hbad];
      [| unfold emax, prec in Hbad; lia].
    exists (2 ^ 52)%positive, (E + Z.pos shp + 1), m1, rem, mr.
    split; [reflexivity |]. split; [exact HM |]. split; [exact Hrem |].
    split; [exact Hcase |]. split; [exact Hlow |]. split; [lia |].
    replace (E + Z.pos shp + 1 - (E + Z.pos shp)) with 1 by lia. rewrite Heq. reflexivity.
  - destruct mr as [| q | q] eqn:Hq; [lia | | lia].
    assert (Hdq : Z.pos (digits2_pos q) = 53).
    { apply digits2_pos_unique. change (53 - 1) with 52. lia. }
    cbn [Zdigits2]. rewrite Hdq.
    replace (fexp prec emax (53 + (E + Z.pos shp)) - (E + Z.pos shp))
      with 0 by (unfold fexp, emin, prec, emax; lia).
    cbn [shr shr_record_of_loc shr_m].
    destruct (Z.leb_spec (E + Z.pos shp) (emax - prec)) as [_ | Hbad];
      [| unfold emax, prec in Hbad; lia].
    exists q, (E + Z.pos shp), m1, rem, (Z.pos q).
    split; [reflexivity |]. split; [exact HM |]. split; [exact Hrem |].
    split; [exact Hcase |]. split; [exact Hlow |]. split; [lia |].
    rewrite Z.sub_diag. simpl. lia.
Qed.

(** [float(d)] is exact below [2^51]: a 53-bit mantissa at a negative
    exponent. *)
Lemma float_of_int_exact (p : positive) :
  Z.pos p < 2 ^ 51 ->
  exists (mz : positive) (ez : Z),
    float_of_int (Z.pos p) = Ok (S754_finite false mz ez) /\
    -52 <= ez <= -2 /\
    Z.pos mz = Z.pos p * 2 ^ (- ez) /\
    2 ^ 52 <= Z.pos mz < 2 ^ 53.
Proof.
  intros Hp. unfold float_of_int. cbn [binary_normalize].
  unfold binary_round, shl_align.
  pose proof (digits2_pos_spec p) as Hs.
  pose proof (digits2_pos_bound p 51 ltac:(lia) Hp) as Hd.
  set (D := Z.pos (digits2_pos p)) in *.
  assert (HD : 1 <= D) by (unfold D; lia).
  replace (fexp prec emax (D + 0)) with (D - 53)
    by (unfold fexp, emin, prec, emax; lia).
  destruct (D - 53 - 0) as [| n | n] eqn:Hn; [lia | lia |].
  assert (Hz : Z.pos (Pos.iter xO p n) = Z.pos p * 2 ^ (53 - D)).
  { rewrite iter_xO_value. f_equal. f_equal. lia. }
  assert (Hpow : 2 ^ 52 = 2 ^ (D - 1) * 2 ^ (53 - D)).
  { rewrite <- Z.pow_add_r by lia. f_equal. lia. }
  assert (Hpow' : 2 ^ 53 = 2 ^ D * 2 ^ (53 - D)).
  { rewrite <- Z.pow_add_r by lia. f_equal. lia. }
  assert (Hq : 0 < 2 ^ (53 - D)) by (apply Z.pow_pos_nonneg; lia).
  assert (Hrange : 2 ^ 52 <= Z.pos (Pos.iter xO p n) < 2 ^ 53).
  { rewrite Hz, Hpow, Hpow'. split.
    - apply Z.mul_le_mono_nonneg_r; lia.
    - apply Z.mul_lt_mono_pos_r; lia. }
  set (mz := Pos.iter xO p n) in *.
  assert (Hdz : Z.pos (digits2_pos mz) = 53).
  { apply digits2_pos_unique. change (53 - 1) with 52. exact Hrange. }
  unfold binary_round_aux, shr_fexp. cbn [Zdigits2]. rewrite Hdz.
  replace (fexp prec emax (53 + (D - 53)) - (D - 53)) with 0
    by (unfold fexp, emin, prec, emax; lia).
  cbn [shr shr_record_of_loc shr_m loc_of_shr_record round_nearest_even Zdigits2].
  rewrite Hdz.
  replace (fexp prec emax (53 + (D - 53)) - (D - 53)) with 0
    by (unfold fexp, emin, prec, emax; lia).
  cbn [shr shr_m].
  destruct (Z.leb_spec (D - 53) (emax - prec)) as [_ | Hbad];
    [| unfold emax, prec in Hbad; lia].
  exists mz, (D - 53). split; [reflexivity |]. split; [lia |].
  split; [| exact Hrange].
  rewrite Hz. f_equal. f_equal. lia.
Qed.

(** The ceiling of a quotient, through floored division. *)
Lemma ceil_quotient (m R k : Z) :
  0 < R -> (k - 1) * R < m <= k * R -> - (- m / R) = k.
Proof.
  intros HR Hm.
  assert (H : - k = - m / R).
  { apply (Z.div_unique_pos (- m) R (- k) (k * R - m)); [lia | ring]. }
  lia.
Qed.

End FloatFacts.

(* ===================================================================== *)
(** * The block store: synthetic hashes and times, branch switches *)
(* ===================================================================== *)

Module BlockStoreFacts.
Import Py PyFacts FloatFacts BlocksDB HashFacts.

(** ** Synthetic hashes *)

(** From [2^40] on, the encoded slot no longer fits the decoder's window. *)
Lemma roundtrip_from_2_40 (s : Z) :
  2 ^ 40 <= s -> _get_fake_block_slot (_generate_fake_block_hash s) = Ok None.
Proof.
  intros Hs.
  rewrite fake_hash_shape by lia. cbv zeta.
  assert (Hlong : (10 < length (digits16 s))%nat).
  { unfold digits16. apply to_base16_long.
    change (16 ^ Z.of_nat 10) with (2 ^ 40).
    split; [lia | apply log2_fuel; lia]. }
  rewrite length_map.
  set (L := Z.of_nat (length (digits16 s))).
  set (W := 2 * (L / 2 + L mod 2)).
  assert (HW : L <= W) by (unfold W; Z.div_mod_to_equations; lia).
  unfold _get_fake_block_slot.
  change (drop 2 (lit "0x" ++ ?x)) with x.
  rewrite lstrip_run.
  change (lit "00" ++ ?x) with ("0"%char :: "0"%char :: x).
  rewrite lstrip_stop by reflexivity.
  cbn [length]. rewrite length_app, length_replicate, length_map.
  destruct (Z.ltb_spec 12
    (Z.of_nat (S (S (Z.to_nat (W - L) + length (digits16 s)))))) as [_ | Hshort];
    [reflexivity | unfold L in *; lia].
Qed.

(** C1 (amended): for every slot [s] with [0 <= s < 2^40], decoding the
    synthetic block hash generated for [s] recovers [s]; and for every hash
    text that does not match the synthetic pattern (a leading run of ['f'],
    then ["00"], with at most 12 characters left once the run is stripped),
    [_get_fake_block_slot] returns [None]. *)
Theorem fake_block_hash_roundtrip (s : Z) (h : pystr)
    (Hs : 0 <= s < 2 ^ 40) (Hh : ~ synthetic_pattern h) :
  _get_fake_block_slot (_generate_fake_block_hash s) = Ok (Some s) /\
  _get_fake_block_slot h = Ok None.
Proof.
  split; [apply roundtrip_below_2_40; exact Hs | apply not_synthetic_none; exact Hh].
Qed.

Lemma fake_block_hash_roundtrip_witness :
  _get_fake_block_slot (_generate_fake_block_hash 4660) = Ok (Some 4660) /\
  _get_fake_block_slot (lit "0x" ++ replicate 64 "a"%char) = Ok None.
Proof.
  apply (fake_block_hash_roundtrip 4660 (lit "0x" ++ replicate 64 "a"%char)).
  - lia.
  - intros (k & rest & Heq & _). destruct k; simpl in Heq; discriminate.
Defined.

(** C1 as stated fails: slot [2^40] lies in [[0, 2^48)], yet its synthetic
    hash is not decoded. *)
Lemma fake_block_hash_roundtrip_fails_at_2_40 :
  0 <= 2 ^ 40 < 2 ^ 48 /\
  _get_fake_block_slot (_generate_fake_block_hash (2 ^ 40)) = Ok None /\
  _get_fake_block_slot (_generate_fake_block_hash (2 ^ 40)) <> Ok (Some (2 ^ 40)).
Proof.
  split; [lia |]. split; [vm_compute; reflexivity | vm_compute; discriminate].
Qed.

Section BlockFromValue.

Variable genesis_timestamp : Z.
Variable fetchone : list nearest_row -> option nearest_row.

(** C5 (amended): [_generate_fake_block_hash(0)] is ["0x"], sixty ['f'] and
    ["0000"]; for every negative slot it is the all-zero hash; and the
    [BlockInfo] synthesized for slot 0 has [parent_hash] equal to the
    synthetic hash of slot [-1], all zeros. *)
Theorem fake_block_hash_edge_cases (t : table) (s : Z) (Hs : s < 0) :
  _generate_fake_block_hash 0 = lit "0x" ++ replicate 60 "f"%char ++ lit "0000" /\
  _generate_fake_block_hash s = zero_hash /\
  _block_from_value genesis_timestamp fetchone t (Some 0) None =
    match _generate_fake_block_time genesis_timestamp fetchone t 0 with
    | Ok time =>
        Ok {| bi_block_slot := 0;
              bi_block_hash := Some (_generate_fake_block_hash 0);
              bi_block_time := Some time;
              bi_parent_block_slot := None;
              bi_is_finalized := false;
              bi_parent_block_hash := Some zero_hash |}
    | Raise e => Raise e
    end /\
  _generate_fake_block_hash (0 - 1) = zero_hash.
Proof.
  split; [reflexivity |]. split.
  - unfold _generate_fake_block_hash. destruct (Z.ltb_spec s 0); [reflexivity | lia].
  - split; [| reflexivity].
    unfold _block_from_value.
    destruct (_generate_fake_block_time genesis_timestamp fetchone t 0); reflexivity.
Qed.

End BlockFromValue.

Lemma fake_block_hash_edge_cases_witness :
  _generate_fake_block_hash 0 = lit "0x" ++ replicate 60 "f"%char ++ lit "0000" /\
  _generate_fake_block_hash (-7) = zero_hash /\
  _block_from_value 1600000000 head [] (Some 0) None =
    Ok {| bi_block_slot := 0;
          bi_block_hash := Some (_generate_fake_block_hash 0);
          bi_block_time := Some 1600000000;
          bi_parent_block_slot := None;
          bi_is_finalized := false;
          bi_parent_block_hash := Some zero_hash |} /\
  _generate_fake_block_hash (0 - 1) = zero_hash.
Proof.
  apply (fake_block_hash_edge_cases 1600000000 head [] (-7)). lia.
Defined.

(** C5 as stated fails: the synthetic hash of slot 0 is not the all-zero
    hash. *)
Lemma fake_block_hash_zero_not_all_zero :
  _generate_fake_block_hash 0 <> zero_hash.
Proof. vm_compute. discriminate. Qed.

(** ** Synthetic times *)

Lemma rows_before_spec (t : table) (s : Z) (row : nearest_row) :
  In row (rows_before t s) ->
  exists r, lower_neighbour t s r /\
            row = (Some (block_slot r), block_time r, None, None).
Proof.
  unfold rows_before. intros H.
  apply in_map_iff in H as (r & <- & Hr).
  apply filter_In in Hr as [Hin Hp].
  apply andb_true_iff in Hp as [Hle Hall].
  exists r. split; [| reflexivity].
  split; [exact Hin |]. split; [lia |].
  intros r' Hin' Hle'.
  rewrite forallb_forall in Hall. specialize (Hall r' Hin').
  apply orb_true_iff in Hall as [Hn | Hok]; [| lia].
  apply negb_true_iff in Hn. lia.
Qed.

Lemma rows_after_spec (t : table) (s : Z) (row : nearest_row) :
  In row (rows_after t s) ->
  exists r, upper_neighbour t s r /\
            row = (None, None, Some (block_slot r), block_time r).
Proof.
  unfold rows_after. intros H.
  apply in_map_iff in H as (r & <- & Hr).
  apply filter_In in Hr as [Hin Hp].
  apply andb_true_iff in Hp as [Hle Hall].
  exists r. split; [| reflexivity].
  split; [exact Hin |]. split; [lia |].
  intros r' Hin' Hle'.
  rewrite forallb_forall in Hall. specialize (Hall r' Hin').
  apply orb_true_iff in Hall as [Hn | Hok]; [| lia].
  apply negb_true_iff in Hn. lia.
Qed.

Lemma ceil_slots_zero : ceil_slots 0 = Ok 0.
Proof. reflexivity. Qed.

(** Up to [2^64] the computation is defined and its result is not
    negative. *)
Lemma ceil_slots_nonneg (d : Z) :
  0 <= d < 2 ^ 64 -> exists c, ceil_slots d = Ok c /\ 0 <= c.
Proof. intros Hd. unfold ceil_slots, _one_block_sec. apply ceil_mul_nonneg. exact Hd. Qed.

(** [ceil_two_fifths] is the ceiling of [2 * d / 5]. *)
Lemma ceil_two_fifths_spec (d : Z) :
  5 * (ceil_two_fifths d - 1) < 2 * d <= 5 * ceil_two_fifths d.
Proof. unfold ceil_two_fifths. Z.div_mod_to_equations. lia. Qed.

(** Below [2^51] the binary64 computation [math.ceil(d * 0.4)] returns the
    exact ceiling: [float(d)] is exact, the product is rounded by less than
    a fifth, and multiples of five land on the integer itself. *)
Lemma ceil_slots_exact (d : Z) :
  0 <= d < 2 ^ 51 -> ceil_slots d = Ok (ceil_two_fifths d).
Proof.
  intros Hd. unfold ceil_two_fifths. destruct d as [| p | p]; [reflexivity | | lia].
  destruct (float_of_int_exact p ltac:(lia)) as (mz & ez & Hf & Hez & Hmz & Hrange).
  unfold ceil_slots, _one_block_sec, int_mul_float. rewrite Hf. cbn [bind].
  unfold float_0_4. cbn [SFmul xorb].
  assert (HM : Z.pos (mz * 7205759403792794) = Z.pos mz * 7205759403792794)
    by apply Pos2Z.inj_mul.
  assert (Hcase : exists sh, (sh = 52 \/ sh = 53) /\
                    Z.pos (digits2_pos (mz * 7205759403792794)) = 53 + sh /\
                    Z.pos (mz * 7205759403792794) < 2 ^ (53 + sh)).
  { destruct (Z.lt_ge_cases (Z.pos (mz * 7205759403792794)) (2 ^ 105)) as [Hl | Hg].
    - exists 52. split; [left; reflexivity |]. split; [| exact Hl].
      apply digits2_pos_unique. change (53 + 52 - 1) with 104. lia.
    - exists 53. split; [right; reflexivity |]. split; [| change (53 + 53) with 106; lia].
      apply digits2_pos_unique. change (53 + 53 - 1) with 105. lia. }
  destruct Hcase as (sh & Hsh & HD & HMlt).
  destruct (binary_round_aux_spec (mz * 7205759403792794) (ez + -54) sh
              ltac:(lia) HD ltac:(lia) ltac:(lia))
    as (m2 & e2 & m1 & rem & mr & Hround & HMeq & Hrem & Hmr & Hlow & He2 & Hm2).
  rewrite Hround. cbn [ceil].
  destruct (Z.leb_spec 0 e2) as [Hbad | _]; [lia |].
  f_equal. rewrite HM in HMeq, HMlt. clear HM Hround Hf HD.
  set (mx := Z.pos mz) in *. set (dd := Z.pos p) in *.
  set (T := 2 ^ (- ez)) in *.
  assert (HT : 4 <= T).
  { unfold T. change 4 with (2 ^ 2). apply Z.pow_le_mono_r; lia. }
  set (N := (2 * dd) / 5). set (r := (2 * dd) mod 5).
  assert (H2d : 2 * dd = 5 * N + r /\ 0 <= r < 5 /\ 0 <= N).
  { unfold N, r. Z.div_mod_to_equations. lia. }
  destruct H2d as (H2d & Hr & HN).
  set (NT := N * T).
  assert (H2mx : 2 * mx = 5 * NT + r * T).
  { rewrite Hmz. unfold NT.
    replace (2 * (dd * T)) with (2 * dd * T) by ring. rewrite H2d. ring. }
  assert (HNT : 0 <= NT) by (unfold NT; apply Z.mul_nonneg_nonneg; lia).
  assert (HR : exists c, 0 < c /\ 2 ^ (- e2) = c * T /\
                         c * 2 ^ (e2 - (ez + -54 + sh)) * 2 ^ sh = 2 ^ 54).
  { assert (Hsplit : forall a, 0 <= a -> 2 ^ (- ez + a) = 2 ^ a * T).
    { intros a Ha. rewrite Z.pow_add_r by lia. unfold T. ring. }
    destruct Hsh as [-> | ->].
    - assert (Hc : e2 = ez + -54 + 52 \/ e2 = ez + -54 + 52 + 1) by lia.
      destruct Hc as [-> | ->].
      + exists 4. split; [lia |]. split.
        * replace (- (ez + -54 + 52)) with (- ez + 2) by lia. apply Hsplit. lia.
        * rewrite Z.sub_diag. reflexivity.
      + exists 2. split; [lia |]. split.
        * replace (- (ez + -54 + 52 + 1)) with (- ez + 1) by lia. apply Hsplit. lia.
        * replace (ez + -54 + 52 + 1 - (ez + -54 + 52)) with 1 by lia. reflexivity.
    - assert (Hc : e2 = ez + -54 + 53 \/ e2 = ez + -54 + 53 + 1) by lia.
      destruct Hc as [-> | ->].
      + exists 2. split; [lia |]. split.
        * replace (- (ez + -54 + 53)) with (- ez + 1) by lia. apply Hsplit. lia.
        * rewrite Z.sub_diag. reflexivity.
      + exists 1. split; [lia |]. split.
        * replace (- (ez + -54 + 53 + 1)) with (- ez + 0) by lia. apply Hsplit. lia.
        * replace (ez + -54 + 53 + 1 - (ez + -54 + 53)) with 1 by lia. reflexivity. }
  destruct HR as (c & Hc & HR & Hscale).
  rewrite HR.
  set (Q := 2 ^ (e2 - (ez + -54 + sh))) in *.
  assert (HNR : N * (c * T) = c * NT) by (unfold NT; ring).
  assert (Hk : (r = 0 /\ (2 * dd + 4) / 5 = N) \/
               (1 <= r /\ (2 * dd + 4) / 5 = N + 1)).
  { Z.div_mod_to_equations. lia. }
  assert (HQ : Q = 1 \/ Q = 2).
  { unfold Q. assert (Hc2 : e2 - (ez + -54 + sh) = 0 \/ e2 - (ez + -54 + sh) = 1) by lia.
    destruct Hc2 as [-> | ->]; [left | right]; reflexivity. }
  apply ceil_quotient; [lia |].
  clearbody Q NT T N r mx dd. clear Hmz HR Hlow He2 Hez.
  destruct Hsh as [-> | ->]; destruct HQ as [-> | ->];
    [ assert (c = 4) by lia | assert (c = 2) by lia
    | assert (c = 2) by lia | assert (c = 1) by lia ]; subst c;
    destruct Hk as [[Hr0 ->] | [Hr1 ->]]; destruct Hmr as [[-> Hhalf] | [-> Hhalf]];
    (assert (Hrv : r = 0 \/ r = 1 \/ r = 2 \/ r = 3 \/ r = 4) by lia;
     destruct Hrv as [-> | [-> | [-> | [-> | ->]]]]; lia).
Qed.

Section FakeBlockTime.

Variable genesis_timestamp : Z.
Variable fetchone : list nearest_row -> option nearest_row.

(** C2 (amended): when the requested slot [s] has stored neighbours, with
    stored times and slot distances below [2^51], the time synthesized by
    [_generate_fake_block_time(s)] is computed from the one neighbour row
    [r] the cursor delivers: from a lower neighbour it is
    [t_lower + ceil((s - s_lower) * 0.4)], at least [t_lower]; from an upper
    neighbour it is [t_upper - ceil((s_upper - s) * 0.4)], at most
    [t_upper]; and it equals the neighbour's time when [s] is the
    neighbour's slot.  The other neighbour does not bound it. *)
Theorem fake_block_time_one_sided (t : table) (s : Z)
    (Hfetch : fetchone_of (nearest_rows t s) (fetchone (nearest_rows t s)))
    (Hstored : nearest_rows t s <> [])
    (Hneighbours :
       forall r, lower_neighbour t s r \/ upper_neighbour t s r ->
                 block_time r <> None /\ Z.abs (s - block_slot r) < 2 ^ 51) :
  exists r tr,
    block_time r = Some tr /\
    ((lower_neighbour t s r /\
      fetchone (nearest_rows t s) = Some (Some (block_slot r), Some tr, None, None) /\
      _generate_fake_block_time genesis_timestamp fetchone t s
        = Ok (tr + ceil_two_fifths (s - block_slot r)) /\
      tr <= tr + ceil_two_fifths (s - block_slot r)) \/
     (upper_neighbour t s r /\
      fetchone (nearest_rows t s) = Some (None, None, Some (block_slot r), Some tr) /\
      _generate_fake_block_time genesis_timestamp fetchone t s
        = Ok (tr - ceil_two_fifths (block_slot r - s)) /\
      tr - ceil_two_fifths (block_slot r - s) <= tr)) /\
    (block_slot r = s ->
     _generate_fake_block_time genesis_timestamp fetchone t s = Ok tr).
Proof.
  unfold _generate_fake_block_time.
  destruct (fetchone (nearest_rows t s)) as [row |] eqn:Hrow;
    cbn [fetchone_of] in Hfetch; [| congruence].
  apply in_app_or in Hfetch as [Hb | Ha].
  - apply rows_before_spec in Hb as (r & Hlow & ->).
    destruct (Hneighbours r (or_introl Hlow)) as [Htime Hd].
    destruct Hlow as (Hin & Hle & Hmax).
    destruct (block_time r) as [tr |] eqn:Htr; [| destruct (Htime eq_refl)].
    pose proof (ceil_two_fifths_spec (s - block_slot r)) as Hc.
    rewrite (ceil_slots_exact (s - block_slot r)) by lia. cbn [bind].
    exists r, tr. split; [exact Htr |]. split.
    + left. split; [exact (conj Hin (conj Hle Hmax)) |].
      split; [reflexivity |]. split; [reflexivity | lia].
    + intros Heq. f_equal. lia.
  - apply rows_after_spec in Ha as (r & Hup & ->).
    destruct (Hneighbours r (or_intror Hup)) as [Htime Hd].
    destruct Hup as (Hin & Hle & Hmin).
    destruct (block_time r) as [tr |] eqn:Htr; [| destruct (Htime eq_refl)].
    pose proof (ceil_two_fifths_spec (block_slot r - s)) as Hc.
    rewrite (ceil_slots_exact (block_slot r - s)) by lia. cbn [bind].
    exists r, tr. split; [exact Htr |]. split.
    + right. split; [exact (conj Hin (conj Hle Hmin)) |].
      split; [reflexivity |]. split; [reflexivity | lia].
    + intros Heq. f_equal. lia.
Qed.

End FakeBlockTime.

Lemma fake_block_time_one_sided_witness :
  _generate_fake_block_time 0 head [stored 10 1000; stored 20 1010] 12 = Ok 1001.
Proof.
  destruct (fake_block_time_one_sided 0 head [stored 10 1000; stored 20 1010] 12)
    as (r & tr & _ & [(_ & Hrow & Hv & _) | (_ & Hrow & _)] & _).
  - simpl. left. reflexivity.
  - simpl. discriminate.
  - intros r [(Hin & _) | (Hin & _)];
      destruct Hin as [<- | [<- | []]]; simpl; (split; [discriminate | lia]).
  - injection Hrow as Hslot Htime. rewrite Hv, <- Hslot, <- Htime. reflexivity.
  - discriminate Hrow.
Defined.

(** C2 as stated fails: with neighbours at slots 10 and 20 and times 1000
    and 1001, the time synthesized for slot 15 is 1002 when the cursor
    delivers the lower row and 999 when it delivers the upper row; neither
    lies in [[1000, 1001]]. *)
Lemma fake_block_time_outside_neighbours :
  let t := [stored 10 1000; stored 20 1001] in
  nearest_rows t 15 =
    [(Some 10, Some 1000, None, None); (None, None, Some 20, Some 1001)] /\
  _generate_fake_block_time 0 head t 15 = Ok 1002 /\
  _generate_fake_block_time 0 last t 15 = Ok 999 /\
  ~ (1000 <= 1002 <= 1001) /\ ~ (1000 <= 999 <= 1001).
Proof.
  cbv zeta. repeat split; try (vm_compute; reflexivity); lia.
Qed.

(** ** Branch switches *)

Lemma slot_in_spec (slots : list Z) (r : block_row) :
  slot_in slots r = true <-> In (block_slot r) slots.
Proof.
  unfold slot_in. rewrite existsb_exists. split.
  - intros (x & Hin & Heq). apply Z.eqb_eq in Heq. congruence.
  - intros Hin. exists (block_slot r). split; [exact Hin | apply Z.eqb_refl].
Qed.

Lemma sql_update_in (p : block_row -> bool) (f : block_row -> block_row)
    (t : table) (r' : block_row) :
  In r' (sql_update p f t) <->
  exists r, In r t /\ r' = (if p r then f r else r).
Proof.
  unfold sql_update. rewrite in_map_iff. split.
  - intros (r & Heq & Hin). exists r. split; [exact Hin | congruence].
  - intros (r & Hin & Heq). exists r. split; [congruence | exact Hin].
Qed.

Lemma sql_delete_in (p : block_row -> bool) (t : table) (r : block_row) :
  In r (sql_delete p t) <-> In r t /\ p r = false.
Proof.
  unfold sql_delete. rewrite filter_In, negb_true_iff. reflexivity.
Qed.

Lemma activate_block_list_ok (t : table) (base : Z) (slots : list Z) :
  slots <> [] ->
  exists t', activate_block_list t base slots = Ok t' /\
    map block_slot t' = map block_slot t /\
    forall r, In r t' -> base < block_slot r ->
      (is_active r = true <-> In (block_slot r) slots).
Proof.
  intros Hne. unfold activate_block_list.
  destruct slots as [| x rest] eqn:Hs; [congruence |]. rewrite <- Hs.
  eexists. split; [reflexivity |]. split.
  - unfold sql_update. rewrite !map_map. apply map_ext.
    intros r. destruct (base <? block_slot r); cbn [block_slot];
      destruct (slot_in slots _); reflexivity.
  - intros r' Hin Hbase.
    apply sql_update_in in Hin as (r1 & Hin1 & ->).
    apply sql_update_in in Hin1 as (r & Hin & ->).
    rewrite <- slot_in_spec.
    destruct (Z.ltb_spec base (block_slot r)) as [Hlt | Hge].
    + destruct (slot_in slots _) eqn:Hsl; cbn [is_active block_slot slot_in] in *.
      * split; [intros _ | reflexivity].
        unfold slot_in in *. exact Hsl.
      * split; [discriminate |]. unfold slot_in in *. cbn [block_slot] in *.
        congruence.
    + destruct (slot_in slots r); cbn [block_slot] in Hbase; lia.
Qed.

Lemma finalize_block_list_ok (t : table) (base : Z) (slots : list Z) :
  slots <> [] ->
  exists t' last_slot,
    last slots = Some last_slot /\
    finalize_block_list t base slots = Ok t' /\
    (forall r, In r t' -> In (block_slot r) slots ->
       is_finalized r = true /\ is_active r = true) /\
    (forall r, In r t' -> base < block_slot r < last_slot -> is_active r = true).
Proof.
  intros Hne. unfold finalize_block_list.
  destruct (last slots) as [l |] eqn:Hl.
  2: { apply last_None in Hl. congruence. }
  eexists _, l. split; [reflexivity |]. split; [reflexivity |]. split.
  - intros r' Hin Hslot.
    apply sql_delete_in in Hin as [Hin _].
    apply sql_update_in in Hin as (r & Hin & ->).
    destruct (slot_in slots r) eqn:Hsl; [split; reflexivity |].
    apply slot_in_spec in Hslot. congruence.
  - intros r' Hin Hbetween.
    apply sql_delete_in in Hin as [_ Hp].
    destruct (is_active r'); [reflexivity |].
    destruct (Z.ltb_spec base (block_slot r')); [| lia].
    destruct (Z.ltb_spec (block_slot r') l); [| lia].
    discriminate.
Qed.

(** C3 (amended): after [activate_block_list(base, S)], among the stored rows
    with [slot > base] exactly those whose slot is in [S] have
    [is_active = true]; and after [finalize_block_list(base, S)], every
    stored row whose slot is in [S] has [is_finalized = true] and
    [is_active = true], and no row with [base < slot < last(S)] and
    [is_active = false] remains, [last(S)] being the final element of [S]. *)
Theorem branch_switch (t : table) (base : Z) (slots : list Z)
    (Hne : slots <> []) :
  (exists t', activate_block_list t base slots = Ok t' /\
     map block_slot t' = map block_slot t /\
     forall r, In r t' -> base < block_slot r ->
       (is_active r = true <-> In (block_slot r) slots)) /\
  (exists t' last_slot,
     last slots = Some last_slot /\
     finalize_block_list t base slots = Ok t' /\
     (forall r, In r t' -> In (block_slot r) slots ->
        is_finalized r = true /\ is_active r = true) /\
     (forall r, In r t' -> base < block_slot r < last_slot -> is_active r = true)).
Proof.
  split; [apply activate_block_list_ok | apply finalize_block_list_ok]; exact Hne.
Qed.

Lemma branch_switch_witness :
  (exists t', activate_block_list [orphan 3; stored 4 7; orphan 9] 3 [4; 9] = Ok t' /\
     map block_slot t' = map block_slot [orphan 3; stored 4 7; orphan 9] /\
     forall r, In r t' -> 3 < block_slot r ->
       (is_active r = true <-> In (block_slot r) [4; 9])) /\
  (exists t' last_slot,
     last [4; 9] = Some last_slot /\
     finalize_block_list [orphan 3; stored 4 7; orphan 9] 3 [4; 9] = Ok t' /\
     (forall r, In r t' -> In (block_slot r) [4; 9] ->
        is_finalized r = true /\ is_active r = true) /\
     (forall r, In r t' -> 3 < block_slot r < last_slot -> is_active r = true)).
Proof.
  apply (branch_switch [orphan 3; stored 4 7; orphan 9] 3 [4; 9]). discriminate.
Defined.

(** C3 as stated fails: with [S = [5; 3]] the deletion stops below [last(S)
    = 3], so the inactive row at slot 4, which lies between [base = 0] and
    [max(S) = 5], remains. *)
Lemma finalize_keeps_row_below_max :
  max_slot [5; 3] = Some 5 /\
  finalize_block_list [orphan 4] 0 [5; 3] = Ok [orphan 4] /\
  In (orphan 4) [orphan 4] /\
  0 < block_slot (orphan 4) < 5 /\
  is_active (orphan 4) = false.
Proof.
  repeat split; try reflexivity; simpl; auto; lia.
Qed.

(** ** The invariant [is_finalized => is_active] *)

Section Mutations.

Variable _insert_batch : table -> list block_row -> table.

(** The batch insert stores given rows and leaves stored rows as they are. *)
Hypothesis insert_batch_rows :
  forall t rows r, In r (_insert_batch t rows) -> In r t \/ In r rows.

Lemma set_block_list_invariant (t : table) (blocks : list SolBlockInfo) :
  finalized_active t ->
  finalized_active (set_block_list _insert_batch t blocks).
Proof.
  intros Hinv r Hin Hfin. unfold set_block_list in Hin.
  apply insert_batch_rows in Hin as [Hin | Hin]; [apply Hinv; assumption |].
  apply in_map_iff in Hin as (b & <- & _). exact Hfin.
Qed.

Lemma finalize_block_list_invariant (t t' : table) (base : Z) (slots : list Z) :
  finalized_active t ->
  finalize_block_list t base slots = Ok t' ->
  finalized_active t'.
Proof.
  intros Hinv Hrun r' Hin Hfin. unfold finalize_block_list in Hrun.
  destruct (last slots); [| discriminate].
  injection Hrun as <-.
  apply sql_delete_in in Hin as [Hin _].
  apply sql_update_in in Hin as (r & Hin & ->).
  destruct (slot_in slots r); [reflexivity | apply Hinv; assumption].
Qed.

Lemma activate_block_list_invariant (t t' : table) (base : Z) (slots : list Z) :
  finalized_active t ->
  keeps_finalized t (ActivateBlockList base slots) ->
  activate_block_list t base slots = Ok t' ->
  finalized_active t'.
Proof.
  intros Hinv Hkeep Hrun r' Hin Hfin. unfold activate_block_list in Hrun.
  destruct slots as [| x rest] eqn:Hs; [discriminate |]. rewrite <- Hs in *.
  injection Hrun as <-.
  apply sql_update_in in Hin as (r1 & Hin1 & ->).
  apply sql_update_in in Hin1 as (r & Hin & ->).
  destruct (Z.ltb_spec base (block_slot r)) as [Hlt | Hge].
  - destruct (slot_in slots _) eqn:Hsl; [reflexivity |].
    cbn [is_finalized] in Hfin.
    pose proof (Hkeep r Hin Hfin Hlt) as Hslot.
    apply slot_in_spec in Hslot.
    unfold slot_in in *. cbn [block_slot] in Hsl. congruence.
  - destruct (slot_in slots r); [reflexivity | apply Hinv; assumption].
Qed.

(** C4 (amended): [is_finalized => is_active] is preserved by every
    [set_block_list] and [finalize_block_list], for any arguments, and by
    every [activate_block_list(base, S)] whose [S] holds the slot of each
    finalized row above [base]; so it holds after any sequence of such
    mutations. *)
Theorem finalized_rows_stay_active (t t' : table) (ms : list mutation)
    (Hinv : finalized_active t) (Hrun : mutates _insert_batch t ms t') :
  finalized_active t'.
Proof.
  induction Hrun as [t | t m t1 ms t2 Hkeep Happly _ IH]; [exact Hinv |].
  apply IH. destruct m as [blocks | base slots | base slots]; cbn in Happly.
  - injection Happly as <-. apply set_block_list_invariant. exact Hinv.
  - eapply finalize_block_list_invariant; eassumption.
  - eapply activate_block_list_invariant; eassumption.
Qed.

End Mutations.

Lemma finalized_rows_stay_active_witness :
  finalized_active
    [ {| block_slot := 1; block_hash := None; block_time := None;
         parent_block_slot := None; is_finalized := true; is_active := true |};
      {| block_slot := 2; block_hash := None; block_time := None;
         parent_block_slot := None; is_finalized := true; is_active := true |};
      {| block_slot := 3; block_hash := None; block_time := None;
         parent_block_slot := None; is_finalized := false; is_active := true |} ].
Proof.
  apply (finalized_rows_stay_active append_batch
           (fun t rows r H => in_app_or t rows r H)
           []
           _
           [ SetBlockList [new_block 1 true; new_block 2 false; new_block 3 false];
             ActivateBlockList 1 [2; 3];
             FinalizeBlockList 0 [1; 2] ]).
  - intros r [].
  - eapply mutates_cons; [exact I | reflexivity |].
    eapply mutates_cons.
    + intros r [<- | [<- | [<- | []]]]; simpl; intros; try discriminate; lia.
    + reflexivity.
    + eapply mutates_cons; [exact I | reflexivity | apply mutates_nil].
Defined.

(** C4 as stated fails: [activate_block_list(0, [7])] deactivates the
    finalized row at slot 5. *)
Lemma activate_deactivates_finalized :
  finalized_active [stored 5 1000] /\
  activate_block_list [stored 5 1000] 0 [7] =
    Ok [ {| block_slot := 5; block_hash := None; block_time := Some 1000;
            parent_block_slot := None; is_finalized := true; is_active := false |} ] /\
  ~ finalized_active
      [ {| block_slot := 5; block_hash := None; block_time := Some 1000;
           parent_block_slot := None; is_finalized := true; is_active := false |} ].
Proof.
  split; [| split].
  - intros r [<- | []] _. reflexivity.
  - reflexivity.
  - intros H. specialize (H _ (or_introl eq_refl) eq_refl). discriminate.
Qed.

End BlockStoreFacts.

(* ===================================================================== *)
(** * The mempool transaction cache *)
(* ===================================================================== *)

Module TxDictFacts.
Import TxDict.

Section Cache.

Context {NeonTx : Type}.

Local Abbreviation Item := (_Item NeonTx).
Local Abbreviation Cache := (MPTxDict NeonTx).
Local Abbreviation Op := (op NeonTx).

Implicit Types (d : Cache) (i item : Item) (q : list Item)
  (dict : gmap string Item) (ops : list Op).

Lemma run_cons (o : Op) ops d : run (o :: ops) d = run ops (step d o).
Proof. reflexivity. Qed.

Lemma run_app ops1 ops2 d : run (ops1 ++ ops2) d = run ops2 (run ops1 d).
Proof. unfold run. apply fold_left_app. Qed.

Lemma get_answer (sig : string) d :
  get sig d = answer <$> (_neon_tx_dict d !! sig).
Proof.
  unfold get, answer. destruct (_neon_tx_dict d !! sig) as [i |]; [| reflexivity].
  simpl. destruct (error i); reflexivity.
Qed.

(** ** The sweep loop *)

(** The loop drops a prefix of expired items, deletes their signatures from
    the map, and stops at the first item that has not expired. *)
Lemma clear_loop_spec (limit : Z) q :
  forall dict,
  exists popped,
    q = popped ++ (clear_loop limit q dict).1 /\
    Forall (fun i => last_time i < limit) popped /\
    (clear_loop limit q dict).2 =
      fold_left (fun m i => delete (neon_sig i) m) popped dict /\
    match (clear_loop limit q dict).1 with
    | [] => True
    | i :: _ => limit <= last_time i
    end.
Proof.
  induction q as [| item rest IH]; intros dict.
  - exists []. repeat split; constructor.
  - cbn [clear_loop]. destruct (Z.ltb_spec (last_time item) limit) as [Hlt | Hge].
    + destruct (IH (delete (neon_sig item) dict)) as (popped & Hq & Hall & Hd & Hhd).
      exists (item :: popped). split; [simpl; f_equal; exact Hq |].
      split; [constructor; assumption |]. split; [exact Hd | exact Hhd].
    + exists []. repeat split; [constructor | exact Hge].
Qed.

Lemma fold_delete_gone (popped : list Item) :
  forall dict (k : string),
    In k (map neon_sig popped) ->
    fold_left (fun m i => delete (neon_sig i) m) popped dict !! k = None.
Proof.
  induction popped as [| i popped IH]; intros dict k Hin; [destruct Hin |].
  cbn [fold_left map] in *.
  destruct (in_dec string_dec k (map neon_sig popped)) as [Hrest | Hrest].
  - apply IH. exact Hrest.
  - destruct Hin as [Hk | Hin]; [subst k | contradiction].
    clear IH. revert dict. induction popped as [| j popped IH]; intros dict.
    + simpl. apply lookup_delete_eq.
    + cbn [fold_left map] in *.
      rewrite delete_delete. apply IH. intros H. apply Hrest. right. exact H.
Qed.

Lemma fold_delete_kept (popped : list Item) :
  forall dict (k : string),
    ~ In k (map neon_sig popped) ->
    fold_left (fun m i => delete (neon_sig i) m) popped dict !! k = dict !! k.
Proof.
  induction popped as [| i popped IH]; intros dict k Hnin; [reflexivity |].
  cbn [fold_left map] in *.
  rewrite IH by (intros H; apply Hnin; right; exact H).
  apply lookup_delete_ne. intros Heq. apply Hnin. left. exact Heq.
Qed.

(** A sweep, spelled out on the state. *)
Lemma clear_spec (now : Z) d :
  exists popped,
    _neon_tx_queue d = popped ++ _neon_tx_queue (clear now d) /\
    Forall (fun i => last_time i < Z.max (now - _life_time) 0) popped /\
    (forall k, In k (map neon_sig popped) ->
               _neon_tx_dict (clear now d) !! k = None) /\
    (forall k, ~ In k (map neon_sig popped) ->
               _neon_tx_dict (clear now d) !! k = _neon_tx_dict d !! k) /\
    match _neon_tx_queue (clear now d) with
    | [] => True
    | i :: _ => Z.max (now - _life_time) 0 <= last_time i
    end.
Proof.
  unfold clear. destruct (_neon_tx_queue d) as [| h rest] eqn:Hq.
  - exists []. rewrite Hq. repeat split; try constructor. intros k [].
  - destruct (clear_loop_spec (Z.max (now - _life_time) 0) (h :: rest)
                (_neon_tx_dict d)) as (popped & Hsplit & Hall & Hd & Hhd).
    destruct (clear_loop _ (h :: rest) _) as [queue dict] eqn:Hloop.
    cbn [fst snd] in *. exists popped. cbn [_neon_tx_queue _neon_tx_dict].
    split; [exact Hsplit |]. split; [exact Hall |].
    split; [| split; [| exact Hhd]]; intros k Hk; rewrite Hd.
    + apply fold_delete_gone. exact Hk.
    + apply fold_delete_kept. exact Hk.
Qed.


Lemma clear_lookup_none (now : Z) d (k : string) :
  _neon_tx_dict d !! k = None -> _neon_tx_dict (clear now d) !! k = None.
Proof.
  intros Hk. destruct (clear_spec now d) as (popped & _ & _ & Hgone & Hkept & _).
  destruct (in_dec string_dec k (map neon_sig popped)) as [Hin | Hnin].
  - apply Hgone. exact Hin.
  - rewrite Hkept by exact Hnin. exact Hk.
Qed.

(** ** The map stays within the queue *)

Lemma step_map_within_queue d (o : Op) :
  map_within_queue d -> map_within_queue (step d o).
Proof.
  intros Hinv. destruct o as [now sig tx exc | now]; cbn [step].
  - intros k i. unfold add. cbn [_neon_tx_dict _neon_tx_queue].
    destruct (decide (sig = k)) as [-> | Hne].
    + rewrite lookup_insert_eq. intros [= <-].
      split; [apply in_or_app; right; left; reflexivity | reflexivity].
    + rewrite lookup_insert_ne by exact Hne. intros Hk.
      destruct (Hinv k i Hk) as [Hin Hsig].
      split; [apply in_or_app; left; exact Hin | exact Hsig].
  - intros k i Hk.
    destruct (clear_spec now d) as (popped & Hq & _ & Hgone & Hkept & _).
    destruct (in_dec string_dec k (map neon_sig popped)) as [Hin | Hnin].
    + rewrite (Hgone k Hin) in Hk. discriminate.
    + rewrite (Hkept k Hnin) in Hk. destruct (Hinv k i Hk) as [Hi Hsig].
      split; [| exact Hsig].
      rewrite Hq in Hi. apply in_app_or in Hi as [Hpop | Hrest]; [| exact Hrest].
      exfalso. apply Hnin. rewrite <- Hsig. apply in_map. exact Hpop.
Qed.

Lemma run_map_within_queue ops :
  forall d, map_within_queue d -> map_within_queue (run ops d).
Proof.
  induction ops as [| o ops IH]; intros d Hinv; [exact Hinv |].
  rewrite run_cons. apply IH, step_map_within_queue, Hinv.
Qed.

Lemma init_map_within_queue : map_within_queue (init (NeonTx := NeonTx)).
Proof. intros k i Hk. cbn in Hk. rewrite lookup_empty in Hk. discriminate. Qed.

(** ** Without repeated signatures the queue stays within the map *)

Lemma NoDup_snoc (l : list string) (x : string) :
  NoDup l -> ~ In x l -> NoDup (l ++ [x]).
Proof.
  intros Hl Hx. apply NoDup_app. split; [exact Hl |]. split.
  - intros y Hy Hyx. apply list_elem_of_In in Hy. apply list_elem_of_In in Hyx.
    destruct Hyx as [<- | []]. contradiction.
  - apply NoDup_singleton.
Qed.

Lemma step_queue_within_map d (o : Op) :
  match o with
  | Add _ sig _ _ => ~ In sig (map neon_sig (_neon_tx_queue d))
  | Clear _ => True
  end ->
  queue_within_map d -> queue_within_map (step d o).
Proof.
  intros Hfresh [Hnd Hinv]. destruct o as [now sig tx exc | now]; cbn [step].
  - unfold add, queue_within_map. cbn [_neon_tx_dict _neon_tx_queue].
    split.
    + rewrite map_app. apply NoDup_snoc; assumption.
    + intros i Hi. apply in_app_or in Hi as [Hold | [<- | []]].
      * rewrite lookup_insert_ne; [apply Hinv; exact Hold |].
        intros ->. apply Hfresh. apply in_map. exact Hold.
      * cbn [neon_sig]. apply lookup_insert_eq.
  - destruct (clear_spec now d) as (popped & Hq & _ & _ & Hkept & _).
    rewrite Hq, map_app in Hnd. apply NoDup_app in Hnd as (_ & Hdisj & Hnd').
    split; [exact Hnd' |].
    intros i Hi. rewrite Hkept.
    + apply Hinv. rewrite Hq. apply in_or_app. right. exact Hi.
    + intros Hpop. apply list_elem_of_In in Hpop.
      apply (Hdisj _ Hpop). apply list_elem_of_In, in_map. exact Hi.
Qed.

Lemma run_queue_within_map ops :
  forall d, fresh_adds ops d -> queue_within_map d -> queue_within_map (run ops d).
Proof.
  induction ops as [| o ops IH]; intros d Hfresh Hinv; [exact Hinv |].
  rewrite run_cons. destruct Hfresh as [Ho Hrest].
  apply IH; [exact Hrest |]. apply step_queue_within_map; assumption.
Qed.

Lemma init_queue_within_map : queue_within_map (init (NeonTx := NeonTx)).
Proof. split; [constructor | intros i []]. Qed.

(** C7 (amended): after every sequence of [add] and [clear] calls, for any
    signatures and clock readings, every item reachable through the
    signature-to-item map is in the expiry deque, so none is reachable after
    it has been expired from the deque; and when no [add] repeats a signature
    that is still queued, the map and the deque hold exactly the same
    items. *)
Theorem map_and_queue_agree ops (Hfresh : fresh_adds ops init) :
  (forall ops' i, in_dict (run ops' init) i -> in_queue (run ops' init) i) /\
  (forall i, in_dict (run ops init) i <-> in_queue (run ops init) i).
Proof.
  split.
  - intros ops' i [k Hk].
    apply (run_map_within_queue ops' init init_map_within_queue k i Hk).
  - intros i. split.
    + intros [k Hk].
      apply (run_map_within_queue ops init init_map_within_queue k i Hk).
    + intros Hi.
      destruct (run_queue_within_map ops init Hfresh init_queue_within_map)
        as [_ Hinv].
      exists (neon_sig i). apply Hinv. exact Hi.
Qed.

(** ** Visibility inside the TTL window *)








(** ** Expiry *)

Lemma sorted_snoc q item :
  StronglySorted (fun i j => last_time i <= last_time j) q ->
  Forall (fun i => last_time i <= last_time item) q ->
  StronglySorted (fun i j => last_time i <= last_time j) (q ++ [item]).
Proof.
  induction q as [| x q IH]; intros Hs Hb; cbn [app].
  - constructor; constructor.
  - inversion Hs as [| ? ? Hs' Hx]; subst. inversion Hb as [| ? ? Hxb Hb']; subst.
    constructor; [apply IH; assumption |].
    apply Forall_app. split; [exact Hx | constructor; [exact Hxb | constructor]].
Qed.

Lemma sorted_suffix (popped q : list Item) :
  StronglySorted (fun i j => last_time i <= last_time j) (popped ++ q) ->
  StronglySorted (fun i j => last_time i <= last_time j) q.
Proof.
  induction popped as [| x popped IH]; intros Hs; [exact Hs |].
  inversion Hs; subst. apply IH. assumption.
Qed.

Lemma step_sorted (b : Z) d (o : Op) :
  sorted_until b d -> b <= op_time o -> sorted_until (op_time o) (step d o).
Proof.
  intros [Hs Hb] Ho. destruct o as [now sig tx exc | now]; cbn [step op_time] in *.
  - unfold add, sorted_until. cbn [_neon_tx_queue]. split.
    + apply sorted_snoc; [exact Hs |]. cbn [last_time].
      eapply List.Forall_impl; [| exact Hb]. intros i Hi. simpl in Hi. lia.
    + apply Forall_app. split.
      * eapply List.Forall_impl; [| exact Hb]. intros i Hi. simpl in Hi. lia.
      * constructor; [cbn [last_time]; lia | constructor].
  - destruct (clear_spec now d) as (popped & Hq & _).
    rewrite Hq in Hs, Hb. split.
    + apply (sorted_suffix popped). exact Hs.
    + apply Forall_app in Hb as [_ Hb].
      eapply List.Forall_impl; [| exact Hb]. intros i Hi. simpl in Hi. lia.
Qed.

Lemma run_sorted ops :
  forall (b : Z) d,
    sorted_until b d -> ordered_from b ops -> exists b', sorted_until b' (run ops d).
Proof.
  induction ops as [| o ops IH]; intros b d Hd Hord; [exists b; exact Hd |].
  destruct Hord as [Ho Hrest]. rewrite run_cons.
  apply (IH (op_time o)); [apply (step_sorted b); assumption | exact Hrest].
Qed.

Lemma ordered_from_prefix ops1 ops2 :
  forall b, ordered_from b (ops1 ++ ops2) -> ordered_from b ops1.
Proof.
  induction ops1 as [| o ops1 IH]; intros b H; [exact I |].
  destruct H as [Ho Hrest]. split; [exact Ho | apply IH; exact Hrest].
Qed.

(** After a sweep of a time-ordered queue no expired item is left. *)
Lemma clear_sorted (now b : Z) d :
  sorted_until b d ->
  Forall (fun i => Z.max (now - _life_time) 0 <= last_time i)
         (_neon_tx_queue (clear now d)).
Proof.
  intros [Hs _].
  destruct (clear_spec now d) as (popped & Hq & _ & _ & _ & Hhd).
  rewrite Hq in Hs. apply sorted_suffix in Hs.
  destruct (_neon_tx_queue (clear now d)) as [| h rest]; [constructor |].
  inversion Hs as [| ? ? _ Hrest]; subst.
  constructor; [exact Hhd |].
  eapply List.Forall_impl; [| exact Hrest]. intros i Hi. simpl in Hi. lia.
Qed.


Lemma init_sorted : sorted_until 0 (init (NeonTx := NeonTx)).
Proof. split; constructor. Qed.


End Cache.



(** C7 as stated fails: after two [add] calls under one signature the deque
    holds both items and the map only the newer one. *)
Lemma repeated_signature_splits_map_and_queue :
  let older := {| last_time := 0; neon_sig := "a"; neon_tx := 1%nat; error := None |} in
  let d := run [Add 0 "a" 1%nat None; Add 1 "a" 2%nat None] init in
  in_queue d older /\ ~ in_dict d older.
Proof.
  cbv zeta. split.
  - left. reflexivity.
  - intros [k Hk]. cbn in Hk.
    destruct (decide (k = "a")) as [-> | Hne].
    + rewrite lookup_insert_eq in Hk. discriminate.
    + rewrite !lookup_insert_ne in Hk by congruence.
      rewrite lookup_empty in Hk. discriminate.
Qed.

Lemma map_and_queue_agree_witness :
  (forall ops' i, in_dict (run ops' (init (NeonTx := nat))) i ->
                  in_queue (run ops' init) i) /\
  (forall i,
     in_dict (run [Add 0 "a" 1%nat None; Add 1 "b" 2%nat None; Clear 20] init) i <->
     in_queue (run [Add 0 "a" 1%nat None; Add 1 "b" 2%nat None; Clear 20] init) i).
Proof.
  apply (map_and_queue_agree
           [Add 0 "a" 1%nat None; Add 1 "b" 2%nat None; Clear 20]).
  simpl. repeat split; auto.
  intros [H | []]. discriminate.
Defined.

End TxDictFacts.

(* ===================================================================== *)
(** * The mempool service entry point *)
(* ===================================================================== *)

Module ServiceFacts.
Import Service.

Section OnDataReceived.

Context {V : Type}.

Variable schedule_mp_tx_request : request -> outcome V.
Variable get_pending_tx_nonce : request -> outcome V.
Variable get_pending_tx_by_hash : request -> outcome V.
Variable get_gas_price : outcome V.
Variable suspend_processing : outcome V.
Variable resume_processing : outcome V.
Variable replicate : request -> outcome V.
Variable on_mp_tx_bunch : request -> outcome V.
Variable str_type : MPRequestType -> string.
Variable str_command : MaintenanceCommand -> string.

Local Abbreviation received :=
  (on_data_received schedule_mp_tx_request get_pending_tx_nonce
     get_pending_tx_by_hash get_gas_price suspend_processing resume_processing
     replicate on_mp_tx_bunch str_type str_command).

Local Abbreviation mp_processed :=
  (process_mp_request schedule_mp_tx_request get_pending_tx_nonce
     get_pending_tx_by_hash get_gas_price str_type).

Local Abbreviation maintenance_processed :=
  (process_maintenance_request suspend_processing resume_processing
     replicate on_mp_tx_bunch str_command).

(** An [Exception] raised for a maintenance request that carries [req_id]
    and [command] is logged under the request id and turned into
    [Result("Request failed")]. *)
Lemma maintenance_failure_caught (rq : request) (id : string)
    (c : MaintenanceCommand) (log : list log_entry) (err : raised) :
  class_of rq = IsMaintenanceRequest ->
  req_id rq = Some id -> command rq = Some c ->
  maintenance_processed rq = (log, Raise err) ->
  is_Exception err = true ->
  received rq =
    (log ++ _on_exception (Some id)
              ("Failed to process maintenance request: " ++ str_command c) err,
     Return (Result "Request failed")).
Proof.
  intros Hclass Hid Hc Hrun Hexc. unfold on_data_received.
  rewrite Hclass, Hrun, Hexc. unfold on_exception_clause. rewrite Hid, Hc.
  reflexivity.
Qed.

(** An [Exception] raised for a service request, which has no [command],
    leaves the [except] clause as an [AttributeError]. *)
Lemma mp_failure_escapes (rq : request) (id : string)
    (log : list log_entry) (err : raised) :
  class_of rq = IsMPRequest ->
  req_id rq = Some id -> command rq = None ->
  mp_processed rq = (log, Raise err) ->
  is_Exception err = true ->
  received rq = (log, Raise (no_attribute rq "command")).
Proof.
  intros Hclass Hid Hc Hrun Hexc. unfold on_data_received.
  rewrite Hclass, Hrun, Hexc. unfold on_exception_clause. rewrite Hid, Hc.
  rewrite app_nil_r. reflexivity.
Qed.

(** What is raised outside [Exception] passes through. *)
Lemma base_exception_escapes (rq : request) (log : list log_entry) (err : raised) :
  class_of rq = IsMPRequest ->
  mp_processed rq = (log, Raise err) ->
  is_Exception err = false ->
  received rq = (log, Raise err).
Proof.
  intros Hclass Hrun Hexc. unfold on_data_received.
  rewrite Hclass, Hrun, Hexc. reflexivity.
Qed.

End OnDataReceived.

(** C9 at [MPRequest(req_id='r1', type=SendTransaction)] when scheduling the
    transaction raises: the handler reads [mp_request.command], which a
    service request does not have, and [on_data_received] raises
    [AttributeError] where the claim has [Result("Request failed")]. *)
Theorem send_transaction_failure_not_converted :
  on_data_received (fun _ => failing "executor unavailable")
    (fun _ => idle) (fun _ => idle) idle idle idle (fun _ => idle) (fun _ => idle)
    (fun _ => "type") (fun _ => "command")
    (MPRequest "r1" SendTransaction)
  = ([], Raise (AttributeError "'MPRequest' object has no attribute 'command'")) /\
  on_data_received (fun _ => idle)
    (fun _ => idle) (fun _ => idle) idle (failing "queue broken") idle
    (fun _ => idle) (fun _ => idle)
    (fun _ => "type") (fun _ => "SuspendMemPool")
    (MaintenanceRequest "r2" SuspendMemPool)
  = ([ {| log_req_id := Some "r2";
          log_text := "Failed to process maintenance request: SuspendMemPool. Error: queue broken. Traceback: " |} ],
     Return (Result "Request failed")).
Proof. split; reflexivity. Qed.

End ServiceFacts.

(* ===================================================================== *)
(** * The JSON-RPC front: block objects and method lookup *)
(* ===================================================================== *)

Module RestApiFacts.
Import Py RestApi.

Section Model.

Variable db_get_last_block_height : outcome Z.
Variable db_get_block_info : Z -> outcome (option block_info).
Variable db_get_eth_trx_sig_by_signature : pystr -> outcome (option eth_trx_sig).
Variable db_get_slot_by_hash : pystr -> outcome (option Z).
Variable db_get_slot_by_number : Z -> outcome (option Z).
Variable eth_getTransactionReceipt : pystr -> outcome (option dict).
Variable eth_getTransactionByHash : pystr -> outcome (option dict).
Variable b58decode_hex : pystr -> outcome pystr.
Variable lower : pystr -> pystr.
Variable exn_name : exn -> pystr.
Variable exn_text : exn -> pystr.
Variable str_of_json : json -> pystr.

Local Abbreviation by_slot :=
  (getBlockBySlot db_get_block_info db_get_eth_trx_sig_by_signature
     eth_getTransactionReceipt eth_getTransactionByHash b58decode_hex
     exn_name exn_text).

Local Abbreviation by_hash :=
  (eth_getBlockByHash db_get_block_info db_get_eth_trx_sig_by_signature
     db_get_slot_by_hash eth_getTransactionReceipt eth_getTransactionByHash
     b58decode_hex lower exn_name exn_text).

Local Abbreviation by_number :=
  (eth_getBlockByNumber db_get_last_block_height db_get_block_info
     db_get_eth_trx_sig_by_signature db_get_slot_by_number
     eth_getTransactionReceipt eth_getTransactionByHash b58decode_hex
     exn_name exn_text str_of_json).

Lemma getBlockBySlot_shape (slot : Z) (full : bool) (ret : dict) :
  by_slot slot full = Return (Some ret) -> block_shape ret.
Proof.
  unfold getBlockBySlot. intros H.
  destruct (db_get_block_info slot) as [[info |] | e]; cbn [obind] in H;
    try discriminate.
  destruct (getBlockBySlot_loop _ _ _ _ _ _ _ _) as [[[txs used] index] | e];
    cbn [obind] in H; try discriminate.
  destruct (b58decode_hex (blockhash info)) as [hash | e]; cbn [obind] in H;
    try discriminate.
  destruct (b58decode_hex (previousBlockhash info)) as [parent | e];
    cbn [obind] in H; try discriminate.
  injection H as <-.
  repeat split; try reflexivity; eexists; reflexivity.
Qed.

(** C8 (amended): every block JSON object returned by [getBlockBySlot], and
    hence by [eth_getBlockByHash] and [eth_getBlockByNumber] when a block is
    found, carries [gasLimit] ["0x6691b7"] and a [logsBloom] field of ["0x"]
    followed by 512 zero digits, that is 256 zero bytes, alongside the fields
    [hash], [number], [parentHash], [timestamp], [transactions] and
    [gasUsed]. *)
Theorem block_json_shape (slot : Z) (hash : pystr) (tag : json) (full : bool)
    (ret : dict)
    (Hret : by_slot slot full = Return (Some ret) \/
            by_hash hash full = Return (Some ret) \/
            by_number tag full = Return (Some ret)) :
  block_shape ret.
Proof.
  destruct Hret as [H | [H | H]].
  - exact (getBlockBySlot_shape slot full ret H).
  - unfold eth_getBlockByHash in H.
    destruct (db_get_slot_by_hash (lower hash)) as [[s |] | e]; cbn [obind] in H;
      try discriminate.
    exact (getBlockBySlot_shape s full ret H).
  - unfold eth_getBlockByNumber in H.
    destruct (process_block_tag _ _ _ _ tag) as [n | e]; cbn [obind] in H;
      try discriminate.
    destruct (db_get_slot_by_number n) as [[s |] | e]; cbn [obind] in H;
      try discriminate.
    exact (getBlockBySlot_shape s full ret H).
Qed.

End Model.

Lemma sample_by_slot_returns : sample_by_slot 7 false = Return (Some sample_ret).
Proof. vm_compute. reflexivity. Qed.

Lemma block_json_shape_witness : block_shape sample_ret.
Proof.
  apply (block_json_shape (Return 7) sample_block_info sample_trx_sig
           (fun _ => Return (Some 7)) (fun _ => Return (Some 7))
           sample_receipt sample_trx (fun s => Return s) (fun s => s)
           (fun _ => lit "Error") (fun _ => lit "error") (fun _ => [])
           7 [] JNull false sample_ret).
  left. vm_compute. reflexivity.
Defined.

(** C8 as stated fails: the [logsBloom] of a returned block is 256 zero
    bytes, not 128. *)
Lemma logs_bloom_is_not_128_bytes :
  sample_by_slot 7 false = Return (Some sample_ret) /\
  dict_get (lit "logsBloom") sample_ret = Some (JStr (zero_bytes_hex 256)) /\
  dict_get (lit "logsBloom") sample_ret <> Some (JStr (zero_bytes_hex 128)).
Proof.
  split; [exact sample_by_slot_returns |].
  split; [reflexivity | vm_compute; discriminate].
Qed.

(** ** Method lookup *)

Section Dispatcher.

Variable getattr : pystr -> option attr.

Lemma process_request_respond (request : dict) :
  process_request getattr (JObj request) = respond request (dispatch getattr request).
Proof.
  unfold process_request, respond.
  destruct (dispatch getattr request) as [v | [r | e | n t | n]]; reflexivity.
Qed.


End Dispatcher.


End RestApiFacts.

(* ===================================================================== *)
(** * More on reading base-16 text *)
(* ===================================================================== *)

Module PyMore.
Import Py PyFacts BlockQueries.

Lemma is_digit16_value (c : ascii) :
  is_digit16 c = true -> exists d, digit_value c = Some d /\ 0 <= d < 16.
Proof.
  unfold is_digit16. destruct (digit_value c) as [d |] eqn:Hd; [| discriminate].
  intros Hlt. exists d. split; [reflexivity |].
  apply Z.ltb_lt in Hlt. split; [| exact Hlt].
  unfold digit_value in Hd.
  repeat match type of Hd with
         | (if ?b then _ else _) = _ => destruct b eqn:?
         end; try discriminate; injection Hd as <-; lia.
Qed.

Lemma is_digit16_not_space (c : ascii) :
  is_digit16 c = true -> is_space c = false.
Proof.
  intros H. destruct (is_digit16_value c H) as (d & Hd & Hr).
  unfold digit_value in Hd. unfold is_space.
  repeat match type of Hd with
         | (if ?b then _ else _) = _ => destruct b eqn:?
         end; try discriminate; lia.
Qed.

Lemma is_digit16_not (c x : ascii) :
  is_digit16 x = false -> is_digit16 c = true -> Ascii.eqb c x = false.
Proof.
  intros Hx Hc. destruct (Ascii.eqb_spec c x) as [-> | _]; [congruence | reflexivity].
Qed.

(** The scanner reads a digit string to its end. *)
Lemma scan_digits_hex_text (s : pystr) :
  forall acc, hex_text s -> 0 <= acc ->
    exists v, scan_digits s false acc = Some (v, []) /\
              acc * 16 ^ Z.of_nat (length s) <= v
                < (acc + 1) * 16 ^ Z.of_nat (length s).
Proof.
  induction s as [| c s IH]; intros acc Hs Hacc.
  - exists acc. split; [reflexivity |]. simpl. lia.
  - inversion Hs as [| ? ? Hc Hs']; subst.
    destruct (is_digit16_value c Hc) as (d & Hd & Hr).
    cbn [scan_digits].
    rewrite (is_digit16_not c "_" eq_refl Hc), Hc, Hd. cbn [default].
    destruct (IH (16 * acc + d) Hs' ltac:(lia)) as (v & Hv & Hb).
    exists v. split; [exact Hv |].
    cbn [length]. rewrite pow16_succ.
    assert (0 < 16 ^ Z.of_nat (length s)) by (apply Z.pow_pos_nonneg; lia).
    nia.
Qed.

(** [int(s, 16)] of a non-empty digit string without a leading zero. *)
Lemma int16_hex_text (c : ascii) (s : pystr) :
  hex_text (c :: s) -> Ascii.eqb c "0" = false ->
  exists v, int16 (c :: s) = Ok v /\ 0 <= v < 16 ^ Z.of_nat (length (c :: s)).
Proof.
  intros Hs Hzero. inversion Hs as [| ? ? Hc Hs']; subst.
  destruct (scan_digits_hex_text (c :: s) 0 Hs ltac:(lia)) as (v & Hv & Hb).
  exists v. split; [| lia].
  unfold int16. cbn [skip_spaces]. rewrite (is_digit16_not_space c Hc).
  unfold strip_sign.
  rewrite (is_digit16_not c "+" eq_refl Hc), (is_digit16_not c "-" eq_refl Hc).
  assert (Hpre : strip_prefix16 (c :: s) = c :: s).
  { unfold strip_prefix16. destruct s; [reflexivity |]. rewrite Hzero. reflexivity. }
  rewrite Hpre, (is_digit16_not c "_" eq_refl Hc), Hv. reflexivity.
Qed.

Lemma lstrip_hex_text (c : ascii) (s : pystr) : hex_text s -> hex_text (lstrip c s).
Proof.
  induction s as [| a s IH]; intros Hs; [constructor |].
  inversion Hs; subst. simpl. destruct (Ascii.eqb a c); [apply IH; assumption | exact Hs].
Qed.

Lemma lstrip_length (c : ascii) (s : pystr) : (length (lstrip c s) <= length s)%nat.
Proof.
  induction s as [| a s IH]; [simpl; lia |].
  simpl. destruct (Ascii.eqb a c); simpl; lia.
Qed.

Lemma lstrip_head (c a : ascii) (s r : pystr) :
  lstrip c s = a :: r -> Ascii.eqb a c = false.
Proof.
  induction s as [| b s IH]; [discriminate |].
  simpl. destruct (Ascii.eqb b c) eqn:Hb; [exact IH |].
  intros [= -> _]. exact Hb.
Qed.

(** [int] on a text whose sign, prefix and digits are known. *)
Lemma int16_eval (s s2 s3 : pystr) (negative : bool) (c : ascii) (v : Z) :
  strip_sign (skip_spaces s) = (negative, s2) ->
  strip_prefix16 s2 = c :: s3 ->
  Ascii.eqb c "_" = false ->
  scan_digits (c :: s3) false 0 = Some (v, []) ->
  int16 s = Ok (if negative then - v else v).
Proof.
  intros Hsign Hpre Hc Hscan. unfold int16.
  rewrite Hsign, Hpre, Hc, Hscan. reflexivity.
Qed.

(** [int(hex(n), 16) = n], for every integer [n]. *)
Lemma int16_hex_roundtrip (n : Z) : int16 (hex n) = Ok n.
Proof.
  assert (Hfuel : 0 <= Z.abs n < 16 ^ Z.of_nat (S (Z.to_nat (Z.log2 (Z.abs n))))).
  { split; [lia | apply log2_fuel; lia]. }
  pose proof (to_base16_value _ _ Hfuel) as Hval.
  pose proof (to_base16_digits (S (Z.to_nat (Z.log2 (Z.abs n)))) (Z.abs n)) as Hdig.
  pose proof (to_base16_nonempty (Z.to_nat (Z.log2 (Z.abs n))) (Z.abs n)) as Hne.
  fold (digits16 (Z.abs n)) in Hval, Hdig, Hne.
  unfold hex.
  destruct (digits16 (Z.abs n)) as [| d ds] eqn:Hds; [congruence |].
  pose proof (scan_digits_hex (d :: ds) 0 Hdig) as Hscan.
  inversion Hdig as [| ? ? Hd _]; subst.
  assert (Hpre : strip_prefix16 (lit "0x" ++ map hex_digit (d :: ds))
                 = hex_digit d :: map hex_digit ds).
  { cbn [lit list_ascii_of_string app map strip_prefix16 Ascii.eqb Bool.eqb
         andb orb].
    rewrite (hex_digit_not_underscore d Hd). reflexivity. }
  cbn [map] in Hscan. rewrite Hval in Hscan.
  destruct (Z.ltb_spec n 0) as [Hneg | Hpos].
  - rewrite (int16_eval (lit "-" ++ lit "0x" ++ map hex_digit (d :: ds))
               (lit "0x" ++ map hex_digit (d :: ds)) _ true _ _
               eq_refl Hpre (hex_digit_not_underscore d Hd) Hscan).
    f_equal. lia.
  - rewrite (int16_eval ([] ++ lit "0x" ++ map hex_digit (d :: ds))
               (lit "0x" ++ map hex_digit (d :: ds)) _ false _ _
               eq_refl Hpre (hex_digit_not_underscore d Hd) Hscan).
    f_equal. lia.
Qed.

End PyMore.

(* ===================================================================== *)
(** * The block store: more on hashes, times and mutations *)
(* ===================================================================== *)

Module BlockStoreMore.
Import Py PyFacts PyMore FloatFacts BlocksDB HashFacts BlockStoreFacts BlockQueries.

(** ** Synthetic hashes *)

(** X1: for a non-negative slot, decoding its synthetic hash gives the slot
    back when the slot is below [2^40], and [None] from [2^40] on: the
    decoder does not recognise the hash the encoder produced for such a
    slot. *)
Theorem synthetic_hash_window (s : Z) (Hs : 0 <= s) :
  _get_fake_block_slot (_generate_fake_block_hash s) =
    Ok (if s <? 2 ^ 40 then Some s else None) /\
  (_get_fake_block_slot (_generate_fake_block_hash s) = Ok (Some s) <-> s < 2 ^ 40).
Proof.
  destruct (Z.ltb_spec s (2 ^ 40)) as [Hlt | Hge].
  - rewrite roundtrip_below_2_40 by lia. split; [reflexivity |].
    split; [intros _; exact Hlt | reflexivity].
  - rewrite roundtrip_from_2_40 by exact Hge. split; [reflexivity |].
    split; [discriminate | lia].
Qed.

Lemma synthetic_hash_window_witness :
  (_get_fake_block_slot (_generate_fake_block_hash 77) = Ok (Some 77) /\
   (_get_fake_block_slot (_generate_fake_block_hash 77) = Ok (Some 77) <->
    77 < 2 ^ 40)) /\
  (_get_fake_block_slot (_generate_fake_block_hash (2 ^ 40 + 5)) = Ok None /\
   (_get_fake_block_slot (_generate_fake_block_hash (2 ^ 40 + 5))
      = Ok (Some (2 ^ 40 + 5)) <-> 2 ^ 40 + 5 < 2 ^ 40)).
Proof.
  split.
  - apply (synthetic_hash_window 77). lia.
  - apply (synthetic_hash_window (2 ^ 40 + 5)). lia.
Defined.

(** X2: the synthetic hash is a 32-byte value, ["0x"] and 64 characters, for
    every slot below [2^248], negative slots included; from [2^248] on it is
    longer. *)
Theorem synthetic_hash_length (s big : Z) (Hs : s < 2 ^ 248) (Hbig : 2 ^ 248 <= big) :
  length (_generate_fake_block_hash s) = 66%nat /\
  (66 < length (_generate_fake_block_hash big))%nat.
Proof.
  split.
  - destruct (Z.lt_ge_cases s 0) as [Hneg | Hpos].
    + unfold _generate_fake_block_hash.
      destruct (Z.ltb_spec s 0); [reflexivity | lia].
    + rewrite fake_hash_shape by exact Hpos. cbv zeta.
      assert (Hfuel : 0 <= s < 16 ^ Z.of_nat 62)
        by (change (16 ^ Z.of_nat 62) with (2 ^ 248); lia).
      rewrite (digits16_fuel 61 s Hfuel).
      pose proof (to_base16_length 62 s) as Hlen.
      rewrite !length_app, !length_replicate, length_map.
      change (length (lit "0x")) with 2%nat. change (length (lit "00")) with 2%nat.
      set (L := length (to_base16 62 s)) in *.
      Z.div_mod_to_equations. lia.
  - rewrite fake_hash_shape by lia. cbv zeta.
    assert (Hlong : (62 < length (digits16 big))%nat).
    { unfold digits16. apply to_base16_long.
      change (16 ^ Z.of_nat 62) with (2 ^ 248).
      split; [lia | apply log2_fuel; lia]. }
    rewrite !length_app, !length_replicate, length_map.
    change (length (lit "0x")) with 2%nat. change (length (lit "00")) with 2%nat.
    set (L := length (digits16 big)) in *.
    Z.div_mod_to_equations. lia.
Qed.

Lemma synthetic_hash_length_witness :
  length (_generate_fake_block_hash 123456789) = 66%nat /\
  (66 < length (_generate_fake_block_hash (2 ^ 248)))%nat.
Proof. apply (synthetic_hash_length 123456789 (2 ^ 248)); lia. Defined.

(** X3: on a hash whose characters after the first two are base-16 digits,
    [_get_fake_block_slot] never raises, and a slot it decodes lies in
    [[0, 2^40)]. *)
Theorem decoded_slot_in_window (h : pystr) (Hh : hex_text (drop 2 h)) :
  exists o, _get_fake_block_slot h = Ok o /\
            forall v, o = Some v -> 0 <= v < 2 ^ 40.
Proof.
  unfold _get_fake_block_slot.
  pose proof (lstrip_hex_text "f" _ Hh) as Hr.
  set (r := lstrip "f" (drop 2 h)) in *.
  destruct (Z.ltb_spec 12 (Z.of_nat (length r))) as [Hlong | Hshort].
  { exists None. split; [reflexivity | discriminate]. }
  destruct (bool_decide_reflect (take 2 r = lit "00")) as [Hpre | Hpre].
  2: { exists None. split; [reflexivity | discriminate]. }
  cbn [orb negb].
  pose proof (lstrip_hex_text "0" _ Hr) as Hx.
  assert (Hlen : (length (lstrip "0" r) <= 10)%nat).
  { rewrite <- (take_drop 2 r), Hpre.
    change (lit "00" ++ ?x) with ("0"%char :: "0"%char :: x).
    cbn [lstrip Ascii.eqb Bool.eqb].
    pose proof (lstrip_length "0" (drop 2 r)) as H1.
    rewrite length_drop in H1. lia. }
  destruct (lstrip "0" r) as [| c x] eqn:Hstrip.
  { exists (Some 0). split; [reflexivity |]. intros v [= <-]. lia. }
  pose proof (lstrip_head _ _ _ _ Hstrip) as Hc.
  destruct (int16_hex_text c x Hx Hc) as (v & Hv & Hb).
  exists (Some v). rewrite Hv. split; [reflexivity |].
  intros v' [= <-]. split; [lia |].
  eapply Z.lt_le_trans; [apply Hb |].
  change (2 ^ 40) with (16 ^ 10). apply Z.pow_le_mono_r; lia.
Qed.

Lemma decoded_slot_in_window_witness :
  exists o, _get_fake_block_slot (lit "0xfffff00ABcd") = Ok o /\
            forall v, o = Some v -> 0 <= v < 2 ^ 40.
Proof.
  apply (decoded_slot_in_window (lit "0xfffff00ABcd")).
  repeat constructor.
Defined.

(** X4: distinct slots below [2^40] have distinct synthetic hashes. *)
Theorem synthetic_hash_injective (s1 s2 : Z)
    (H1 : 0 <= s1 < 2 ^ 40) (H2 : 0 <= s2 < 2 ^ 40) (Hne : s1 <> s2) :
  _generate_fake_block_hash s1 <> _generate_fake_block_hash s2.
Proof.
  intros Heq.
  pose proof (roundtrip_below_2_40 s1 H1) as R1.
  pose proof (roundtrip_below_2_40 s2 H2) as R2.
  rewrite Heq, R2 in R1. congruence.
Qed.

Lemma synthetic_hash_injective_witness :
  _generate_fake_block_hash 255 <> _generate_fake_block_hash 4080.
Proof. apply (synthetic_hash_injective 255 4080); lia. Defined.

(** ** Synthetic times *)

Section FakeBlockTime.

Variable genesis_timestamp : Z.
Variable fetchone : list nearest_row -> option nearest_row.

(** X5: when the table stores a row at the requested slot and no row at that
    slot has a block time, [_generate_fake_block_time] raises [TypeError],
    whichever row the cursor delivers; so does [_check_block_time] on the
    missing time. *)
Theorem fake_block_time_of_untimed_row (t : table) (s : Z) (r0 : block_row)
    (Hfetch : fetchone_of (nearest_rows t s) (fetchone (nearest_rows t s)))
    (Hrow : In r0 t) (Hslot : block_slot r0 = s)
    (Hnull : forall r, In r t -> block_slot r = s -> block_time r = None) :
  _generate_fake_block_time genesis_timestamp fetchone t s = Raise TypeError /\
  _check_block_time genesis_timestamp fetchone t s None = Raise TypeError.
Proof.
  assert (H : _generate_fake_block_time genesis_timestamp fetchone t s
              = Raise TypeError).
  { unfold _generate_fake_block_time.
    destruct (fetchone (nearest_rows t s)) as [row |] eqn:Hrowf;
      cbn [fetchone_of] in Hfetch.
    - apply in_app_or in Hfetch as [Hb | Ha].
      + apply rows_before_spec in Hb as (r & (Hin & Hle & Hmax) & ->).
        assert (Hs : block_slot r = s).
        { pose proof (Hmax r0 Hrow ltac:(lia)). lia. }
        rewrite (Hnull r Hin Hs), Hs, Z.sub_diag, ceil_slots_zero. reflexivity.
      + apply rows_after_spec in Ha as (r & (Hin & Hle & Hmin) & ->).
        assert (Hs : block_slot r = s).
        { pose proof (Hmin r0 Hrow ltac:(lia)). lia. }
        rewrite (Hnull r Hin Hs), Hs, Z.sub_diag, ceil_slots_zero. reflexivity.
    - exfalso.
      assert (Hin : In (Some (block_slot r0), block_time r0, None, None)
                       (nearest_rows t s)).
      { unfold nearest_rows, rows_before. apply in_or_app. left.
        apply (in_map (fun r : block_row =>
                         ((Some (block_slot r), block_time r, None, None)
                          : nearest_row))).
        apply filter_In. split; [exact Hrow |].
        apply andb_true_iff. split; [apply Z.leb_le; lia |].
        apply forallb_forall. intros r' _.
        destruct (Z.leb_spec (block_slot r') s); cbn [negb orb];
          [apply Z.leb_le; lia | reflexivity]. }
      rewrite Hfetch in Hin. destruct Hin. }
  split; [exact H | exact H].
Qed.

(** X6: with no stored neighbour the synthetic time of a slot in
    [[0, 2^51)] is the genesis time plus [ceil(slot * 0.4)], the least
    integer at or above two fifths of the slot: never before the genesis
    time, and the genesis time itself at slot 0. *)
Theorem fake_block_time_from_genesis (t : table) (s : Z)
    (Hfetch : fetchone_of (nearest_rows t s) (fetchone (nearest_rows t s)))
    (Hempty : nearest_rows t s = [])
    (Hs : 0 <= s < 2 ^ 51) :
  _generate_fake_block_time genesis_timestamp fetchone t s
    = Ok (ceil_two_fifths s + genesis_timestamp) /\
  5 * (ceil_two_fifths s - 1) < 2 * s <= 5 * ceil_two_fifths s /\
  genesis_timestamp <= ceil_two_fifths s + genesis_timestamp /\
  (s = 0 ->
   _generate_fake_block_time genesis_timestamp fetchone t s = Ok genesis_timestamp).
Proof.
  pose proof (ceil_two_fifths_spec s) as Hc.
  assert (H : _generate_fake_block_time genesis_timestamp fetchone t s
              = Ok (ceil_two_fifths s + genesis_timestamp)).
  { unfold _generate_fake_block_time.
    destruct (fetchone (nearest_rows t s)) as [row |] eqn:Hrow;
      cbn [fetchone_of] in Hfetch.
    - rewrite Hempty in Hfetch. destruct Hfetch.
    - rewrite (ceil_slots_exact s Hs). reflexivity. }
  split; [exact H |]. split; [exact Hc |]. split; [lia |].
  intros ->. rewrite H. reflexivity.
Qed.

End FakeBlockTime.

Lemma fake_block_time_of_untimed_row_witness :
  _generate_fake_block_time 0 head [stored 3 100; untimed 5] 5 = Raise TypeError /\
  _check_block_time 0 head [stored 3 100; untimed 5] 5 None = Raise TypeError.
Proof.
  apply (fake_block_time_of_untimed_row 0 head [stored 3 100; untimed 5] 5
           (untimed 5)).
  - simpl. left. reflexivity.
  - right. left. reflexivity.
  - reflexivity.
  - intros r [<- | [<- | []]]; simpl; [lia | reflexivity].
Defined.

Lemma fake_block_time_from_genesis_witness :
  _generate_fake_block_time 1600000000 head [] 10 = Ok (4 + 1600000000) /\
  5 * (4 - 1) < 2 * 10 <= 5 * 4 /\
  1600000000 <= 4 + 1600000000 /\
  (10 = 0 -> _generate_fake_block_time 1600000000 head [] 10 = Ok 1600000000).
Proof.
  apply (fake_block_time_from_genesis 1600000000 head [] 10).
  - reflexivity.
  - reflexivity.
  - lia.
Defined.

(** ** What the mutations leave alone *)

Lemma filter_all {A : Type} (p : A -> bool) (l : list A) :
  (forall x, In x l -> p x = true) -> List.filter p l = l.
Proof.
  induction l as [| a l IH]; intros H; [reflexivity |].
  simpl. rewrite (H a (or_introl eq_refl)). f_equal.
  apply IH. intros x Hx. apply H. right. exact Hx.
Qed.

Lemma map_fixed {A : Type} (g : A -> A) (l : list A) :
  (forall x, In x l -> g x = x) -> map g l = l.
Proof.
  induction l as [| a l IH]; intros H; [reflexivity |].
  simpl. rewrite (H a (or_introl eq_refl)). f_equal.
  apply IH. intros x Hx. apply H. right. exact Hx.
Qed.

(** X7: [activate_block_list] and [finalize_block_list] are idempotent:
    run again with the same arguments on the table they produced, they
    return the same table. *)
Theorem branch_switch_idempotent (t t1 t2 : table) (base : Z) (slots : list Z)
    (Hact : activate_block_list t base slots = Ok t1)
    (Hfin : finalize_block_list t base slots = Ok t2) :
  activate_block_list t1 base slots = Ok t1 /\
  finalize_block_list t2 base slots = Ok t2.
Proof.
  split.
  - unfold activate_block_list in *.
    destruct slots as [| x rest] eqn:Hs; [discriminate |]. rewrite <- Hs in *.
    injection Hact as <-. f_equal.
    unfold sql_update. rewrite !map_map. apply map_ext. intros r.
    destruct r as [sl h tm ps fin act]. unfold slot_in. cbn [block_slot].
    destruct (base <? sl) eqn:Hb; cbn [block_slot is_active];
      destruct (existsb (Z.eqb sl) slots) eqn:He; cbn [block_slot];
      rewrite ?Hb, ?He; cbn [block_slot]; rewrite ?Hb, ?He; reflexivity.
  - unfold finalize_block_list in *.
    destruct (last slots) as [l |]; [| discriminate].
    injection Hfin as <-. f_equal.
    set (f := fun r : block_row =>
                {| block_slot := block_slot r; block_hash := block_hash r;
                   block_time := block_time r;
                   parent_block_slot := parent_block_slot r;
                   is_finalized := true; is_active := true |}).
    set (del := fun r : block_row =>
                  (base <? block_slot r) && (block_slot r <? l) &&
                  negb (is_active r)).
    assert (Hfix : forall x,
               In x (sql_delete del (sql_update (slot_in slots) f t)) ->
               (if slot_in slots x then f x else x) = x).
    { intros x Hx. apply sql_delete_in in Hx as [Hx _].
      apply sql_update_in in Hx as (r & _ & ->).
      destruct r as [sl h tm ps fin act]. unfold f, slot_in. cbn [block_slot].
      destruct (existsb (Z.eqb sl) slots) eqn:He; cbn [block_slot];
        rewrite ?He; reflexivity. }
    unfold sql_update at 1.
    rewrite (map_fixed _ _ Hfix).
    unfold sql_delete at 1. apply filter_all.
    intros x Hx. apply sql_delete_in in Hx as [_ Hd]. rewrite Hd. reflexivity.
Qed.

Lemma branch_switch_idempotent_witness :
  activate_block_list
    [ orphan 3; stored 4 7;
      {| block_slot := 9; block_hash := None; block_time := None;
         parent_block_slot := None; is_finalized := false; is_active := true |} ]
    3 [4; 9]
  = Ok [ orphan 3; stored 4 7;
         {| block_slot := 9; block_hash := None; block_time := None;
            parent_block_slot := None; is_finalized := false; is_active := true |} ] /\
  finalize_block_list
    [ orphan 3; stored 4 7;
      {| block_slot := 9; block_hash := None; block_time := None;
         parent_block_slot := None; is_finalized := true; is_active := true |} ]
    3 [4; 9]
  = Ok [ orphan 3; stored 4 7;
         {| block_slot := 9; block_hash := None; block_time := None;
            parent_block_slot := None; is_finalized := true; is_active := true |} ].
Proof.
  apply (branch_switch_idempotent [orphan 3; stored 4 7; orphan 9] _ _ 3 [4; 9]);
    reflexivity.
Defined.

(** X8: [finalize_block_list(base, S)] removes nothing but inactive rows
    strictly between [base] and the last slot of [S]: every stored row that
    is active, or in [S], or at or below [base], or at or above that last
    slot, is still stored afterwards with its slot, hash and time. *)
Theorem finalize_keeps_rows (t t' : table) (base last_slot : Z) (slots : list Z)
    (r : block_row)
    (Hrun : finalize_block_list t base slots = Ok t')
    (Hlast : last slots = Some last_slot)
    (Hin : In r t)
    (Hkeep : is_active r = true \/ In (block_slot r) slots \/
             block_slot r <= base \/ last_slot <= block_slot r) :
  exists r', In r' t' /\ block_slot r' = block_slot r /\
             block_hash r' = block_hash r /\ block_time r' = block_time r /\
             parent_block_slot r' = parent_block_slot r.
Proof.
  unfold finalize_block_list in Hrun. rewrite Hlast in Hrun.
  injection Hrun as <-.
  eexists. split.
  - apply sql_delete_in. split.
    + apply sql_update_in. exists r. split; [exact Hin | reflexivity].
    + destruct (slot_in slots r) eqn:Hs; cbn [block_slot is_active].
      * rewrite andb_false_r. reflexivity.
      * destruct Hkeep as [Ha | [Hs' | [Hb | Hl]]].
        -- rewrite Ha. apply andb_false_r.
        -- apply slot_in_spec in Hs'. congruence.
        -- destruct (Z.ltb_spec base (block_slot r)); [lia | reflexivity].
        -- destruct (Z.ltb_spec (block_slot r) last_slot); [lia |].
           rewrite andb_false_r. reflexivity.
  - destruct (slot_in slots r); repeat split; reflexivity.
Qed.

Lemma finalize_keeps_rows_witness :
  exists r',
    In r' [ stored 4 7;
            {| block_slot := 9; block_hash := None; block_time := None;
               parent_block_slot := None; is_finalized := true;
               is_active := true |} ] /\
    block_slot r' = block_slot (orphan 9) /\
             block_hash r' = block_hash (orphan 9) /\
             block_time r' = block_time (orphan 9) /\
             parent_block_slot r' = parent_block_slot (orphan 9).
Proof.
  apply (finalize_keeps_rows [stored 4 7; orphan 5; orphan 9] _ 3 9 [4; 9] (orphan 9)).
  - reflexivity.
  - reflexivity.
  - right. right. left. reflexivity.
  - right. right. right. simpl. lia.
Defined.

(** X9: [activate_block_list] changes no column but [is_active], stores the
    same number of rows, and leaves every row at or below [base] whose slot is
    not in [S] exactly as it was. *)
Theorem activate_changes_active_only (t t' : table) (base : Z) (slots : list Z)
    (Hrun : activate_block_list t base slots = Ok t') :
  length t' = length t /\
  map (fun r => (block_slot r, block_hash r, block_time r, parent_block_slot r,
                 is_finalized r)) t'
    = map (fun r => (block_slot r, block_hash r, block_time r, parent_block_slot r,
                     is_finalized r)) t /\
  forall r, In r t -> block_slot r <= base -> ~ In (block_slot r) slots -> In r t'.
Proof.
  unfold activate_block_list in Hrun.
  destruct slots as [| x rest] eqn:Hs; [discriminate |]. rewrite <- Hs in *.
  injection Hrun as <-. split; [| split].
  - unfold sql_update. rewrite !length_map. reflexivity.
  - unfold sql_update. rewrite !map_map. apply map_ext. intros r.
    destruct (base <? block_slot r); destruct (slot_in slots _); reflexivity.
  - intros r Hin Hb Hnot.
    apply sql_update_in. exists r. split.
    + apply sql_update_in. exists r. split; [exact Hin |].
      destruct (Z.ltb_spec base (block_slot r)); [lia | reflexivity].
    + destruct (slot_in slots r) eqn:Hsl; [| reflexivity].
      apply slot_in_spec in Hsl. contradiction.
Qed.

Lemma activate_changes_active_only_witness :
  length [orphan 3; stored 4 7; stored 9 8] = length [orphan 3; stored 4 7; orphan 9] /\
  map (fun r => (block_slot r, block_hash r, block_time r, parent_block_slot r,
                 is_finalized r))
      [orphan 3; stored 4 7;
       {| block_slot := 9; block_hash := None; block_time := None;
          parent_block_slot := None; is_finalized := false; is_active := true |}]
    = map (fun r => (block_slot r, block_hash r, block_time r, parent_block_slot r,
                     is_finalized r)) [orphan 3; stored 4 7; orphan 9] /\
  forall r, In r [orphan 3; stored 4 7; orphan 9] -> block_slot r <= 3 ->
            ~ In (block_slot r) [4; 9] ->
            In r [orphan 3; stored 4 7;
                  {| block_slot := 9; block_hash := None; block_time := None;
                     parent_block_slot := None; is_finalized := false;
                     is_active := true |}].
Proof.
  pose proof (activate_changes_active_only
                [orphan 3; stored 4 7; orphan 9] _ 3 [4; 9] eq_refl) as H.
  exact H.
Defined.

End BlockStoreMore.

(* ===================================================================== *)
(** * The block store: blocks by slot and by hash *)
(* ===================================================================== *)

Module BlockQueryFacts.
Import Py PyFacts BlocksDB HashFacts BlockStoreFacts BlockQueries.

Lemma active_at_spec (t : table) (slot : Z) (r : block_row) :
  In r (active_at t slot) <-> In r t /\ block_slot r = slot /\ is_active r = true.
Proof.
  unfold active_at. rewrite filter_In, andb_true_iff, Z.eqb_eq. reflexivity.
Qed.

(** Where the columns of a delivered row come from: an active row at the
    slot when there is one, and the hash of an active row at the slot before
    when there is one. *)
Lemma block_rows_spec (t : table) (slot : Z) (v : block_value) :
  In v (block_rows t slot) ->
  (active_at t slot = [] -> v_block_hash v = None) /\
  (active_at t slot <> [] ->
   exists a, In a (active_at t slot) /\ v_block_hash v = block_hash a /\
             v_block_time v = block_time a /\
             v_is_finalized v = is_finalized a) /\
  (active_at t (slot - 1) = [] -> v_parent_block_hash v = None) /\
  (active_at t (slot - 1) <> [] ->
   exists b, In b (active_at t (slot - 1)) /\ v_parent_block_hash v = block_hash b).
Proof.
  unfold block_rows. intros H. apply in_app_or in H as [H | H].
  - apply in_flat_map in H as (a & Ha & Hv).
    destruct (active_at t (slot - 1)) as [| b0 rest] eqn:Hb.
    + destruct Hv as [<- | []]. cbn.
      split; [intros E; rewrite E in Ha; destruct Ha |].
      split; [intros _; exists a; auto |].
      split; [reflexivity | intros E; destruct (E eq_refl)].
    + apply in_map_iff in Hv as (b & <- & Hb'). cbn.
      split; [intros E; rewrite E in Ha; destruct Ha |].
      split; [intros _; exists a; auto |].
      split; [discriminate | intros _; exists b; auto].
  - apply in_flat_map in H as (b & Hb & Hv).
    destruct (active_at t slot) as [| a0 rest] eqn:Ha.
    + destruct Hv as [<- | []]. cbn.
      split; [reflexivity |]. split; [intros E; destruct (E eq_refl) |].
      split; [intros E; rewrite E in Hb; destruct Hb |].
      intros _. exists b. auto.
    + apply in_map_iff in Hv as (a & <- & Ha'). cbn.
      split; [discriminate |]. split; [intros _; exists a; auto |].
      split; [intros E; rewrite E in Hb; destruct Hb |].
      intros _. exists b. auto.
Qed.

(** Without rows to deliver there is no active row at either slot. *)
Lemma block_rows_nil (t : table) (slot : Z) :
  block_rows t slot = [] ->
  active_at t slot = [] /\ active_at t (slot - 1) = [].
Proof.
  unfold block_rows. intros H. apply app_eq_nil in H as [Ha Hb].
  destruct (active_at t slot) as [| a0 ra] eqn:Ea.
  - split; [reflexivity |].
    destruct (active_at t (slot - 1)) as [| b0 rb]; [reflexivity | discriminate Hb].
  - exfalso. cbn [flat_map] in Ha.
    destruct (active_at t (slot - 1)); discriminate Ha.
Qed.

(** [block_hash or ...] keeps a hash that is set and not empty. *)
Lemma check_block_hash_cases (slot : Z) (hash : option pystr) :
  (forall x, hash = Some x -> x <> [] -> _check_block_hash slot hash = x) /\
  (hash = None \/ hash = Some [] ->
   _check_block_hash slot hash = _generate_fake_block_hash slot).
Proof.
  split.
  - intros x -> Hx. destruct x; [destruct (Hx eq_refl) | reflexivity].
  - intros [-> | ->]; reflexivity.
Qed.

Section Queries.

Variable genesis_timestamp : Z.
Variable fetchone : list nearest_row -> option nearest_row.
Variable fetch_block : list block_value -> option block_value.
Variable fetch_by_hash : pystr -> option block_value.

Local Abbreviation by_slot :=
  (get_block_by_slot genesis_timestamp fetchone fetch_block).
Local Abbreviation by_hash :=
  (get_block_by_hash genesis_timestamp fetchone fetch_block fetch_by_hash).

(** X10: [get_block_by_slot] above the latest slot returns a block with the
    slot only.  At or below it, a returned block carries the requested slot.
    When an active row is stored at the slot, the block shows the hash of
    such a row if that hash is set and not empty, and the synthetic hash of
    the slot otherwise; it keeps the row's time when that is set and not
    zero, and the row's finalized flag.  When no active row is stored at the
    slot, the hash is the synthetic one.  The parent hash is chosen the same
    way among the active rows at [slot - 1]. *)
Theorem block_by_slot (t : table) (above slot latest : Z) (b : SolBlockInfo)
    (Habove : latest < above)
    (Hslot : slot <= latest)
    (Hfetch : delivers (block_rows t slot) (fetch_block (block_rows t slot)))
    (Hret : by_slot t slot latest = Ok b) :
  by_slot t above latest = Ok (stub above) /\
  bi_block_slot b = slot /\
  (exists h, bi_block_hash b = Some h /\
     (active_at t slot = [] -> h = _generate_fake_block_hash slot) /\
     (active_at t slot <> [] ->
      exists a, In a t /\ block_slot a = slot /\ is_active a = true /\
        (forall x, block_hash a = Some x -> x <> [] -> h = x) /\
        (block_hash a = None \/ block_hash a = Some [] ->
         h = _generate_fake_block_hash slot) /\
        (forall time, block_time a = Some time -> time <> 0 ->
                      bi_block_time b = Some time) /\
        bi_is_finalized b = is_finalized a)) /\
  (exists p, bi_parent_block_hash b = Some p /\
     (active_at t (slot - 1) = [] -> p = _generate_fake_block_hash (slot - 1)) /\
     (active_at t (slot - 1) <> [] ->
      exists a, In a t /\ block_slot a = slot - 1 /\ is_active a = true /\
        (forall x, block_hash a = Some x -> x <> [] -> p = x) /\
        (block_hash a = None \/ block_hash a = Some [] ->
         p = _generate_fake_block_hash (slot - 1)))).
Proof.
  split.
  { unfold get_block_by_slot. destruct (Z.ltb_spec latest above); [reflexivity | lia]. }
  unfold get_block_by_slot in Hret.
  destruct (Z.ltb_spec latest slot); [lia |].
  destruct (fetch_block (block_rows t slot)) as [v |] eqn:Hv; cbn [delivers] in Hfetch.
  - unfold _block_from_value in Hret.
    destruct (_check_block_time _ _ _ _ _) as [time | e] eqn:Htime;
      cbn [bind] in Hret; [| discriminate].
    injection Hret as <-. cbn.
    destruct (block_rows_spec t slot v Hfetch) as (Hh0 & Hh & Hp0 & Hp).
    destruct (check_block_hash_cases slot (v_block_hash v)) as [Hc Hn].
    destruct (check_block_hash_cases (slot - 1) (v_parent_block_hash v)) as [Hc' Hn'].
    split; [reflexivity |]. split.
    + eexists. split; [reflexivity |]. split.
      * intros E. apply Hn. left. apply Hh0, E.
      * intros E. destruct (Hh E) as (a & Ha & Hhash & Htm & Hfin).
        apply active_at_spec in Ha as (Hin & Hs & Hact).
        exists a. split; [exact Hin |]. split; [exact Hs |]. split; [exact Hact |].
        split; [| split; [| split; [| exact Hfin]]].
        -- intros x Hx Hne. apply Hc; [congruence | exact Hne].
        -- intros Hx. apply Hn. rewrite Hhash. exact Hx.
        -- intros tm Htm' Hnz. rewrite Htm, Htm' in Htime.
           unfold _check_block_time in Htime.
           destruct tm; [destruct (Hnz eq_refl) | |]; congruence.
    + eexists. split; [reflexivity |]. split.
      * intros E. apply Hn'. left. apply Hp0, E.
      * intros E. destruct (Hp E) as (a & Ha & Hhash).
        apply active_at_spec in Ha as (Hin & Hs & Hact).
        exists a. split; [exact Hin |]. split; [exact Hs |]. split; [exact Hact |].
        split.
        -- intros x Hx Hne. apply Hc'; [congruence | exact Hne].
        -- intros Hx. apply Hn'. rewrite Hhash. exact Hx.
  - destruct (block_rows_nil t slot Hfetch) as [Ea Eb].
    unfold _block_from_value in Hret.
    destruct (_generate_fake_block_time _ _ _ _) as [time | e]; cbn [bind] in Hret;
      [| discriminate].
    injection Hret as <-. cbn.
    split; [reflexivity |].
    split; eexists; (split; [reflexivity |]);
      (split; [reflexivity | intros E; contradiction]).
Qed.

(** X11: [get_block_by_hash] on the synthetic hash of a slot in
    [[0, 2^40)] answers with the block [get_block_by_slot] gives for that
    slot, carrying the requested hash; so above the latest slot it is the
    bare block of that slot with the requested hash. *)
Theorem block_by_synthetic_hash (t : table) (s latest : Z)
    (Hs : 0 <= s < 2 ^ 40) :
  by_hash t (_generate_fake_block_hash s) latest =
    bind (by_slot t s latest)
         (fun block => Ok (set_block_hash block (_generate_fake_block_hash s))) /\
  (latest < s ->
   by_hash t (_generate_fake_block_hash s) latest =
     Ok (set_block_hash (stub s) (_generate_fake_block_hash s))).
Proof.
  assert (H : by_hash t (_generate_fake_block_hash s) latest =
              bind (by_slot t s latest)
                (fun block => Ok (set_block_hash block (_generate_fake_block_hash s)))).
  { unfold get_block_by_hash. rewrite roundtrip_below_2_40 by exact Hs. reflexivity. }
  split; [exact H |].
  intros Hl. rewrite H. unfold get_block_by_slot.
  destruct (Z.ltb_spec latest s); [reflexivity | lia].
Qed.

(** X12: for a hash that does not match the synthetic pattern and that the
    query by stored hash does not find, [get_block_by_hash] returns a block
    with slot 0 and no hash, no time and no parent hash. *)
Theorem block_by_unknown_hash (t : table) (h : pystr) (latest : Z)
    (Hh : ~ synthetic_pattern h) (Hmiss : fetch_by_hash h = None) :
  by_hash t h latest = Ok (stub 0).
Proof.
  unfold get_block_by_hash. rewrite not_synthetic_none by exact Hh.
  cbn [bind]. rewrite Hmiss. reflexivity.
Qed.

End Queries.

Lemma block_by_slot_witness :
  get_block_by_slot 0 head head sample_table 12 20 = Ok sample_block_12 /\
  get_block_by_slot 0 head head sample_table 30 20 = Ok (stub 30) /\
  bi_block_slot sample_block_12 = 12 /\
  (exists h, bi_block_hash sample_block_12 = Some h /\
     (active_at sample_table 12 = [] -> h = _generate_fake_block_hash 12) /\
     (active_at sample_table 12 <> [] ->
      exists a, In a sample_table /\ block_slot a = 12 /\ is_active a = true /\
        (forall x, block_hash a = Some x -> x <> [] -> h = x) /\
        (block_hash a = None \/ block_hash a = Some [] ->
         h = _generate_fake_block_hash 12) /\
        (forall time, block_time a = Some time -> time <> 0 ->
                      bi_block_time sample_block_12 = Some time) /\
        bi_is_finalized sample_block_12 = is_finalized a)) /\
  (exists p, bi_parent_block_hash sample_block_12 = Some p /\
     (active_at sample_table (12 - 1) = [] ->
      p = _generate_fake_block_hash (12 - 1)) /\
     (active_at sample_table (12 - 1) <> [] ->
      exists a, In a sample_table /\ block_slot a = 12 - 1 /\ is_active a = true /\
        (forall x, block_hash a = Some x -> x <> [] -> p = x) /\
        (block_hash a = None \/ block_hash a = Some [] ->
         p = _generate_fake_block_hash (12 - 1)))).
Proof.
  split; [reflexivity |].
  apply (block_by_slot 0 head head sample_table 30 12 20).
  - lia.
  - lia.
  - simpl. left. reflexivity.
  - reflexivity.
Defined.

Lemma block_by_synthetic_hash_witness :
  get_block_by_hash 0 head head (fun _ => None) [hashed 11 "0xbb" 1000]
      (_generate_fake_block_hash 12) 20 =
    bind (get_block_by_slot 0 head head [hashed 11 "0xbb" 1000] 12 20)
         (fun block => Ok (set_block_hash block (_generate_fake_block_hash 12))) /\
  (20 < 12 ->
   get_block_by_hash 0 head head (fun _ => None) [hashed 11 "0xbb" 1000]
       (_generate_fake_block_hash 12) 20 =
     Ok (set_block_hash (stub 12) (_generate_fake_block_hash 12))).
Proof.
  apply (block_by_synthetic_hash 0 head head (fun _ => None)
           [hashed 11 "0xbb" 1000] 12 20).
  lia.
Defined.

Lemma block_by_unknown_hash_witness :
  get_block_by_hash 0 head head (fun _ => None) [hashed 11 "0xbb" 1000]
      (lit "0x" ++ replicate 64 "a"%char) 20 = Ok (stub 0).
Proof.
  apply (block_by_unknown_hash 0 head head (fun _ => None)
           [hashed 11 "0xbb" 1000] (lit "0x" ++ replicate 64 "a"%char) 20).
  - intros (k & rest & Heq & _). destruct k; simpl in Heq; discriminate.
  - reflexivity.
Defined.

End BlockQueryFacts.

(* ===================================================================== *)
(** * The mempool transaction cache: lookups and sweeps *)
(* ===================================================================== *)

Module TxDictMore.
Import TxDict TxDictFacts.

Section Cache.

Context {NeonTx : Type}.

Local Abbreviation Item := (_Item NeonTx).
Local Abbreviation Cache := (MPTxDict NeonTx).
Local Abbreviation Op := (op NeonTx).

Implicit Types (d : Cache) (i item : Item) (ops : list Op).

(** X13: right after [add], [get] under the added signature answers with the
    added transaction, or with the recorded error when there is one, and
    [get] under every other signature answers as before. *)
Theorem add_then_get (now : Z) (sig other : string) (tx : NeonTx)
    (exc : option string) d (Hother : other <> sig) :
  get sig (add now sig tx exc d) =
    Some (match exc with Some e => FoundError e | None => FoundTx tx end) /\
  get other (add now sig tx exc d) = get other d.
Proof.
  unfold get, add. cbn [_neon_tx_dict]. split.
  - rewrite lookup_insert_eq. cbn [error neon_tx]. destruct exc; reflexivity.
  - rewrite lookup_insert_ne by congruence. reflexivity.
Qed.

Lemma clear_fixed (limit : Z) (q : list Item) (dict : gmap string Item) :
  match q with
  | [] => True
  | i :: _ => limit <= last_time i
  end ->
  clear_loop limit q dict = (q, dict).
Proof.
  destruct q as [| i q]; [reflexivity |]. intros H. cbn [clear_loop].
  destruct (Z.ltb_spec (last_time i) limit); [lia | reflexivity].
Qed.

(** X14: sweeping is idempotent, and a sweep at an earlier clock reading
    after a sweep at a later one changes nothing. *)
Theorem clear_then_clear (now earlier : Z) d (Hearlier : earlier <= now) :
  clear earlier (clear now d) = clear now d.
Proof.
  destruct (clear_spec now d) as (popped & _ & _ & _ & _ & Hhead).
  destruct (clear now d) as [dict queue]. cbn [_neon_tx_queue] in Hhead.
  unfold clear. cbn [_neon_tx_queue _neon_tx_dict].
  destruct queue as [| h rest]; [reflexivity |].
  rewrite (clear_fixed _ (h :: rest) dict); [reflexivity |].
  unfold _life_time in *. lia.
Qed.

(** X15: a sweep leaves the answer of [get] for a signature unchanged when no
    queued item under that signature has expired, and it never makes an
    absent signature present. *)
Theorem clear_keeps_unexpired (now : Z) (sig absent : string) d
    (Hfresh : forall i, In i (_neon_tx_queue d) -> neon_sig i = sig ->
                        Z.max (now - _life_time) 0 <= last_time i)
    (Habsent : get absent d = None) :
  get sig (clear now d) = get sig d /\
  get absent (clear now d) = None.
Proof.
  destruct (clear_spec now d) as (popped & Hq & Hold & _ & Hkept & _).
  split.
  - rewrite !get_answer. f_equal. apply Hkept.
    intros Hin. apply in_map_iff in Hin as (i & Hsig & Hi).
    rewrite List.Forall_forall in Hold. pose proof (Hold i Hi) as Hexp.
    assert (Hqi : In i (_neon_tx_queue d)).
    { rewrite Hq. apply in_or_app. left. exact Hi. }
    pose proof (Hfresh i Hqi Hsig). lia.
  - rewrite get_answer in *.
    destruct (_neon_tx_dict d !! absent) eqn:Hd; [discriminate |].
    rewrite (clear_lookup_none now d absent Hd). reflexivity.
Qed.

(** X16: when the clock readings of a run never go back, then right after a
    sweep at reading [now] every item still queued, and every item [get] can
    reach, was added at a reading of at least [now - 15]. *)
Theorem sweep_leaves_fresh_items ops (now : Z) i
    (Hordered : ordered_from 0 (ops ++ [Clear now]))
    (Hi : in_queue (run (ops ++ [Clear now]) init) i \/
          in_dict (run (ops ++ [Clear now]) init) i) :
  now - _life_time <= last_time i.
Proof.
  rewrite run_app in Hi. cbn [run fold_left step] in Hi.
  destruct (run_sorted ops 0 init init_sorted
              (ordered_from_prefix ops [Clear now] 0 Hordered)) as [b Hsorted].
  pose proof (clear_sorted now b _ Hsorted) as Hfresh.
  rewrite List.Forall_forall in Hfresh.
  assert (Hq : in_queue (clear now (run ops init)) i).
  { destruct Hi as [Hi | [k Hk]]; [exact Hi |].
    assert (Hinv : map_within_queue (clear now (run ops init))).
    { apply (step_map_within_queue _ (Clear now)).
      apply run_map_within_queue, init_map_within_queue. }
    apply (Hinv k i Hk). }
  pose proof (Hfresh i Hq). lia.
Qed.

End Cache.

Lemma add_then_get_witness :
  get "a" (add 5 "a" 7%nat (Some "nonce too low") (add 3 "b" 8%nat None init)) =
    Some (FoundError "nonce too low") /\
  get "b" (add 5 "a" 7%nat (Some "nonce too low") (add 3 "b" 8%nat None init)) =
    get "b" (add 3 "b" 8%nat None init).
Proof.
  apply (add_then_get 5 "a" "b" 7%nat (Some "nonce too low")
           (add 3 "b" 8%nat None init)).
  discriminate.
Defined.

Lemma clear_then_clear_witness :
  clear 18 (clear 20 (run [Add 1 "a" 7%nat None; Add 9 "b" 8%nat None] init)) =
  clear 20 (run [Add 1 "a" 7%nat None; Add 9 "b" 8%nat None] init).
Proof.
  apply (clear_then_clear 20 18
           (run [Add 1 "a" 7%nat None; Add 9 "b" 8%nat None] init)).
  lia.
Defined.

Lemma clear_keeps_unexpired_witness :
  get "b" (clear 20 (run [Add 1 "a" 7%nat None; Add 9 "b" 8%nat None] init)) =
    get "b" (run [Add 1 "a" 7%nat None; Add 9 "b" 8%nat None] init) /\
  get "c" (clear 20 (run [Add 1 "a" 7%nat None; Add 9 "b" 8%nat None] init)) = None.
Proof.
  apply (clear_keeps_unexpired 20 "b" "c"
           (run [Add 1 "a" 7%nat None; Add 9 "b" 8%nat None] init)).
  - intros i [<- | [<- | []]]; simpl; intros H; [discriminate |].
    unfold _life_time. lia.
  - reflexivity.
Defined.

Lemma sweep_leaves_fresh_items_witness :
  20 - _life_time <=
  last_time {| last_time := 9; neon_sig := "b"; neon_tx := 8%nat; error := None |}.
Proof.
  apply (sweep_leaves_fresh_items
           [Add 1 "a" 7%nat None; Add 9 "b" 8%nat None] 20
           {| last_time := 9; neon_sig := "b"; neon_tx := 8%nat; error := None |}).
  - simpl. lia.
  - left. left. reflexivity.
Defined.

End TxDictMore.

(* ===================================================================== *)
(** * The mempool service entry point: what is caught *)
(* ===================================================================== *)

Module ServiceMore.
Import Service ServiceFacts.

Section OnDataReceived.

Context {V : Type}.

Variable schedule_mp_tx_request : request -> outcome V.
Variable get_pending_tx_nonce : request -> outcome V.
Variable get_pending_tx_by_hash : request -> outcome V.
Variable get_gas_price : outcome V.
Variable suspend_processing : outcome V.
Variable resume_processing : outcome V.
Variable replicate : request -> outcome V.
Variable on_mp_tx_bunch : request -> outcome V.
Variable str_type : MPRequestType -> string.
Variable str_command : MaintenanceCommand -> string.

Local Abbreviation received :=
  (on_data_received schedule_mp_tx_request get_pending_tx_nonce
     get_pending_tx_by_hash get_gas_price suspend_processing resume_processing
     replicate on_mp_tx_bunch str_type str_command).

Local Abbreviation mp_processed :=
  (process_mp_request schedule_mp_tx_request get_pending_tx_nonce
     get_pending_tx_by_hash get_gas_price str_type).

Local Abbreviation maintenance_processed :=
  (process_maintenance_request suspend_processing resume_processing
     replicate on_mp_tx_bunch str_command).

(** X17: for a maintenance request that carries [req_id] and [command],
    [on_data_received] never raises an [Exception]: it returns what the
    handling returned, or, when the handling raised an [Exception],
    [Result("Request failed")] after one error line logged under the request
    id; only what is raised outside [Exception] passes through. *)
Theorem maintenance_request_contained (rq : request) (id : string)
    (c : MaintenanceCommand)
    (Hclass : class_of rq = IsMaintenanceRequest)
    (Hid : req_id rq = Some id) (Hcommand : command rq = Some c) :
  match maintenance_processed rq with
  | (log, Return v) => received rq = (log, Return v)
  | (log, Raise err) =>
      if is_Exception err then
        received rq =
          (log ++ [ {| log_req_id := Some id;
                       log_text := ("Failed to process maintenance request: "
                                    ++ str_command c) ++ ". Error: "
                                   ++ err_text err ++ ". Traceback: "
                                   ++ err_traceback err |} ],
           Return (Result "Request failed"))
      else received rq = (log, Raise err)
  end.
Proof.
  unfold on_data_received. rewrite Hclass.
  destruct (maintenance_processed rq) as [log [v | err]]; [reflexivity |].
  destruct (is_Exception err) eqn:He; [| reflexivity].
  unfold on_exception_clause, _on_exception. rewrite Hid, Hcommand.
  reflexivity.
Qed.

(** X18: what is raised outside [Exception] while a request is handled, be
    it a service or a maintenance request, leaves [on_data_received] as it
    is, with nothing logged by the handler. *)
Theorem base_exception_not_caught (rq : request) (log : list log_entry)
    (err : raised)
    (Hrun : (class_of rq = IsMPRequest /\ mp_processed rq = (log, Raise err)) \/
            (class_of rq = IsMaintenanceRequest /\
             maintenance_processed rq = (log, Raise err)))
    (Hbase : is_Exception err = false) :
  received rq = (log, Raise err).
Proof.
  unfold on_data_received.
  destruct Hrun as [[Hc Hr] | [Hc Hr]]; rewrite Hc, Hr, Hbase; reflexivity.
Qed.

End OnDataReceived.

Lemma maintenance_request_contained_witness :
  on_data_received (fun _ => idle) (fun _ => idle) (fun _ => idle) idle
    (failing "queue broken") idle (fun _ => idle) (fun _ => idle)
    (fun _ => "type") (fun _ => "SuspendMemPool")
    (MaintenanceRequest "r2" SuspendMemPool)
  = ([] ++ [ {| log_req_id := Some "r2";
                log_text := ("Failed to process maintenance request: "
                             ++ "SuspendMemPool") ++ ". Error: " ++ "queue broken"
                            ++ ". Traceback: " ++ "" |} ],
     Return (Result "Request failed")).
Proof.
  exact (maintenance_request_contained (fun _ => idle) (fun _ => idle)
           (fun _ => idle) idle (failing "queue broken") idle (fun _ => idle)
           (fun _ => idle) (fun _ => "type") (fun _ => "SuspendMemPool")
           (MaintenanceRequest "r2" SuspendMemPool) "r2" SuspendMemPool
           eq_refl eq_refl eq_refl).
Defined.

Lemma base_exception_not_caught_witness :
  on_data_received (fun _ => cancelled) (fun _ => idle) (fun _ => idle) idle
    idle idle (fun _ => idle) (fun _ => idle)
    (fun _ => "type") (fun _ => "command")
    (MPRequest "r1" SendTransaction)
  = ([], cancelled).
Proof.
  apply (base_exception_not_caught (fun _ => cancelled) (fun _ => idle)
           (fun _ => idle) idle idle idle (fun _ => idle) (fun _ => idle)
           (fun _ => "type") (fun _ => "command")
           (MPRequest "r1" SendTransaction) []
           {| is_Exception := false; err_text := "CancelledError";
              err_traceback := "" |}).
  - left. split; reflexivity.
  - reflexivity.
Defined.

End ServiceMore.

(* ===================================================================== *)
(** * The JSON-RPC front: envelopes, block tags, transactions, batches *)
(* ===================================================================== *)

Module RestFrontFacts.
Import Py PyFacts PyMore RestApi RestApiFacts RestFront.

Lemma dict_get_set (key : pystr) (v : json) (d : dict) :
  dict_get key (dict_set key v d) = Some v.
Proof.
  induction d as [| [k v'] d IH]; cbn [dict_set dict_get].
  - rewrite bool_decide_eq_true_2 by reflexivity. reflexivity.
  - destruct (bool_decide_reflect (k = key)) as [-> | Hne]; cbn [dict_get].
    + rewrite bool_decide_eq_true_2 by reflexivity. reflexivity.
    + rewrite bool_decide_eq_false_2 by exact Hne. exact IH.
Qed.

(** ** Block tags *)

Section Tags.

Variable db_get_last_block_height : outcome Z.
Variable exn_name : exn -> pystr.
Variable exn_text : exn -> pystr.
Variable str_of_json : json -> pystr.

Local Abbreviation tag_number :=
  (process_block_tag db_get_last_block_height exn_name exn_text str_of_json).

Lemma hex_not_word (n : Z) (c : ascii) (w : pystr) :
  Ascii.eqb c "-" = false -> Ascii.eqb c "0" = false -> hex n <> c :: w.
Proof.
  intros Hm Hz. unfold hex. destruct (n <? 0); cbn; intros [= <- _]; discriminate.
Qed.

(** X19: [process_block_tag] reads back every block number written by [hex],
    which is how [eth_blockNumber] writes the height: for every integer [n]
    the tag [hex(n)] gives [n]; and the tag ["latest"] gives the height of
    the index. *)
Theorem block_tag_reads_hex (n : Z) :
  tag_number (JStr (hex n)) = Return n /\
  tag_number (JStr (lit "latest")) = db_get_last_block_height /\
  eth_blockNumber db_get_last_block_height =
    match db_get_last_block_height with
    | Return height => Return (JStr (hex height))
    | Throw e => Throw e
    end.
Proof.
  split; [| split].
  - unfold process_block_tag.
    rewrite bool_decide_eq_false_2 by (apply hex_not_word; reflexivity).
    rewrite !bool_decide_eq_false_2 by (apply hex_not_word; reflexivity).
    cbn [orb]. rewrite int16_hex_roundtrip. reflexivity.
  - reflexivity.
  - unfold eth_blockNumber. destruct db_get_last_block_height; reflexivity.
Qed.

End Tags.

(** ** Envelopes *)

Section Envelope.

Variable getattr : pystr -> option attr.

(** X20: every response [process_request] returns for a JSON object carries
    [jsonrpc] ["2.0"], the [id] of the request or null when it has none, and
    exactly one of [result] and [error]. *)
Theorem response_envelope (request response : dict)
    (Hret : process_request getattr (JObj request) = Return response) :
  dict_get (lit "jsonrpc") response = Some (JStr (lit "2.0")) /\
  dict_get (lit "id") response = Some (default JNull (dict_get (lit "id") request)) /\
  ((exists v, dict_get (lit "result") response = Some v /\
              dict_get (lit "error") response = None) \/
   (exists e, dict_get (lit "error") response = Some e /\
              dict_get (lit "result") response = None)).
Proof.
  rewrite process_request_respond in Hret. unfold respond in Hret.
  destruct (dispatch getattr request) as [v | [r | e | n t | n]];
    try discriminate; injection Hret as <-;
    (split; [reflexivity |]); (split; [reflexivity |]);
    first [ left; eexists; split; reflexivity
          | right; eexists; split; reflexivity ].
Qed.

(** The response that refuses a request: the envelope, and an error object
    with code [-32000] and a message. *)
Local Abbreviation refusal request text :=
  [ (lit "jsonrpc", JStr (lit "2.0"));
    (lit "id", default JNull (dict_get (lit "id") request));
    (lit "error",
     JObj [ (lit "code", JInt (-32000)); (lit "message", JStr text) ]) ].

(** X21: a request object without [method], one with a [method] that is
    not text, one naming an attribute that is not callable, and one whose
    [params] are null, a truth value or a number (which the call cannot
    unpack), each get an error object with code [-32000] and a message, and
    no result. *)
Theorem malformed_request_envelope (r1 r2 r3 r4 : dict)
    (v p : json) (name name' t : pystr) (a : attr)
    (H1 : dict_get (lit "method") r1 = None)
    (H2 : dict_get (lit "method") r2 = Some v)
    (Hv : forall text, v <> JStr text)
    (H3 : dict_get (lit "method") r3 = Some (JStr name))
    (Hdata : getattr name = Some (Data t))
    (H4 : dict_get (lit "method") r4 = Some (JStr name'))
    (Hattr : getattr name' = Some a)
    (Hparams : dict_get (lit "params") r4 = Some p)
    (Hp : p = JNull \/ (exists b, p = JBool b) \/ (exists n, p = JInt n)) :
  (exists text, process_request getattr (JObj r1) = Return (refusal r1 text)) /\
  (exists text, process_request getattr (JObj r2) = Return (refusal r2 text)) /\
  (exists text, process_request getattr (JObj r3) = Return (refusal r3 text)) /\
  (exists text, process_request getattr (JObj r4) = Return (refusal r4 text)).
Proof.
  repeat apply conj; unfold process_request, dispatch.
  - rewrite H1. eexists. reflexivity.
  - rewrite H2. destruct v; try (eexists; reflexivity). destruct (Hv s eq_refl).
  - rewrite H3, Hdata.
    destruct (unpack _) as [args | [r | e | n text | n]] eqn:Hu;
      cbn [obind]; try (eexists; reflexivity);
      exfalso; revert Hu; unfold unpack; destruct (default _ _); discriminate.
  - rewrite H4, Hattr, Hparams. cbn [from_option id].
    destruct Hp as [-> | [[b ->] | [n ->]]]; eexists; reflexivity.
Qed.

End Envelope.

Lemma response_envelope_witness :
  dict_get (lit "jsonrpc")
    [ (lit "jsonrpc", JStr (lit "2.0")); (lit "id", JInt 1);
      (lit "result", JInt 16) ] = Some (JStr (lit "2.0")) /\
  dict_get (lit "id")
    [ (lit "jsonrpc", JStr (lit "2.0")); (lit "id", JInt 1);
      (lit "result", JInt 16) ]
    = Some (default JNull (dict_get (lit "id") helper_request)) /\
  ((exists v,
      dict_get (lit "result")
        [ (lit "jsonrpc", JStr (lit "2.0")); (lit "id", JInt 1);
          (lit "result", JInt 16) ] = Some v /\
      dict_get (lit "error")
        [ (lit "jsonrpc", JStr (lit "2.0")); (lit "id", JInt 1);
          (lit "result", JInt 16) ] = None) \/
   (exists e,
      dict_get (lit "error")
        [ (lit "jsonrpc", JStr (lit "2.0")); (lit "id", JInt 1);
          (lit "result", JInt 16) ] = Some e /\
      dict_get (lit "result")
        [ (lit "jsonrpc", JStr (lit "2.0")); (lit "id", JInt 1);
          (lit "result", JInt 16) ] = None)).
Proof.
  apply (response_envelope sample_getattr helper_request).
  vm_compute. reflexivity.
Defined.

Lemma malformed_request_envelope_witness :
  (exists text,
     process_request sample_object (JObj [ (lit "id", JInt 4) ]) =
       Return [ (lit "jsonrpc", JStr (lit "2.0")); (lit "id", JInt 4);
                (lit "error",
                 JObj [ (lit "code", JInt (-32000)); (lit "message", JStr text) ]) ]) /\
  (exists text,
     process_request sample_object
       (JObj [ (lit "id", JInt 5); (lit "method", JInt 7) ]) =
       Return [ (lit "jsonrpc", JStr (lit "2.0")); (lit "id", JInt 5);
                (lit "error",
                 JObj [ (lit "code", JInt (-32000)); (lit "message", JStr text) ]) ]) /\
  (exists text,
     process_request sample_object
       (JObj [ (lit "id", JInt 6); (lit "method", JStr (lit "proxy_id")) ]) =
       Return [ (lit "jsonrpc", JStr (lit "2.0")); (lit "id", JInt 6);
                (lit "error",
                 JObj [ (lit "code", JInt (-32000)); (lit "message", JStr text) ]) ]) /\
  (exists text,
     process_request sample_object
       (JObj [ (lit "id", JInt 7); (lit "method", JStr (lit "eth_getCode"));
               (lit "params", JInt 3) ]) =
       Return [ (lit "jsonrpc", JStr (lit "2.0")); (lit "id", JInt 7);
                (lit "error",
                 JObj [ (lit "code", JInt (-32000)); (lit "message", JStr text) ]) ]).
Proof.
  destruct (sample_object (lit "eth_getCode")) as [a |] eqn:Ha;
    [| vm_compute in Ha; discriminate].
  apply (malformed_request_envelope sample_object
           [ (lit "id", JInt 4) ]
           [ (lit "id", JInt 5); (lit "method", JInt 7) ]
           [ (lit "id", JInt 6); (lit "method", JStr (lit "proxy_id")) ]
           [ (lit "id", JInt 7); (lit "method", JStr (lit "eth_getCode"));
             (lit "params", JInt 3) ]
           (JInt 7) (JInt 3) (lit "proxy_id") (lit "eth_getCode") (lit "int") a).
  - reflexivity.
  - reflexivity.
  - discriminate.
  - reflexivity.
  - vm_compute. reflexivity.
  - reflexivity.
  - exact Ha.
  - reflexivity.
  - right. right. exists 3. reflexivity.
Defined.

(** ** The transactions of a block *)

Section Blocks.

Variable db_get_block_info : Z -> outcome (option block_info).
Variable db_get_eth_trx_sig_by_signature : pystr -> outcome (option eth_trx_sig).
Variable eth_getTransactionReceipt : pystr -> outcome (option dict).
Variable eth_getTransactionByHash : pystr -> outcome (option dict).
Variable b58decode_hex : pystr -> outcome pystr.
Variable exn_name : exn -> pystr.
Variable exn_text : exn -> pystr.

Local Abbreviation round :=
  (getBlockBySlot_round db_get_eth_trx_sig_by_signature eth_getTransactionReceipt
     eth_getTransactionByHash exn_name exn_text).
Local Abbreviation loop :=
  (getBlockBySlot_loop db_get_eth_trx_sig_by_signature eth_getTransactionReceipt
     eth_getTransactionByHash exn_name exn_text).
Local Abbreviation by_slot :=
  (getBlockBySlot db_get_block_info db_get_eth_trx_sig_by_signature
     eth_getTransactionReceipt eth_getTransactionByHash b58decode_hex
     exn_name exn_text).

Ltac split_round H :=
  repeat match type of H with
         | obind ?x _ = _ => destruct x as [? | ?] eqn:?; cbn [obind] in H
         | match ?x with _ => _ end = _ => destruct x eqn:?
         | (if ?x then _ else _) = _ => destruct x eqn:?
         end; try discriminate.

Lemma indexed_snoc (txs : list json) (obj : dict) :
  indexed txs ->
  dict_get (lit "transactionIndex") obj
    = Some (JStr (hex (Z.of_nat (length txs)))) ->
  indexed (txs ++ [JObj obj]).
Proof.
  intros Hi Hobj k x Hk.
  destruct (Nat.lt_ge_cases k (length txs)) as [Hlt | Hge].
  - rewrite nth_error_app1 in Hk by exact Hlt. exact (Hi k x Hk).
  - rewrite nth_error_app2 in Hk by exact Hge.
    destruct (k - length txs)%nat as [| m] eqn:Hm; cbn in Hk.
    + injection Hk as <-. exists obj. split; [reflexivity |].
      replace k with (length txs) by lia. exact Hobj.
    + destruct m; discriminate.
Qed.

Lemma round_full (txs txs' : list json) (g g' i i' : Z) (signature : pystr) :
  round true (txs, g, i) signature = Return (txs', g', i') ->
  indexed txs -> i = Z.of_nat (length txs) ->
  indexed txs' /\ i' = Z.of_nat (length txs').
Proof.
  intros H Hi Hlen. unfold getBlockBySlot_round in H.
  split_round H; injection H as <- <- <-; try (split; assumption).
  all: split;
    [ apply indexed_snoc; [exact Hi | rewrite <- Hlen; apply dict_get_set]
    | rewrite length_app; cbn [length]; lia ].
Qed.

Lemma loop_full (sigs : list pystr) :
  forall (txs txs' : list json) (g g' i i' : Z),
    loop true (txs, g, i) sigs = Return (txs', g', i') ->
    indexed txs -> i = Z.of_nat (length txs) ->
    indexed txs' /\ i' = Z.of_nat (length txs').
Proof.
  induction sigs as [| signature sigs IH]; intros txs txs' g g' i i' H Hi Hlen.
  - injection H as <- <- <-. split; assumption.
  - cbn [getBlockBySlot_loop] in H.
    destruct (round true (txs, g, i) signature) as [[[t1 g1] i1] | e] eqn:Hr;
      cbn [obind] in H; [| discriminate].
    destruct (round_full _ _ _ _ _ _ _ Hr Hi Hlen) as [Hi1 Hlen1].
    exact (IH _ _ _ _ _ _ H Hi1 Hlen1).
Qed.

Lemma round_hashes (txs txs' : list json) (g g' i i' : Z) (signature : pystr) :
  round false (txs, g, i) signature = Return (txs', g', i') ->
  txs' = txs ++ map JStr (selected db_get_eth_trx_sig_by_signature [signature]) /\
  i' = i.
Proof.
  intros H. unfold getBlockBySlot_round in H. unfold selected. cbn [flat_map].
  destruct (db_get_eth_trx_sig_by_signature signature) as [[e |] | err];
    cbn [obind] in H; try discriminate.
  - destruct (idx e =? 0).
    + split_round H; injection H as <- <- <-; split; reflexivity.
    + injection H as <- <- <-. rewrite app_nil_r. split; reflexivity.
  - injection H as <- <- <-. rewrite app_nil_r. split; reflexivity.
Qed.

Lemma selected_cons (signature : pystr) (sigs : list pystr) :
  selected db_get_eth_trx_sig_by_signature (signature :: sigs) =
  selected db_get_eth_trx_sig_by_signature [signature] ++
  selected db_get_eth_trx_sig_by_signature sigs.
Proof. unfold selected. cbn [flat_map]. rewrite app_nil_r. reflexivity. Qed.

Lemma loop_hashes (sigs : list pystr) :
  forall (txs txs' : list json) (g g' i i' : Z),
    loop false (txs, g, i) sigs = Return (txs', g', i') ->
    txs' = txs ++ map JStr (selected db_get_eth_trx_sig_by_signature sigs).
Proof.
  induction sigs as [| signature sigs IH]; intros txs txs' g g' i i' H.
  - injection H as <- <- <-. cbn. rewrite app_nil_r. reflexivity.
  - cbn [getBlockBySlot_loop] in H.
    destruct (round false (txs, g, i) signature) as [[[t1 g1] i1] | e] eqn:Hr;
      cbn [obind] in H; [| discriminate].
    destruct (round_hashes _ _ _ _ _ _ _ Hr) as [-> _].
    rewrite (IH _ _ _ _ _ _ H), (selected_cons signature sigs), map_app,
      <- List.app_assoc.
    reflexivity.
Qed.

(** X22: in a block returned by [getBlockBySlot] with [full] set, every
    entry of [transactions] is a transaction object, and the [k]-th one
    (counting from 0) carries [transactionIndex = hex(k)]. *)
Theorem full_block_transactions_indexed (slot : Z) (ret : dict)
    (Hret : by_slot slot true = Return (Some ret)) :
  exists transactions,
    dict_get (lit "transactions") ret = Some (JList transactions) /\
    indexed transactions.
Proof.
  unfold getBlockBySlot in Hret.
  destruct (db_get_block_info slot) as [[info |] | e]; cbn [obind] in Hret;
    try discriminate.
  destruct (loop true ([], 0, 0) (signatures info)) as [[[txs used] index] | e]
    eqn:Hloop; cbn [obind] in Hret; try discriminate.
  destruct (b58decode_hex (blockhash info)) as [hash | e]; cbn [obind] in Hret;
    try discriminate.
  destruct (b58decode_hex (previousBlockhash info)) as [parent | e];
    cbn [obind] in Hret; try discriminate.
  injection Hret as <-. exists txs. split; [reflexivity |].
  apply (loop_full _ _ _ _ _ _ _ Hloop); [| reflexivity].
  intros k x Hk. destruct k; discriminate.
Qed.

(** X23: in a block returned by [getBlockBySlot] without [full],
    [transactions] lists, in the order of the block's signatures, the
    Ethereum transaction hashes of exactly those signatures that the index
    maps to a transaction with [idx] 0. *)
Theorem plain_block_transactions (slot : Z) (ret : dict) (info : block_info)
    (Hinfo : db_get_block_info slot = Return (Some info))
    (Hret : by_slot slot false = Return (Some ret)) :
  dict_get (lit "transactions") ret =
    Some (JList (map JStr (selected db_get_eth_trx_sig_by_signature
                             (signatures info)))).
Proof.
  unfold getBlockBySlot in Hret. rewrite Hinfo in Hret. cbn [obind] in Hret.
  destruct (loop false ([], 0, 0) (signatures info)) as [[[txs used] index] | e]
    eqn:Hloop; cbn [obind] in Hret; try discriminate.
  destruct (b58decode_hex (blockhash info)) as [hash | e]; cbn [obind] in Hret;
    try discriminate.
  destruct (b58decode_hex (previousBlockhash info)) as [parent | e];
    cbn [obind] in Hret; try discriminate.
  injection Hret as <-.
  rewrite (loop_hashes _ _ _ _ _ _ _ Hloop). reflexivity.
Qed.

End Blocks.

Lemma full_block_transactions_indexed_witness :
  exists transactions,
    dict_get (lit "transactions") sample_full_ret = Some (JList transactions) /\
    indexed transactions.
Proof.
  apply (full_block_transactions_indexed sample_block_info sample_trx_sig
           sample_receipt sample_trx (fun s => Return s)
           (fun _ => lit "Error") (fun _ => lit "error") 7 sample_full_ret).
  vm_compute. reflexivity.
Defined.

Lemma plain_block_transactions_witness :
  dict_get (lit "transactions") sample_ret =
    Some (JList (map JStr (selected sample_trx_sig (signatures sample_block)))).
Proof.
  apply (plain_block_transactions sample_block_info sample_trx_sig
           sample_receipt sample_trx (fun s => Return s)
           (fun _ => lit "Error") (fun _ => lit "error") 7 sample_ret sample_block).
  - reflexivity.
  - vm_compute. reflexivity.
Defined.

(** ** The request handler *)

Section Handler.

Variable getattr : pystr -> option attr.
Variable parser_get_method : outcome json.
Variable str_of_raised : raised -> pystr.

Local Abbreviation handled :=
  (handle_request getattr parser_get_method str_of_raised).

(** X24: [handle_request] queues the response of [process_request] for a
    body that is a JSON object, and the preflight response for [OPTIONS];
    for a body that is a JSON array it queues nothing: after the batch has
    been processed the log line reads [request.get] on the list and the
    handler raises. *)
Theorem handler_answers_objects_only (request response : dict)
    (batch : list json) (loaded : outcome json)
    (Hret : process_request getattr (JObj request) = Return response) :
  handled false (Return (JObj request)) = Return (Body (JObj response)) /\
  handled true loaded = Return Preflight /\
  exists e, handled false (Return (JList batch)) = Throw e.
Proof.
  split; [| split].
  - unfold handle_request, answer_body. cbn [obind]. rewrite Hret. reflexivity.
  - reflexivity.
  - unfold handle_request.
    destruct (answer_body getattr (Return (JList batch))) as [r | [r | e | n t | n]];
      cbn [obind]; eexists; reflexivity.
Qed.

End Handler.

(** ** An unsupported method *)

Section Unsupported.

Variable db_get_last_block_height : outcome Z.
Variable db_get_block_info : Z -> outcome (option block_info).
Variable db_get_eth_trx_sig_by_signature : pystr -> outcome (option eth_trx_sig).
Variable db_get_slot_by_hash : pystr -> outcome (option Z).
Variable db_get_slot_by_number : Z -> outcome (option Z).
Variable eth_getTransactionReceipt : pystr -> outcome (option dict).
Variable eth_getTransactionByHash : pystr -> outcome (option dict).
Variable b58decode_hex : pystr -> outcome pystr.
Variable lower : pystr -> pystr.
Variable exn_name : exn -> pystr.
Variable exn_text : exn -> pystr.
Variable str_of_json : json -> pystr.
Variable rest_attr : pystr -> option attr.

Variable getBlockBySlot_other : json -> json -> outcome json.

Local Abbreviation model :=
  (model_getattr db_get_last_block_height db_get_block_info
     db_get_eth_trx_sig_by_signature db_get_slot_by_hash db_get_slot_by_number
     eth_getTransactionReceipt eth_getTransactionByHash b58decode_hex lower
     exn_name exn_text str_of_json getBlockBySlot_other
     (more_attr db_get_last_block_height rest_attr)).

(** X25: a request for [eth_sendTransaction] never gets a result: whatever
    its params, the response is an error object with code [-32000] and a
    message; when the params are one transaction, the message says that the
    method is not supported. *)
Theorem send_transaction_unsupported (request : dict)
    (Hmethod : dict_get (lit "method") request
               = Some (JStr (lit "eth_sendTransaction"))) :
  exists text,
    process_request model (JObj request) =
      Return [ (lit "jsonrpc", JStr (lit "2.0"));
               (lit "id", default JNull (dict_get (lit "id") request));
               (lit "error",
                JObj [ (lit "code", JInt (-32000));
                       (lit "message", JStr text) ]) ] /\
    (forall trx, dict_get (lit "params") request = Some (JList [trx]) ->
       text = lit "eth_sendTransaction is not supported. please use eth_sendRawTransaction").
Proof.
  unfold process_request, dispatch. rewrite Hmethod.
  change (model (lit "eth_sendTransaction"))
    with (Some (Method (fun args =>
                  match args with
                  | [trx] => eth_sendTransaction trx
                  | _ => Throw arity_error
                  end))).
  destruct (dict_get (lit "params") request) as [params |]; cbn [from_option id].
  - destruct params as [| b | n | text | l | d]; cbn [unpack obind];
      try (eexists; split; [reflexivity | intros trx; discriminate]).
    + destruct (map (fun c => JStr [c]) text) as [| x [| y rest]];
        eexists; (split; [reflexivity | intros trx; discriminate]).
    + destruct l as [| x [| y rest]]; eexists;
        (split; [reflexivity | intros trx Htrx; try discriminate; reflexivity]).
    + destruct (map (fun kv : pystr * json => JStr (fst kv)) d) as [| x [| y rest]];
        eexists; (split; [reflexivity | intros trx; discriminate]).
  - eexists. split; [reflexivity | intros trx; discriminate].
Qed.

End Unsupported.

Lemma handler_answers_objects_only_witness :
  handle_request sample_getattr (Return JNull) (fun _ => [])
      false (Return (JObj helper_request))
    = Return (Body (JObj [ (lit "jsonrpc", JStr (lit "2.0")); (lit "id", JInt 1);
                           (lit "result", JInt 16) ])) /\
  handle_request sample_getattr (Return JNull) (fun _ => [])
      true (Return (JList [])) = Return Preflight /\
  exists e,
    handle_request sample_getattr (Return JNull) (fun _ => [])
      false (Return (JList [JObj helper_request; JObj unknown_request])) = Throw e.
Proof.
  apply (handler_answers_objects_only sample_getattr (Return JNull) (fun _ => [])
           helper_request _ [JObj helper_request; JObj unknown_request]
           (Return (JList []))).
  vm_compute. reflexivity.
Defined.

Lemma send_transaction_unsupported_witness :
  exists text,
    process_request sample_object
      (JObj [ (lit "id", JInt 9);
              (lit "method", JStr (lit "eth_sendTransaction"));
              (lit "params", JList [JObj []]) ]) =
      Return [ (lit "jsonrpc", JStr (lit "2.0"));
               (lit "id",
                default JNull
                  (dict_get (lit "id")
                     [ (lit "id", JInt 9);
                       (lit "method", JStr (lit "eth_sendTransaction"));
                       (lit "params", JList [JObj []]) ]));
               (lit "error",
                JObj [ (lit "code", JInt (-32000));
                       (lit "message", JStr text) ]) ] /\
    (forall trx,
       dict_get (lit "params")
         [ (lit "id", JInt 9);
           (lit "method", JStr (lit "eth_sendTransaction"));
           (lit "params", JList [JObj []]) ] = Some (JList [trx]) ->
       text = lit "eth_sendTransaction is not supported. please use eth_sendRawTransaction").
Proof.
  apply (send_transaction_unsupported (Return 100) sample_block_info
           sample_trx_sig (fun _ => Return (Some 7)) (fun _ => Return (Some 7))
           sample_receipt sample_trx (fun s => Return s) (fun s => s)
           (fun _ => lit "ValueError") (fun _ => lit "invalid literal")
           (fun _ => [])
           (fun name => if bool_decide (name = lit "proxy_id")
                        then Some (Data (lit "int")) else None)
           (fun _ _ => Return JNull)).
  reflexivity.
Defined.

End RestFrontFacts.
